(* ===== verification/_CoqProject ===== *)
-Q . S2P
Prelude.v
Element.v
SortedSpec.v
BinNode.v
NodeErrors.v
NodeHeight.v
NodeOrder.v
NodeBalance.v
BinTree.v
TreeBalance.v
Scenarios.v
Process.v
MazeRow.v
Maze.v
MazeGrid.v
MazeLoad.v
MazeSearch.v
MazePath.v
MazeCheck.v
MazeSolve.v
MazeBorder.v
MazeRun.v
