(* ===== verification/Prelude.v ===== *)
(** * MazeSolver: a verification development of edn92/MazeSolver

    The repository is a C++ maze solver built on a hand-written
    self-balancing binary search tree.  It has three parts:

    - [binNode<dataType>] (src/binnode.h): a tree node owning one
      element, two child pointers and a cached [height]; it implements
      insertion, erasure (with the "splice the left subtree under the
      left-most node of the right subtree" deletion), lookup ([find],
      [findConst]), the two rotations, [rebalance], [verifyTree],
      [print] and the statistics [numLeafNodes], [maxTreeDepth],
      [numNodes].  Every mutating method receives a reference to the
      pointer slot that owns the node ([binNode* &root]) and overwrites
      it when the subtree root changes.
    - [bintree<dataType>] (src/bintree.h): the container; it owns an
      optional root and an item counter [numItems], delegates to the
      root node and keeps the counter in step.
    - the maze application (src/assign2.cpp): [MazePoint] (a cell,
      ordered by its column [x]), [MazeRow] (a [bintree<MazePoint>]
      ordered by its row [y]), [Maze] (a [bintree<MazeRow>] with the
      start and finish coordinates: [loadMaze], [checkMaze] with
      [ifOutside], [checkStart], [checkFinish], the recursive
      depth-first [move] with its breadcrumbs and [cleanUpMaze],
      [printMaze]) and [main].  The maze talks to the container only
      through [insert], [erase], [find], [findConst], [size] and
      [print].

    ** Layout of the development (files in dependency order)

    - [Prelude] (this file): the scope [mazesolver_scope], the model of
      C++ exceptions ([exn], [outcome]: the state a call leaves behind
      together with the exception it raises, if any), the hint
      databases, the development's tactics, generic lemmas on strongly
      sorted lists and on [outcome].
    - [Element]: the interface the template parameter [dataType] must
      provide ([operator<], [operator==], and [operator>=],
      [operator<=] for [verifyTree]) as the type classes [Ordered] and
      [VerifyOrdered]; the laws a caller's order must satisfy
      ([OrderedLaws]: a strict weak order whose [operator==] is
      incomparability); the instance of an order by an integer key,
      which is the order of [MazePoint] and [MazeRow].
    - [SortedSpec]: the abstract specification of the container: a
      strictly sorted list with [ins_list], [del_list], [lookup_list],
      [mem_list], and [set_insert] / [set_erase], which refuse exactly
      when the container throws.
    - [BinNode]: Module [BinNode], the model of binnode.h.  A pointer
      slot is the inductive [tree] ([Nil] is [NULL]); a method taking
      [binNode* &root] is a function from the node to the new content
      of the slot; a method that may throw returns an [outcome tree]
      whose state is the slot content when the exception escapes (what
      was mutated before the [throw] stays mutated).  Heights are the
      source's [int] fields, read from the cache, never recomputed.
      [find] returns the element and a writer for the slot, the
      pointer of the source.
    - [NodeErrors]: an exception leaves the slot as it was.
    - [NodeHeight]: the height-cache invariant [heightOk], kept by every
      mutating operation except [operator=], which keeps the height of
      the assigned node ([assign_heightOk_iff]); bounds on heights and
      node counts; the cached routines equal structural reference
      definitions.
    - [NodeOrder]: the refinement of the node operations to
      [SortedSpec] through the in-order traversal; lookup and the
      pointer [find] returns; what [verifyTree] checks (a local order
      test, strictly weaker than sortedness).
    - [NodeBalance]: the AVL balance predicate, the shapes [rebalance]
      repairs and the right-left shape it leaves out of balance.
    - [BinTree]: Module [BinTree], the model of bintree.h, the container
      invariant [treeOk] (counter, caches, order), its preservation, the
      refinement to [SortedSpec], the invariant of every state reachable
      through the public API ([reachable], by rule induction), and the
      lemmas the maze uses ([find_focus_tree], [print_elements]).
    - [TreeBalance]: [bintree::balance()] in the real numbers, its
      bounds [0 < balance <= 1] on every valid tree and the trees where
      it is [1] (the perfect ones).
    - [Scenarios]: concrete runs on [Z] elements: the spec's scenarios,
      an erase that leaves the tree out of balance and an out-of-order
      tree that [verifyTree] accepts.
    - [Process]: how a step of the program ends: [run] is going on
      with a state, [Halted] by [exit(0)] with its output, an uncaught
      exception or undefined behaviour (an uninitialised [char] or
      [int] read), or [OutOfFuel]; [forLoop] is a [for] loop on fuel,
      with the loop rule [forLoop_run]; [runRel] relates two runs.
    - [MazeRow]: [MazePoint] and [MazeRow] with every row operation
      ([toString], [searchMazePoint], [changeMazePoint],
      [insertMazePointsIntoRow]) on top of [BinTree], and their
      behaviour on a row described by its list of characters
      ([rowHolds]).
    - [Maze]: the class [Maze] and [main]: every method as a step on
      the [Maze] value in [run]; the uninitialised [int] members are
      [None].
    - [MazeGrid]: the maze as a grid of characters ([mazeHolds]) and the
      list functions [gset], [gclean], [gmove] the operations of [Maze]
      refine: [changeRow_gset], [cleanUpMaze_gclean], [move_gmove].
    - [MazeLoad]: loading a file gives a maze holding its lines or the
      invalid-character exit; printing gives the lines back; [fileOf]
      writes lines to a file, and a file ending in a newline is [fileOf]
      of its [getlines].
    - [MazeSearch]: termination of the search: [gmove] never exhausts
      the depth [need] on a grid with at most one start, hence [move]
      never exhausts the depth [moveFuel] that [findPathThroughMaze]
      gives it.
    - [MazePath]: correctness of the grid search [gmove]: the order
      [grows] (breadcrumbs on blanks, a [PreOrder]), walks of open cells
      to a finish ([walk]), the marking [gmark]; [gmove_spec], one
      induction on the depth, gives that a path found is a walk marked
      with ['.'], that a failed call leaves an explored set closed under
      the four moves with no finish in it (so no walk exists) whose
      cells are all [trodden], so that every blank [reach]ed from the
      call's cell keeps a breadcrumb, and that on a [walled] grid no
      call reads past a row.  The four recursive
      calls of [move] are [tryAll] over [neighbours].
    - [MazeCheck]: [checkMaze] on a grid: the scan sets the members from
      the last ['s'] and ['f'] in scan order ([positions]) and counts
      them, and [ifOutside] compares with the first ['#'] of the row
      ([firstIndex]); [checkMaze_spec] proves [checkMaze] equal to the
      grid-level [gcheckMaze], from which follow the accepted mazes
      ([checkMaze_accepts]) and the missing start ([checkMaze_no_start]).
    - [MazeSolve]: the composition: [move] and [findPathThroughMaze] on a
      maze through the refinement to [gmove]; [main] loads, checks,
      searches and prints a solved grid ([main_solves]); a failed
      [move] leaves its breadcrumbs ([move_no_path_breadcrumbs]) and a
      call past the end of a line reads an uninitialised [char]
      ([move_past_row_end]).
    - [MazeBorder]: the mazes spec section 6 describes, a rectangle
      whose boundary is all ['#'] ([bordered], decided by a boolean
      function): they are walled and pass [ifOutside], so [main]
      solves each of them ([main_solves_bordered]).
    - [MazeRun]: [main] on concrete files: the spec's scenario and the
      runs where the program departs from the spec.

    ** What the theorems show

    - The container refines the sorted-list specification on every path,
      errors included ([BinTree.insert_refines], [erase_refines]), and
      keeps its invariant ([insert_treeOk], [erase_treeOk]); every
      reachable state passes [verifyTree] ([reachable_verifyTree]).
    - The AVL promise of the spec does not hold: [rebalance_avl] gives
      the shapes that are repaired, and in the remaining right-left
      shape the inner rotation of [rebalanceAntiClockwise] never runs
      (a [bool] compared with [< 0]) and the node is left with a slope
      of 2 ([rebalance_right_left_unbalanced]); the splicing deletion
      can leave a slope of 3 ([Scenarios.erase_splice_breaks_avl]).
    - [findConst] finds an element after its [insert] and not after
      its [erase] ([insert_then_find], [erase_then_find]); a throwing
      [erase] leaves the slot as it was ([erase_raise_unchanged]);
      writing through the pointer [find] returns keeps a search tree
      ([find_write_invariant]); the cached height is the depth
      [maxTreeDepth] recomputes ([getHeight_maxTreeDepth]).
    - [balance()] lies in [(0, 1]] on every valid tree and is [1]
      exactly on perfect trees, as its comment says.
    - The search is correct: a path [move] reports is a walk from the
      start to a finish whose blanks, and only they, are marked ['.']
      ([move_sound]); [false] means that no walk exists, whatever depth
      [move] was given ([move_complete]); on a walled grid with a
      single start [findPathThroughMaze] returns, finds a path whenever
      one exists and otherwise leaves breadcrumbs
      ([findPathThroughMaze_finds], [findPathThroughMaze_no_path]); and
      [main] on a file meeting the checks prints the solved grid
      ([main_solves]), in particular on every maze of the shape the
      spec requires ([main_solves_bordered]).
    - A maze printed right after loading is the file again, character
      for character ([load_print_file]).
    - The rows behave as lists of characters; loading a file and
      printing it round-trips; the search on the container is the
      search on the grid; the search ends on every valid maze with a
      single start; [checkMaze] accepts every grid with one start
      and one finish not left of their row's first wall, and sets the
      coordinates from them; the spec's three-row scenario prints the
      marked path.  The defects: every maze without start reads
      uninitialised members ([checkMaze_no_start]); a call of [move]
      past the end of a line, as on a row open on the right, reads an
      uninitialised [char] ([move_past_row_end]); a failed search
      leaves a breadcrumb on every blank it reaches
      ([move_no_path_breadcrumbs]); and the runs of [MazeRun] show
      these on whole files, and that the start, never breadcrumbed, can
      be re-entered so that a dead end is printed as part of the path
      ([MazeRun.start_reentered_detour]).

    ** Modelling choices, bounds and fuel

    - [int] fields (heights, counters, coordinates) are [Z].  Heights
      never exceed the node count ([height_bounds]) and the coordinates
      and counters are bounded by the size of the file, so none reaches
      2^31 on an input that fits in memory; no wrap-around is modelled.
    - The [assert]s of binnode.h are live ([#define NDEBUG] comes after
      [#include <assert.h>]).  The rotations are total here and return
      their argument in the shapes where the assertion would abort;
      [rebalance] only rotates in shapes where the assertions hold.
    - Loops whose bound is not structural run on fuel computed from the
      data: [size()] or [rowLength()] plus one for the [for] loops of
      [checkMaze] and [cleanUpMaze] and the [while] loop of
      [ifOutside] (each iteration moves the index towards the bound the
      loop condition reads, and [forLoop_run] shows that this fuel
      suffices), and [moveFuel] = twice the number of cells plus two
      for the recursion depth of [move] ([findPathThroughMaze_total]).
    - A [MazeRow *] from [mazeRows.find] is written through after other
      calls; nothing restructures [mazeRows] after loading, so the
      pointer designates the same node, and the model finds the row
      again ([changeRow]).
    - [walled] (every neighbour of a blank or of the start is a cell of
      its row, or lies beyond the grid) is the hypothesis under which
      the search reads no uninitialised [char]; [checkMaze] does not
      ensure it ([move_past_row_end]), so the end-to-end theorems
      assume it.  [walledb] decides it on a concrete grid.
    - [balance()] is computed in the reals [R] of the Standard Library:
      [log10] is [ln x / ln 10]; the rounding of [double] is not
      modelled, so [balance_one] is about the exact value.
    - The file system is a function from names to contents and
      [std::getline] is [getlines]; [std::cout] output is the list of
      strings written.  A read error in the middle of a file ends the
      [while (getline(...))] loop exactly as the end of the file does,
      so it is the end of the content here.  Not modelled: memory release (destructors) and
      pointer identity beyond the above. *)

From Stdlib Require Import ZArith List String Ascii Bool Sorted Lia.
Import ListNotations.

Declare Scope mazesolver_scope.
Delimit Scope mazesolver_scope with maze.

Create HintDb mazesolver.
Create Rewrite HintDb mazesolver_rw.

(** ** C++ exceptions *)

(** The string ["\n"] of the source. *)
Definition newline : string := String "010"%char EmptyString.

(** The only exception the container throws: [std::invalid_argument]
    with its message. *)
Inductive exn : Type :=
  | invalid_argument (what : string).

(** The result of a call that may throw: the state it leaves behind and
    the exception that escapes, if any. *)
Inductive outcome (S : Type) : Type :=
  | Normal (s : S)
  | Raise (e : exn) (s : S).
Arguments Normal {S} s.
Arguments Raise {S} e s.

Definition outcome_state {S} (o : outcome S) : S :=
  match o with Normal s => s | Raise _ s => s end.

Definition outcome_map {S T} (f : S -> T) (o : outcome S) : outcome T :=
  match o with Normal s => Normal (f s) | Raise e s => Raise e (f s) end.

Definition raised {S} (o : outcome S) : bool :=
  match o with Normal _ => false | Raise _ _ => true end.

Notation "f <$>o o" := (outcome_map f o) (at level 61, left associativity) : mazesolver_scope.

(** ** Tactics *)

(** Turn the boolean comparisons on [Z] of a hypothesis or goal into
    propositions for [lia]. *)
Ltac zbool :=
  repeat match goal with
  | H : context [Z.eqb _ _] |- _ => rewrite ?Z.eqb_eq, ?Z.eqb_neq in H
  | H : context [Z.ltb _ _] |- _ => rewrite ?Z.ltb_lt, ?Z.ltb_ge in H
  | H : context [Z.leb _ _] |- _ => rewrite ?Z.leb_le, ?Z.leb_gt in H
  | H : context [Z.gtb _ _] |- _ => rewrite ?Z.gtb_ltb in H
  | H : context [Z.geb _ _] |- _ => rewrite ?Z.geb_leb in H
  end.

(** Case analysis on every boolean test of the goal, keeping the
    equation. *)
Ltac case_ifs :=
  repeat match goal with
  | |- context [if ?b then _ else _] =>
      let E := fresh "E" in destruct b eqn:E
  end.

(** Case analysis on the first boolean test of the goal. *)
Ltac destruct_if :=
  match goal with |- context [if ?b then _ else _] => destruct b end.

(** ** Strongly sorted lists *)

Section SortedLists.
Context {A : Type} (R : A -> A -> Prop).

Lemma StronglySorted_app (l1 l2 : list A) :
  StronglySorted R (l1 ++ l2) <->
  StronglySorted R l1 /\ StronglySorted R l2 /\
  (forall a b, In a l1 -> In b l2 -> R a b).
Proof.
  induction l1 as [|x l1 IH]; simpl.
  - split; [intros H; repeat split; auto using SSorted_nil; contradiction
           | intros (_ & H & _); exact H].
  - split.
    + intros [H1 H2]%StronglySorted_inv. apply IH in H1 as (S1 & S2 & HR).
      rewrite Forall_forall in H2.
      repeat split; auto.
      * constructor; auto. rewrite Forall_forall. intros y Hy. apply H2, in_or_app; auto.
      * intros a b [<-|Ha] Hb; auto. apply H2, in_or_app; auto.
    + intros (S1 & S2 & HR). apply StronglySorted_inv in S1 as [S1 F1].
      constructor.
      * apply IH; repeat split; auto.
      * rewrite Forall_forall in *. intros y [Hy|Hy]%in_app_or; auto.
Qed.

Lemma StronglySorted_cons_app (l1 l2 : list A) (x : A) :
  StronglySorted R (l1 ++ x :: l2) <->
  StronglySorted R l1 /\ StronglySorted R l2 /\
  (forall a, In a l1 -> R a x) /\ (forall b, In b l2 -> R x b) /\
  (forall a b, In a l1 -> In b l2 -> R a b).
Proof.
  rewrite StronglySorted_app. split.
  - intros (S1 & [S2 F2]%StronglySorted_inv & HR). rewrite Forall_forall in F2.
    repeat split; simpl in *; auto.
  - intros (S1 & S2 & H1 & H2 & H3). repeat split; auto.
    + constructor; auto. apply Forall_forall; auto.
    + intros a b Ha [<-|Hb]; auto.
Qed.
End SortedLists.

(** ** Integers *)

(** [if (a > b) return 1 + a; else return 1 + b;] *)
Lemma if_gtb_max (a b : Z) : (if a >? b then 1 + a else 1 + b)%Z = (1 + Z.max a b)%Z.
Proof. rewrite Z.gtb_ltb. destruct (Z.ltb_spec b a); lia. Qed.

(** [if (a >= b) return a; else return b;] *)
Lemma if_geb_max (a b : Z) : (if a >=? b then a else b)%Z = Z.max a b.
Proof. rewrite Z.geb_leb. destruct (Z.leb_spec b a); lia. Qed.

(** [int max = a; if (b > max) max = b;] *)
Lemma if_gtb_max_swap (a b : Z) : (if b >? a then b else a)%Z = Z.max a b.
Proof. rewrite Z.gtb_ltb. destruct (Z.ltb_spec a b); lia. Qed.

(** ** Outcomes *)

Lemma outcome_state_map {S T} (f : S -> T) (o : outcome S) :
  outcome_state (outcome_map f o) = f (outcome_state o).
Proof. destruct o; reflexivity. Qed.

Lemma raised_map {S T} (f : S -> T) (o : outcome S) :
  raised (outcome_map f o) = raised o.
Proof. destruct o; reflexivity. Qed.

#[export] Hint Rewrite @outcome_state_map @raised_map : mazesolver_rw.
