(* ===== verification/Element.v ===== *)
(** * Element: what the container requires of [dataType]

    binnode.h and bintree.h are templates over [dataType]; the code
    calls [operator==] and [operator<] on elements in [insert],
    [erase], [find] and [findConst], and [operator>=] and [operator<=]
    in [verifyTree].  [Ordered] and [VerifyOrdered] are these
    operators; [OrderedLaws] is the contract a caller's order must meet
    for the container to work (spec section 3: "exactly one of a<b,
    a==b, b<a"), stated on the boolean operators as a strict weak order
    whose [operator==] is incomparability.  The laws are hypotheses of
    the theorems, never of the definitions: the model runs on any
    [dataType]. *)

From Stdlib Require Import ZArith Bool Lia.
From S2P Require Import Prelude.

Class Ordered (A : Type) := {
  op_lt : A -> A -> bool;   (** [bool operator<(const dataType&) const] *)
  op_eq : A -> A -> bool    (** [bool operator==(const dataType&) const] *)
  }.

Class VerifyOrdered (A : Type) := {
  op_ge : A -> A -> bool;   (** [operator>=], used by [verifyTree] *)
  op_le : A -> A -> bool    (** [operator<=], used by [verifyTree] *)
  }.

Infix "<." := op_lt (at level 70) : mazesolver_scope.
Infix "==." := op_eq (at level 70) : mazesolver_scope.
Open Scope mazesolver_scope.

Class OrderedLaws (A : Type) `{Ordered A} : Prop := {
  op_lt_irrefl : forall a, (a <. a) = false;
  op_lt_trans : forall a b c, (a <. b) = true -> (b <. c) = true -> (a <. c) = true;
  op_lt_neg_trans : forall a b c, (a <. c) = true -> (a <. b) = true \/ (b <. c) = true;
  op_eq_incomparable : forall a b, (a ==. b) = negb ((a <. b) || (b <. a))
  }.

Class VerifyLaws (A : Type) `{Ordered A} `{VerifyOrdered A} : Prop := {
  op_ge_not_lt : forall a b, op_ge a b = negb (a <. b);
  op_le_not_gt : forall a b, op_le a b = negb (b <. a)
  }.

(** ** An element ordered by an integer key

    [MazePoint] (ordered by [x]) and [MazeRow] (ordered by [y]) of
    assign2.cpp compare a single [int] field with [<] and [==]. *)
Section Keyed.
Context {A : Type} (key : A -> Z).

Definition keyed_ordered : Ordered A :=
  {| op_lt a b := Z.ltb (key a) (key b); op_eq a b := Z.eqb (key a) (key b) |}.

Definition keyed_verify : VerifyOrdered A :=
  {| op_ge a b := Z.geb (key a) (key b); op_le a b := Z.leb (key a) (key b) |}.
End Keyed.

#[export] Instance Z_ordered : Ordered Z := keyed_ordered id.
#[export] Instance Z_verify : VerifyOrdered Z := keyed_verify id.

(** ** Laws *)

Section KeyedLaws.
Context {A : Type} (key : A -> Z).

Lemma keyed_laws : @OrderedLaws A (keyed_ordered key).
Proof.
  constructor; simpl; intros.
  - apply Z.ltb_irrefl.
  - zbool. lia.
  - zbool. destruct (Z.ltb_spec (key a) (key b)); [left; reflexivity|].
    right. apply Z.ltb_lt. lia.
  - destruct (Z.eqb_spec (key a) (key b)), (Z.ltb_spec (key a) (key b)),
      (Z.ltb_spec (key b) (key a)); simpl; reflexivity || lia.
Qed.

Lemma keyed_verify_laws : @VerifyLaws A (keyed_ordered key) (keyed_verify key).
Proof.
  constructor; simpl; intros.
  - rewrite Z.geb_leb. destruct (Z.leb_spec (key b) (key a)), (Z.ltb_spec (key a) (key b));
      reflexivity || lia.
  - destruct (Z.leb_spec (key a) (key b)), (Z.ltb_spec (key b) (key a)); reflexivity || lia.
Qed.
End KeyedLaws.

#[export] Instance Z_laws : OrderedLaws Z := keyed_laws id.
#[export] Instance Z_verify_laws : VerifyLaws Z := keyed_verify_laws id.

(** ** Consequences of the laws *)

Section Consequences.
Context {A : Type} `{OrderedLaws A}.

Lemma op_lt_asym a b : (a <. b) = true -> (b <. a) = false.
Proof.
  intros H1. destruct (b <. a) eqn:H2; auto.
  pose proof (op_lt_trans _ _ _ H1 H2). rewrite op_lt_irrefl in *. discriminate.
Qed.

Lemma op_eq_true a b : (a ==. b) = true <-> (a <. b) = false /\ (b <. a) = false.
Proof. rewrite op_eq_incomparable. destruct (a <. b), (b <. a); simpl; intuition congruence. Qed.

Lemma op_eq_refl a : (a ==. a) = true.
Proof. apply op_eq_true. rewrite op_lt_irrefl. auto. Qed.

Lemma op_eq_sym a b : (a ==. b) = (b ==. a).
Proof. rewrite !op_eq_incomparable, orb_comm. reflexivity. Qed.

Lemma op_eq_false_lt a b : (a ==. b) = false -> (a <. b) = false -> (b <. a) = true.
Proof. rewrite op_eq_incomparable. destruct (a <. b), (b <. a); simpl; congruence. Qed.

Lemma op_lt_eq_l a b c : (a ==. b) = true -> (b <. c) = true -> (a <. c) = true.
Proof.
  intros [H1 H2]%op_eq_true H3.
  destruct (op_lt_neg_trans b a c H3) as [E|E]; congruence.
Qed.

Lemma op_lt_eq_r a b c : (a <. b) = true -> (b ==. c) = true -> (a <. c) = true.
Proof.
  intros H1 [H2 H3]%op_eq_true.
  destruct (op_lt_neg_trans a c b H1) as [E|E]; congruence.
Qed.

Lemma op_lt_not_eq a b : (a <. b) = true -> (a ==. b) = false.
Proof. intros H1. rewrite op_eq_incomparable, H1. reflexivity. Qed.
End Consequences.

#[export] Hint Resolve op_lt_asym op_eq_refl op_lt_not_eq op_lt_trans : mazesolver.
