(* ===== verification/SortedSpec.v ===== *)
(** * SortedSpec: the abstract specification of the container

    What [bintree] promises its callers (spec sections 4 and 6), stated
    on the sequence of its elements in ascending order: a list that is
    strictly sorted by [operator<].  Insertion of an element equal to
    one present is refused, erasure of an absent one is refused, lookup
    returns the stored element equal to the key.  The refinement
    theorems of [NodeOrder] and [BinTree] show that the in-order
    traversal of the tree follows these functions step by step. *)

From Stdlib Require Import List Bool Sorted.
From S2P Require Import Prelude Element.
Import ListNotations.

Section SortedSpec.
Context {A : Type} `{Ordered A}.
Implicit Types (x y d : A) (l : list A).

(** Strictly ascending by [operator<]. *)
Definition sorted (l : list A) : Prop := StronglySorted (fun a b => (a <. b) = true) l.

(** Some element of [l] is equal to [x]. *)
Definition mem_list x l : bool := existsb (fun y => x ==. y) l.

(** The element of [l] equal to [x]. *)
Fixpoint lookup_list x l : option A :=
  match l with
  | [] => None
  | y :: l' => if x ==. y then Some y else lookup_list x l'
  end.

(** [x] placed before the first element it is below. *)
Fixpoint ins_list x l : list A :=
  match l with
  | [] => [x]
  | y :: l' => if x <. y then x :: l else y :: ins_list x l'
  end.

(** The first element equal to [x] removed. *)
Fixpoint del_list x l : list A :=
  match l with
  | [] => []
  | y :: l' => if x ==. y then l' else y :: del_list x l'
  end.

(** The container's [insert]: refused when an equal element is
    present. *)
Definition set_insert x l : option (list A) :=
  if mem_list x l then None else Some (ins_list x l).

(** The container's [erase]: refused when no equal element is
    present. *)
Definition set_erase x l : option (list A) :=
  if mem_list x l then Some (del_list x l) else None.
End SortedSpec.

Section SortedSpecLemmas.
Context {A : Type} `{OrderedLaws A}.
Implicit Types (x y d : A) (l : list A).

Lemma mem_list_app x l1 l2 : mem_list x (l1 ++ l2) = mem_list x l1 || mem_list x l2.
Proof. apply existsb_app. Qed.

Lemma mem_list_cons x y l : mem_list x (y :: l) = (x ==. y) || mem_list x l.
Proof. reflexivity. Qed.

Lemma mem_list_false x l : mem_list x l = false <-> forall y, In y l -> (x ==. y) = false.
Proof.
  unfold mem_list. rewrite <- not_true_iff_false, existsb_exists. split.
  - intros Hn y Hy. apply not_true_iff_false. intros E. apply Hn; eauto.
  - intros Hall (y & Hy & E). rewrite Hall in E; auto. discriminate.
Qed.

Lemma lookup_list_app x l1 l2 :
  lookup_list x (l1 ++ l2) =
  match lookup_list x l1 with Some y => Some y | None => lookup_list x l2 end.
Proof. induction l1 as [|y l1 IH]; simpl; [reflexivity|]. destruct (x ==. y); auto. Qed.

Lemma lookup_list_none_mem x l : lookup_list x l = None -> mem_list x l = false.
Proof.
  induction l as [|y l IH]; cbn [lookup_list]; [reflexivity|].
  rewrite mem_list_cons. destruct (x ==. y); [discriminate|exact IH].
Qed.

Lemma lookup_list_some x l y : lookup_list x l = Some y -> (x ==. y) = true /\ In y l.
Proof.
  induction l as [|z l IH]; cbn [lookup_list]; [discriminate|].
  destruct (x ==. z) eqn:E; [intros [= <-]; simpl; auto|].
  intros (Hx & Hin)%IH. simpl; auto.
Qed.

Lemma lookup_list_none x l : mem_list x l = false -> lookup_list x l = None.
Proof.
  induction l as [|y l IH]; intros Hm; simpl; [reflexivity|].
  rewrite mem_list_cons, orb_false_iff in Hm. destruct Hm as [-> Hl]. auto.
Qed.

Lemma del_list_not_mem x l : mem_list x l = false -> del_list x l = l.
Proof.
  induction l as [|y l IH]; intros Hm; simpl; [reflexivity|].
  rewrite mem_list_cons, orb_false_iff in Hm. destruct Hm as [-> Hl]. f_equal; auto.
Qed.

Lemma del_list_app_r x l1 l2 :
  mem_list x l1 = false -> del_list x (l1 ++ l2) = l1 ++ del_list x l2.
Proof.
  induction l1 as [|y l1 IH]; intros Hm; simpl; [reflexivity|].
  rewrite mem_list_cons, orb_false_iff in Hm. destruct Hm as [-> Hl]. f_equal; auto.
Qed.

Lemma ins_list_app_l x l1 d l2 :
  (x <. d) = true -> ins_list x (l1 ++ d :: l2) = ins_list x l1 ++ d :: l2.
Proof.
  intros Hxd. induction l1 as [|y l1 IH]; simpl; [rewrite Hxd; reflexivity|].
  destruct (x <. y); [reflexivity|]. rewrite IH. reflexivity.
Qed.

Lemma ins_list_app_r x l1 l2 :
  (forall y, In y l1 -> (x <. y) = false) -> ins_list x (l1 ++ l2) = l1 ++ ins_list x l2.
Proof.
  induction l1 as [|y l1 IH]; intros Hall; simpl; [reflexivity|].
  rewrite Hall by (left; reflexivity). f_equal. apply IH. intros z Hz. apply Hall. right; exact Hz.
Qed.

(** The facts a search tree node gives about its two sides. *)
Lemma sorted_node l1 d l2 :
  sorted (l1 ++ d :: l2) <->
  sorted l1 /\ sorted l2 /\ (forall a, In a l1 -> (a <. d) = true) /\
  (forall b, In b l2 -> (d <. b) = true).
Proof.
  unfold sorted. rewrite StronglySorted_cons_app. split.
  - intros (? & ? & ? & ? & _). auto.
  - intros (S1 & S2 & H1 & H2). repeat split; eauto using op_lt_trans.
Qed.

(** Searching left of [d]: nothing right of [d] equals the key. *)
Lemma sorted_left_search x l1 d l2 :
  sorted (l1 ++ d :: l2) -> (x <. d) = true ->
  mem_list x (d :: l2) = false /\ (forall y, In y (d :: l2) -> (x <. y) = true).
Proof.
  intros (_ & _ & _ & Hr)%sorted_node Hxd.
  assert (Hlt : forall y, In y (d :: l2) -> (x <. y) = true)
    by (intros y [<-|Hy]; eauto using op_lt_trans).
  split; [|exact Hlt]. apply mem_list_false. intros y Hy. apply op_lt_not_eq. auto.
Qed.

(** Searching right of [d]: nothing left of [d] equals the key. *)
Lemma sorted_right_search x l1 d l2 :
  sorted (l1 ++ d :: l2) -> (x ==. d) = false -> (x <. d) = false ->
  mem_list x (l1 ++ [d]) = false /\ (forall y, In y (l1 ++ [d]) -> (x <. y) = false).
Proof.
  intros (_ & _ & Hl & _)%sorted_node Hxd Hlt.
  pose proof (op_eq_false_lt _ _ Hxd Hlt) as Hdx.
  assert (Hgt : forall y, In y (l1 ++ [d]) -> (y <. x) = true)
    by (intros y [Hy|[<-|[]]]%in_app_or; eauto using op_lt_trans).
  split.
  - apply mem_list_false. intros y Hy. rewrite op_eq_sym. apply op_lt_not_eq. auto.
  - intros y Hy. apply op_lt_asym. auto.
Qed.

Lemma sorted_ins_list x l :
  sorted l -> mem_list x l = false -> sorted (ins_list x l).
Proof.
  unfold sorted. induction l as [|y l IH]; intros Hs Hm; simpl.
  - repeat constructor.
  - apply StronglySorted_inv in Hs as [Hs Hf].
    rewrite mem_list_cons, orb_false_iff in Hm. destruct Hm as [Hxy Hm].
    destruct (x <. y) eqn:Hlt.
    + constructor; [constructor; auto|].
      constructor; [exact Hlt|]. rewrite Forall_forall in *. eauto using op_lt_trans.
    + constructor; auto.
      pose proof (op_eq_false_lt _ _ Hxy Hlt) as Hyx.
      assert (Hin : forall z, In z (ins_list x l) -> z = x \/ In z l).
      { clear -l. induction l as [|w l IHl]; simpl; [intuition|].
        destruct (x <. w); simpl; intros z [<-|Hz]; auto; destruct (IHl z Hz); auto. }
      rewrite Forall_forall in *. intros z [->|Hz]%Hin; auto.
Qed.

Lemma sorted_del_list x l : sorted l -> sorted (del_list x l).
Proof.
  unfold sorted. induction l as [|y l IH]; intros Hs; simpl; [constructor|].
  apply StronglySorted_inv in Hs as [Hs Hf].
  destruct (x ==. y); [exact Hs|]. constructor; auto.
  assert (Hin : forall z, In z (del_list x l) -> In z l).
  { clear -l. induction l as [|w l IHl]; simpl; [intuition|].
    destruct (x ==. w); simpl; intuition. }
  rewrite Forall_forall in *. auto.
Qed.

Lemma del_list_app_l x l1 l2 :
  mem_list x l1 = true -> del_list x (l1 ++ l2) = del_list x l1 ++ l2.
Proof.
  induction l1 as [|y l1 IH]; intros Hm; [discriminate|].
  rewrite mem_list_cons in Hm. simpl. destruct (x ==. y); [reflexivity|].
  simpl in Hm. rewrite IH; auto.
Qed.

(** The abstract operations on the two sides of a search tree node. *)
Lemma set_insert_app_l x l1 d l2 :
  sorted (l1 ++ d :: l2) -> (x <. d) = true ->
  set_insert x (l1 ++ d :: l2) = option_map (fun l1' => l1' ++ d :: l2) (set_insert x l1).
Proof.
  intros Hs Hxd. destruct (sorted_left_search x l1 d l2 Hs Hxd) as [Hm _].
  unfold set_insert. rewrite mem_list_app, Hm, orb_false_r.
  destruct (mem_list x l1); [reflexivity|]. rewrite ins_list_app_l; auto.
Qed.

Lemma set_insert_app_r x l1 d l2 :
  sorted (l1 ++ d :: l2) -> (x ==. d) = false -> (x <. d) = false ->
  set_insert x (l1 ++ d :: l2) = option_map (fun l2' => l1 ++ d :: l2') (set_insert x l2).
Proof.
  intros Hs Hxd Hlt. destruct (sorted_right_search x l1 d l2 Hs Hxd Hlt) as [Hm Hall].
  replace (l1 ++ d :: l2) with ((l1 ++ [d]) ++ l2) by (rewrite <- app_assoc; reflexivity).
  unfold set_insert. rewrite mem_list_app, Hm.
  destruct (mem_list x l2); [reflexivity|]. simpl. rewrite ins_list_app_r, <- app_assoc; auto.
Qed.

Lemma set_erase_app_l x l1 d l2 :
  sorted (l1 ++ d :: l2) -> (x <. d) = true ->
  set_erase x (l1 ++ d :: l2) = option_map (fun l1' => l1' ++ d :: l2) (set_erase x l1).
Proof.
  intros Hs Hxd. destruct (sorted_left_search x l1 d l2 Hs Hxd) as [Hm _].
  unfold set_erase. rewrite mem_list_app, Hm, orb_false_r.
  destruct (mem_list x l1) eqn:E; [|reflexivity]. rewrite del_list_app_l; auto.
Qed.

Lemma set_erase_app_r x l1 d l2 :
  sorted (l1 ++ d :: l2) -> (x ==. d) = false -> (x <. d) = false ->
  set_erase x (l1 ++ d :: l2) = option_map (fun l2' => l1 ++ d :: l2') (set_erase x l2).
Proof.
  intros Hs Hxd Hlt. destruct (sorted_right_search x l1 d l2 Hs Hxd Hlt) as [Hm _].
  replace (l1 ++ d :: l2) with ((l1 ++ [d]) ++ l2) by (rewrite <- app_assoc; reflexivity).
  unfold set_erase. rewrite mem_list_app, Hm.
  destruct (mem_list x l2); [|reflexivity]. simpl. rewrite del_list_app_r, <- app_assoc; auto.
Qed.

Lemma set_erase_here x l1 d l2 :
  sorted (l1 ++ d :: l2) -> (x ==. d) = true -> set_erase x (l1 ++ d :: l2) = Some (l1 ++ l2).
Proof.
  intros Hs Hxd. apply sorted_node in Hs as (_ & _ & Hl & _).
  assert (Hm : mem_list x l1 = false).
  { apply mem_list_false. intros y Hy. rewrite op_eq_sym.
    apply op_lt_not_eq. rewrite op_eq_sym in Hxd. eauto using op_lt_eq_r. }
  unfold set_erase. rewrite mem_list_app, Hm, mem_list_cons, Hxd. simpl.
  rewrite del_list_app_r by exact Hm. simpl. rewrite Hxd. reflexivity.
Qed.

Lemma lookup_list_node x l1 d l2 :
  sorted (l1 ++ d :: l2) ->
  lookup_list x (l1 ++ d :: l2) =
  if x ==. d then Some d else if x <. d then lookup_list x l1 else lookup_list x l2.
Proof.
  intros Hs. rewrite lookup_list_app.
  destruct (x ==. d) eqn:Hxd.
  - assert (Hm : mem_list x l1 = false).
    { apply sorted_node in Hs as (_ & _ & Hl & _). apply mem_list_false. intros y Hy.
      rewrite op_eq_sym. apply op_lt_not_eq. rewrite op_eq_sym in Hxd. eauto using op_lt_eq_r. }
    rewrite lookup_list_none by exact Hm. simpl. rewrite Hxd. reflexivity.
  - destruct (x <. d) eqn:Hlt.
    + destruct (sorted_left_search x l1 d l2 Hs Hlt) as [Hm _].
      rewrite (lookup_list_none x (d :: l2) Hm). destruct (lookup_list x l1); reflexivity.
    + destruct (sorted_right_search x l1 d l2 Hs Hxd Hlt) as [Hm _].
      rewrite mem_list_app in Hm. apply orb_false_iff in Hm as [Hm _].
      rewrite lookup_list_none by exact Hm. simpl. rewrite Hxd. reflexivity.
Qed.

(** Overwriting an element by one with the same key keeps the order. *)
Lemma sorted_replace_eq l1 y l2 v :
  sorted (l1 ++ y :: l2) -> (v ==. y) = true -> sorted (l1 ++ v :: l2).
Proof.
  intros (S1 & S2 & Hl & Hr)%sorted_node Hvy. apply sorted_node.
  pose proof Hvy as Hyv. rewrite op_eq_sym in Hyv.
  repeat split; auto; intros a Ha.
  - apply (op_lt_eq_r a y v); auto.
  - apply (op_lt_eq_l v y a); auto.
Qed.

Lemma length_ins_list x l : length (ins_list x l) = S (length l).
Proof. induction l as [|y l IH]; simpl; [reflexivity|]. destruct (x <. y); simpl; auto. Qed.

Lemma length_del_list x l : mem_list x l = true -> S (length (del_list x l)) = length l.
Proof.
  induction l as [|y l IH]; [discriminate|]. rewrite mem_list_cons. simpl.
  destruct (x ==. y); simpl; auto.
Qed.

(** Round trips of the abstract operations. *)
Lemma lookup_ins_list x l : mem_list x l = false -> lookup_list x (ins_list x l) = Some x.
Proof.
  induction l as [|y l IH]; intros Hm; simpl; [rewrite op_eq_refl; reflexivity|].
  rewrite mem_list_cons, orb_false_iff in Hm. destruct Hm as [Hxy Hm].
  destruct (x <. y); simpl; rewrite ?op_eq_refl, ?Hxy; auto.
Qed.

Lemma lookup_del_list x l : sorted l -> lookup_list x (del_list x l) = None.
Proof.
  unfold sorted. induction l as [|y l IH]; intros Hs; simpl; [reflexivity|].
  apply StronglySorted_inv in Hs as [Hs Hf]. rewrite Forall_forall in Hf.
  destruct (x ==. y) eqn:Hxy.
  - apply lookup_list_none, mem_list_false. intros z Hz.
    apply op_lt_not_eq. rewrite op_eq_sym in Hxy. apply (op_lt_eq_l x y z); auto.
    rewrite op_eq_sym. exact Hxy.
  - simpl. rewrite Hxy. auto.
Qed.
End SortedSpecLemmas.
