(* ===== verification/BinNode.v ===== *)
(** * BinNode: the model of src/binnode.h

    [tree] is a [binNode<dataType>*] slot: [Nil] is [NULL], [Node l d r h]
    a node with fields [left], [nodeData], [right], [height].  A method
    [void f(binNode* &root, ...)] called on the node [this] stored in
    [root] is a function from that node to the new content of [root];
    a method that may throw returns [outcome tree], the slot content at
    the point the exception escapes.  Nothing is recomputed that the
    code reads from a cache: slopes use the stored [height] fields. *)

From Stdlib Require Import ZArith List String Bool Lia.
From S2P Require Import Prelude Element.
Import ListNotations.
Open Scope Z_scope.
Open Scope mazesolver_scope.

Module BinNode.
Section BinNode.
Context {A : Type} `{Ordered A}.

(** [binNode *left, *right; dataType nodeData; int height;] *)
Inductive tree : Type :=
| Nil
| Node (left : tree) (nodeData : A) (right : tree) (height : Z).

(** [binNode(const dataType& dataItem)]: no children, height 1. *)
Definition newNode (dataItem : A) : tree := Node Nil dataItem Nil 1.

(** [getHeight()]; its value on [NULL] is the [0] of the [NULL] tests
    in [leftTreeHeight], [rightTreeHeight] and [bintree::treeHeight]. *)
Definition getHeight (t : tree) : Z :=
  match t with Nil => 0 | Node _ _ _ h => h end.

Definition leftTreeHeight (t : tree) : Z :=
  match t with Nil => 0 | Node l _ _ _ => getHeight l end.

Definition rightTreeHeight (t : tree) : Z :=
  match t with Nil => 0 | Node _ _ r _ => getHeight r end.

Definition maxSubtreeHeight (t : tree) : Z :=
  if leftTreeHeight t >=? rightTreeHeight t then leftTreeHeight t
  else rightTreeHeight t.

(** [updateHeight()]: [height = 1 + maxSubtreeHeight()]. *)
Definition updateHeight (t : tree) : tree :=
  match t with
  | Nil => Nil
  | Node l d r _ => Node l d r (1 + maxSubtreeHeight t)
  end.

Definition treeSlope (t : tree) : Z := leftTreeHeight t - rightTreeHeight t.
Definition tiltedLeft (t : tree) : bool := treeSlope t >? 0.
Definition slopedLeft (t : tree) : bool := treeSlope t >? 1.
Definition tiltedRight (t : tree) : bool := treeSlope t <? 0.
Definition slopedRight (t : tree) : bool := treeSlope t <? -1.

(** [rotateClockwise(root)]: [root = left; left = left->right;
    root->right = this;] then [this->updateHeight();
    root->updateHeight();].  [assert(left != NULL)] aborts otherwise;
    the model returns the slot unchanged in that shape. *)
Definition rotateClockwise (t : tree) : tree :=
  match t with
  | Node (Node ll ld lr lh) d r h =>
      updateHeight (Node ll ld (updateHeight (Node lr d r h)) lh)
  | _ => t
  end.

(** [rotateAntiClockwise(root)]: the mirror image. *)
Definition rotateAntiClockwise (t : tree) : tree :=
  match t with
  | Node l d (Node rl rd rr rh) h =>
      updateHeight (Node (updateHeight (Node l d rl h)) rd rr rh)
  | _ => t
  end.

(** [rebalanceClockwise(root)]: [if (left->tiltedRight() > 0)
    left->rotateAntiClockwise(left); rotateClockwise(root);].  The
    [bool] result of [tiltedRight] is promoted to [int] before the
    comparison with [0]. *)
Definition rebalanceClockwise (t : tree) : tree :=
  match t with
  | Nil => Nil
  | Node l d r h =>
      let l' := if Z.b2z (tiltedRight l) >? 0 then rotateAntiClockwise l else l in
      rotateClockwise (Node l' d r h)
  end.

(** [rebalanceAntiClockwise(root)]: [if (right->tiltedLeft() < 0)
    right->rotateClockwise(right); rotateAntiClockwise(root);].  The
    promoted [bool] is [0] or [1], never below [0]. *)
Definition rebalanceAntiClockwise (t : tree) : tree :=
  match t with
  | Nil => Nil
  | Node l d r h =>
      let r' := if Z.b2z (tiltedLeft r) <? 0 then rotateClockwise r else r in
      rotateAntiClockwise (Node l d r' h)
  end.

(** [rebalance(root)]. *)
Definition rebalance (t : tree) : tree :=
  if slopedLeft t then rebalanceClockwise t
  else if slopedRight t then rebalanceAntiClockwise t
  else updateHeight t.

(** The unwinding step shared by [insert], [erase]: the recursive call
    on a child has left [c] in the child slot; [put c] is this node
    with that slot.  On a normal return the node rebalances
    ([rebalance(root)]); an exception skips the rest of the body. *)
Definition rebalanceAfter (put : tree -> tree) (o : outcome tree) : outcome tree :=
  match o with
  | Normal c => Normal (rebalance (put c))
  | Raise e c => Raise e (put c)
  end.

Definition alreadyInTree : exn := invalid_argument "dataItem already in tree".
Definition notInTree : exn := invalid_argument "delItem not in tree".

(** [insert(root, dataItem)].  The [Nil] case is the
    [left == NULL] / [right == NULL] branch: a new node in the slot. *)
Fixpoint insert (t : tree) (dataItem : A) : outcome tree :=
  match t with
  | Nil => Normal (newNode dataItem)
  | Node l d r h =>
      if d ==. dataItem then Raise alreadyInTree t
      else if dataItem <. d then
        rebalanceAfter (fun l' => Node l' d r h)
          (match l with Nil => Normal (newNode dataItem) | _ => insert l dataItem end)
      else
        rebalanceAfter (fun r' => Node l d r' h)
          (match r with Nil => Normal (newNode dataItem) | _ => insert r dataItem end)
  end.

(** [addTreeToLeft(root, tree)]: hang [tree] on the left-most empty
    left slot below this node, rebalancing every node of the descent. *)
Fixpoint addTreeToLeft (t : tree) (tr : tree) : tree :=
  match t with
  | Nil => tr
  | Node l d r h =>
      rebalance (Node (match l with Nil => tr | _ => addTreeToLeft l tr end) d r h)
  end.

(** [deleteNode(root)]: the slot receives what replaces this node. *)
Definition deleteNode (t : tree) : tree :=
  match t with
  | Nil => Nil
  | Node l _ r _ =>
      match l, r with
      | Nil, Nil => Nil
      | Nil, _ => r
      | _, Nil => l
      | _, _ => addTreeToLeft r l
      end
  end.

(** [erase(root, delData)].  The [Nil] case is the
    [throw std::invalid_argument("delItem not in tree")] taken when the
    search reaches an empty slot.  The matched node is removed without
    a [rebalance] at its own slot. *)
Fixpoint erase (t : tree) (delData : A) : outcome tree :=
  match t with
  | Nil => Raise notInTree Nil
  | Node l d r h =>
      if delData ==. d then Normal (deleteNode t)
      else if delData <. d then
        match l with
        | Nil => Raise notInTree t
        | _ => rebalanceAfter (fun l' => Node l' d r h) (erase l delData)
        end
      else
        match r with
        | Nil => Raise notInTree t
        | _ => rebalanceAfter (fun r' => Node l d r' h) (erase r delData)
        end
  end.

(** [findConst(findData)]: the element found, or [NULL]. *)
Fixpoint findConst (t : tree) (findData : A) : option A :=
  match t with
  | Nil => None
  | Node l d r _ =>
      if findData ==. d then Some d
      else if findData <. d then
        match l with Nil => None | _ => findConst l findData end
      else
        match r with Nil => None | _ => findConst r findData end
  end.

(** [find(findData)]: a [dataType*] into the tree.  The pointer is the
    stored element together with the write through it: [set v] is the
    slot after [*p = v]. *)
Fixpoint find (t : tree) (findData : A) : option (A * (A -> tree)) :=
  match t with
  | Nil => None
  | Node l d r h =>
      if findData ==. d then Some (d, fun v => Node l v r h)
      else if findData <. d then
        match l with
        | Nil => None
        | _ => option_map (fun '(x, set) => (x, fun v => Node (set v) d r h)) (find l findData)
        end
      else
        match r with
        | Nil => None
        | _ => option_map (fun '(x, set) => (x, fun v => Node l d (set v) h)) (find r findData)
        end
  end.

(** [numLeafNodes()]: a node whose cached height is 1 counts as a leaf
    without looking at its children. *)
Fixpoint numLeafNodes (t : tree) : Z :=
  match t with
  | Nil => 0
  | Node l _ r h =>
      if h =? 1 then 1
      else (match l with Nil => 0 | _ => numLeafNodes l end) +
           (match r with Nil => 0 | _ => numLeafNodes r end)
  end.

(** [maxTreeDepth()]. *)
Fixpoint maxTreeDepth (t : tree) : Z :=
  match t with
  | Nil => 0
  | Node l _ r _ =>
      let ldepth := match l with Nil => 0 | _ => maxTreeDepth l end in
      let rdepth := match r with Nil => 0 | _ => maxTreeDepth r end in
      if ldepth >? rdepth then 1 + ldepth else 1 + rdepth
  end.

(** [numNodes()]. *)
Fixpoint numNodes (t : tree) : Z :=
  match t with
  | Nil => 0
  | Node l _ r _ =>
      1 + (match l with Nil => 0 | _ => numNodes l end)
        + (match r with Nil => 0 | _ => numNodes r end)
  end.

(** [verifyTree(char *error)]: [Valid] is [return true]; [Invalid msg]
    is [strcpy(error, msg); return false]. *)
Inductive verdict : Type :=
| Valid
| Invalid (error : string).

Context `{VerifyOrdered A}.

Fixpoint verifyTree (t : tree) : verdict :=
  match t with
  | Nil => Valid
  | Node l d r h =>
      let max := leftTreeHeight t in
      let max := if rightTreeHeight t >? max then rightTreeHeight t else max in
      if negb (h =? max + 1) then Invalid "Invalid height in tree"
      else
        match
          match l with
          | Nil => Valid
          | Node _ ld _ _ =>
              if op_ge ld d then Invalid "Left node out of order" else verifyTree l
          end
        with
        | Invalid e => Invalid e
        | Valid =>
            match r with
            | Nil => Valid
            | Node _ rd _ _ =>
                if op_le rd d then Invalid "Right node out of order" else verifyTree r
            end
        end
  end.

(** [binNode(const binNode& other)]: a deep copy, height included. *)
Fixpoint copy (t : tree) : tree :=
  match t with
  | Nil => Nil
  | Node l d r h =>
      Node (match l with Nil => Nil | _ => copy l end) d
           (match r with Nil => Nil | _ => copy r end) h
  end.

(** [binNode::operator=(other)]: deletes this node's subtrees, deep
    copies [other]'s, copies [nodeData]; the [height] field is not
    assigned and keeps this node's value. *)
Definition assign (this other : tree) : tree :=
  match this, other with
  | Node _ _ _ h, Node ol od orr _ =>
      Node (match ol with Nil => Nil | _ => copy ol end) od
           (match orr with Nil => Nil | _ => copy orr end) h
  | _, _ => this
  end.

(** The in-order sequence of elements, the order in which [print()]
    writes them. *)
Fixpoint inorder (t : tree) : list A :=
  match t with
  | Nil => []
  | Node l d r _ => inorder l ++ d :: inorder r
  end.

(** [print()]: the lines written to [cout] by an in-order walk, one
    [nodeData.toString()] followed by a newline per node; [toString] is
    the member function the template assumes of [dataType]. *)
Fixpoint print (toString : A -> string) (t : tree) : list string :=
  match t with
  | Nil => []
  | Node l d r _ => print toString l ++ (toString d ++ newline)%string :: print toString r
  end.
End BinNode.

Arguments tree A : clear implicits.
Arguments Nil {A}.

(** ** Unfolding equations

  The source tests every child pointer against [NULL] before it
  recurses; the model's [Nil] cases return what those tests return,
  so each recursive operation satisfies a plain recursive equation. *)
Section Equations.
Context {A : Type} `{Ordered A}.
Implicit Types (l r t tr : tree A) (d x : A) (h : Z).

Ltac node_eqn := intros; simpl; destruct_slots; reflexivity
with destruct_slots := repeat match goal with
  | |- context [match ?s with Nil => _ | Node _ _ _ _ => _ end] => is_var s; destruct s
  end.

Lemma insert_Node l d r h x :
  insert (Node l d r h) x =
  if d ==. x then Raise alreadyInTree (Node l d r h)
  else if x <. d then rebalanceAfter (fun l' => Node l' d r h) (insert l x)
  else rebalanceAfter (fun r' => Node l d r' h) (insert r x).
Proof. node_eqn. Qed.

Lemma addTreeToLeft_Node l d r h tr :
  addTreeToLeft (Node l d r h) tr = rebalance (Node (addTreeToLeft l tr) d r h).
Proof. node_eqn. Qed.

Lemma deleteNode_Node l d r h :
  deleteNode (Node l d r h) = match l with Nil => r | _ => addTreeToLeft r l end.
Proof. node_eqn. Qed.

Lemma erase_Node l d r h x :
  erase (Node l d r h) x =
  if x ==. d then Normal (deleteNode (Node l d r h))
  else if x <. d then rebalanceAfter (fun l' => Node l' d r h) (erase l x)
  else rebalanceAfter (fun r' => Node l d r' h) (erase r x).
Proof. node_eqn. Qed.

Lemma findConst_Node l d r h x :
  findConst (Node l d r h) x =
  if x ==. d then Some d else if x <. d then findConst l x else findConst r x.
Proof. node_eqn. Qed.

Lemma find_Node l d r h x :
  find (Node l d r h) x =
  if x ==. d then Some (d, fun v => Node l v r h)
  else if x <. d then option_map (fun '(y, set) => (y, fun v => Node (set v) d r h)) (find l x)
  else option_map (fun '(y, set) => (y, fun v => Node l d (set v) h)) (find r x).
Proof. node_eqn. Qed.

Lemma numNodes_Node l d r h : numNodes (Node l d r h) = 1 + numNodes l + numNodes r.
Proof. node_eqn. Qed.

Lemma maxTreeDepth_Node l d r h :
  maxTreeDepth (Node l d r h) = 1 + Z.max (maxTreeDepth l) (maxTreeDepth r).
Proof. destruct l, r; apply if_gtb_max. Qed.

Lemma numLeafNodes_Node l d r h :
  numLeafNodes (Node l d r h) =
  if h =? 1 then 1 else numLeafNodes l + numLeafNodes r.
Proof. node_eqn. Qed.

Lemma copy_Node l d r h : copy (Node l d r h) = Node (copy l) d (copy r) h.
Proof. node_eqn. Qed.
End Equations.

#[export] Hint Rewrite @insert_Node @addTreeToLeft_Node @deleteNode_Node @erase_Node
  @findConst_Node @find_Node @numNodes_Node @maxTreeDepth_Node @numLeafNodes_Node
  @copy_Node : mazesolver_rw.

End BinNode.
