(* ===== verification/NodeErrors.v ===== *)
(** * NodeErrors: the exception paths of [binNode::insert] and [binNode::erase]

    C++ does not roll back on [throw]: whatever a method mutated before
    the exception escapes stays mutated.  The model records the slot
    content at that point ([Raise e s]).  The theorems here show that in
    [insert] and [erase] every [throw] happens before any mutation on
    its path, so a raised exception leaves the slot exactly as it was:
    spec section 7, "all-or-nothing", holds for these two operations
    whatever the order on elements is. *)

From Stdlib Require Import ZArith List Bool.
From S2P Require Import Prelude Element BinNode.
Import BinNode.

Section Errors.
Context {A : Type} `{Ordered A}.
Implicit Types (l r t : tree A) (d x : A) (h : Z).

Lemma rebalanceAfter_Raise (put : tree A -> tree A) o e s :
  rebalanceAfter put o = Raise e s <-> exists c, o = Raise e c /\ s = put c.
Proof.
  destruct o as [c|e' c]; simpl; split.
  - discriminate.
  - intros (? & ? & _); discriminate.
  - intros E; injection E as <- <-; eauto.
  - intros (c' & E & ->); injection E as <- <-; reflexivity.
Qed.

Lemma rebalanceAfter_Normal (put : tree A -> tree A) o s :
  rebalanceAfter put o = Normal s <-> exists c, o = Normal c /\ s = rebalance (put c).
Proof.
  destruct o as [c|e c]; simpl; split.
  - intros E; injection E as <-; eauto.
  - intros (c' & E & ->); injection E as <-; reflexivity.
  - discriminate.
  - intros (? & ? & _); discriminate.
Qed.

(** [binNode::insert] that throws raises
    ["dataItem already in tree"] and leaves the slot it was called on
    exactly as it was. *)
Lemma insert_raise_inv t x e s :
  insert t x = Raise e s -> e = alreadyInTree /\ s = t.
Proof.
  revert e s; induction t as [|l IHl d r IHr h]; intros e s; [discriminate|].
  rewrite insert_Node.
  destruct (d ==. x); [intros E; injection E as <- <-; auto|].
  destruct (x <. d); intros (c & E & ->)%rebalanceAfter_Raise;
    [destruct (IHl _ _ E) as [-> ->] | destruct (IHr _ _ E) as [-> ->]]; auto.
Qed.

(** C25: [binNode::insert] that throws raises
    ["dataItem already in tree"] and leaves the slot it was called on
    exactly as it was. *)
Theorem insert_raise_unchanged t x e s :
  insert t x = Raise e s -> e = alreadyInTree /\ s = t.
Proof. apply insert_raise_inv. Qed.

(** [binNode::erase] that throws raises ["delItem not in tree"]
    and leaves the slot it was called on exactly as it was. *)
Lemma erase_raise_inv t x e s :
  erase t x = Raise e s -> e = notInTree /\ s = t.
Proof.
  revert e s; induction t as [|l IHl d r IHr h]; intros e s.
  - intros E; injection E as <- <-; auto.
  - rewrite erase_Node.
    destruct (x ==. d); [discriminate|].
    destruct (x <. d); intros (c & E & ->)%rebalanceAfter_Raise;
      [destruct (IHl _ _ E) as [-> ->] | destruct (IHr _ _ E) as [-> ->]]; auto.
Qed.

(** C37: [binNode::erase] that throws raises ["delItem not in tree"]
    and leaves the slot it was called on exactly as it was. *)
Theorem erase_raise_unchanged t x e s :
  erase t x = Raise e s -> e = notInTree /\ s = t.
Proof. apply erase_raise_inv. Qed.
End Errors.

(** ** Concrete instances *)

Lemma insert_raise_unchanged_witness :
  insert (newNode 5) 5 = Raise alreadyInTree (newNode 5) /\
  alreadyInTree = alreadyInTree /\ newNode 5 = newNode 5.
Proof. split; [reflexivity|]. apply (insert_raise_unchanged (newNode 5) 5). reflexivity. Defined.

Lemma erase_raise_unchanged_witness :
  erase (Node Nil 5 (newNode 8) 2) 7 = Raise notInTree (Node Nil 5 (newNode 8) 2) /\
  notInTree = notInTree /\ Node Nil 5 (newNode 8) 2 = Node Nil 5 (newNode 8) 2.
Proof.
  split; [reflexivity|]. apply (erase_raise_unchanged (Node Nil 5 (newNode 8) 2) 7). reflexivity.
Defined.
