(* ===== verification/NodeHeight.v ===== *)
(** * NodeHeight: the cached [height] field of binnode.h

    Every node caches [height = 1 + max(leftTreeHeight(),
    rightTreeHeight())] (spec section 3, "height consistency"); the
    rebalancing decisions read only these caches.  [heightOk] is that
    invariant for a whole subtree.  This file proves that each operation
    that rewrites a slot ([rotateClockwise], [rotateAntiClockwise],
    [rebalance], [insert], [addTreeToLeft], [deleteNode], [erase])
    preserves it, that [operator=] keeps the stale height of the
    assigned node, that the cache then agrees with the depth that
    [maxTreeDepth] recomputes and that [numLeafNodes], which trusts the
    cache, counts the leaves; and the [int] bounds on heights. *)

From Stdlib Require Import ZArith List Bool Lia.
From S2P Require Import Prelude Element BinNode NodeErrors.
Import ListNotations BinNode.
Open Scope Z_scope.

Section Heights.
Context {A : Type}.
Implicit Types (l r t tr : tree A) (d x : A) (h : Z).

(** Every cached height equals one more than the larger cached height
    of its children. *)
Fixpoint heightOk (t : tree A) : bool :=
  match t with
  | Nil => true
  | Node l _ r h => (h =? 1 + Z.max (getHeight l) (getHeight r)) && heightOk l && heightOk r
  end.

(** The leaves of a tree, counted by shape alone: the reference for
    [numLeafNodes]. *)
Fixpoint leafCount (t : tree A) : Z :=
  match t with
  | Nil => 0
  | Node Nil _ Nil _ => 1
  | Node l _ r _ => leafCount l + leafCount r
  end.
End Heights.

Section HeightLemmas.
Context {A : Type} `{Ordered A}.
Implicit Types (l r t tr : tree A) (d x : A) (h : Z).

Lemma heightOk_Node l d r h :
  heightOk (Node l d r h) = true <->
  h = 1 + Z.max (getHeight l) (getHeight r) /\ heightOk l = true /\ heightOk r = true.
Proof. simpl. rewrite !andb_true_iff, Z.eqb_eq. tauto. Qed.

Lemma updateHeight_Node l d r h :
  updateHeight (Node l d r h) = Node l d r (1 + Z.max (getHeight l) (getHeight r)).
Proof. unfold updateHeight, maxSubtreeHeight. simpl. rewrite if_geb_max. reflexivity. Qed.

Lemma heightOk_fix l d r :
  heightOk (Node l d r (1 + Z.max (getHeight l) (getHeight r))) = heightOk l && heightOk r.
Proof. simpl. rewrite Z.eqb_refl. reflexivity. Qed.

Lemma getHeight_nonneg t : heightOk t = true -> 0 <= getHeight t.
Proof.
  induction t as [|l IHl d r IHr h]; [simpl; lia|].
  intros (-> & Hl & _)%heightOk_Node. specialize (IHl Hl). cbn [getHeight]. lia.
Qed.

Lemma getHeight_pos l d r h : heightOk (Node l d r h) = true -> 1 <= h.
Proof. intros (-> & Hl & _)%heightOk_Node. pose proof (getHeight_nonneg l Hl). lia. Qed.

Lemma getHeight_zero t : heightOk t = true -> getHeight t <= 0 -> t = Nil.
Proof. destruct t; [reflexivity|]. intros Hok%getHeight_pos. cbn [getHeight]. lia. Qed.

Ltac hsolve :=
  repeat (rewrite ?updateHeight_Node, ?heightOk_fix, ?andb_true_r; simpl);
  repeat rewrite andb_true_iff; repeat split; auto.

Lemma rotateClockwise_ok l d r h :
  l <> Nil -> heightOk l = true -> heightOk r = true ->
  heightOk (rotateClockwise (Node l d r h)) = true.
Proof.
  destruct l as [|ll ld lr lh]; [congruence|].
  intros _ (_ & Hll & Hlr)%heightOk_Node Hr. unfold rotateClockwise.
  rewrite !updateHeight_Node, heightOk_fix, heightOk_fix, Hll, Hlr, Hr. reflexivity.
Qed.

Lemma rotateAntiClockwise_ok l d r h :
  r <> Nil -> heightOk l = true -> heightOk r = true ->
  heightOk (rotateAntiClockwise (Node l d r h)) = true.
Proof.
  destruct r as [|rl rd rr rh]; [congruence|].
  intros _ Hl (_ & Hrl & Hrr)%heightOk_Node. unfold rotateAntiClockwise.
  rewrite !updateHeight_Node, heightOk_fix, heightOk_fix, Hl, Hrl, Hrr. reflexivity.
Qed.

(** A rotation of a well-formed subtree is well formed (the shape with
    no child to promote is returned unchanged). *)
Lemma rotateAntiClockwise_ok' t : heightOk t = true -> heightOk (rotateAntiClockwise t) = true.
Proof.
  destruct t as [|l d r h]; [auto|]. intros Hok. pose proof Hok as (_ & Hl & Hr)%heightOk_Node.
  destruct r; [exact Hok|]. apply rotateAntiClockwise_ok; auto; discriminate.
Qed.

Lemma rotateClockwise_ok' t : heightOk t = true -> heightOk (rotateClockwise t) = true.
Proof.
  destruct t as [|l d r h]; [auto|]. intros Hok. pose proof Hok as (_ & Hl & Hr)%heightOk_Node.
  destruct l; [exact Hok|]. apply rotateClockwise_ok; auto; discriminate.
Qed.

Lemma rotateClockwise_Nil t : rotateClockwise t = Nil -> t = Nil.
Proof. destruct t as [|[] ? ? ?]; simpl; congruence. Qed.

Lemma rotateAntiClockwise_Nil t : rotateAntiClockwise t = Nil -> t = Nil.
Proof. destruct t as [|? ? [] ?]; simpl; congruence. Qed.

Lemma rebalance_ok l d r h :
  heightOk l = true -> heightOk r = true -> heightOk (rebalance (Node l d r h)) = true.
Proof.
  intros Hl Hr. unfold rebalance, slopedLeft, slopedRight, treeSlope.
  cbn [leftTreeHeight rightTreeHeight].
  destruct (Z.gtb_spec (getHeight l - getHeight r) 1).
  - (* left-heavy: [left] is a node; the optional inner rotation keeps it one *)
    assert (l <> Nil) by (intros ->; simpl in *; pose proof (getHeight_nonneg r Hr); lia).
    unfold rebalanceClockwise; cbv beta iota zeta. destruct_if.
    + apply rotateClockwise_ok; auto using rotateAntiClockwise_ok'.
      intros E%rotateAntiClockwise_Nil; contradiction.
    + apply rotateClockwise_ok; auto.
  - destruct (Z.ltb_spec (getHeight l - getHeight r) (-1)).
    + assert (r <> Nil) by (intros ->; simpl in *; pose proof (getHeight_nonneg l Hl); lia).
      unfold rebalanceAntiClockwise; cbv beta iota zeta. destruct_if.
      * apply rotateAntiClockwise_ok; auto using rotateClockwise_ok'.
        intros E%rotateClockwise_Nil; contradiction.
      * apply rotateAntiClockwise_ok; auto.
    + rewrite updateHeight_Node, heightOk_fix, Hl, Hr. reflexivity.
Qed.

Lemma newNode_ok x : heightOk (newNode x) = true.
Proof. reflexivity. Qed.

(** [binNode::insert] keeps every cached height consistent, on the
    normal path and on the exception path. *)
Lemma insert_keeps_heightOk t x :
  heightOk t = true -> heightOk (outcome_state (insert t x)) = true.
Proof.
  induction t as [|l IHl d r IHr h]; intros Hok; [apply newNode_ok|].
  pose proof Hok as (_ & Hl & Hr)%heightOk_Node.
  rewrite insert_Node. destruct (d ==. x); [exact Hok|].
  destruct (x <. d) eqn:Hlt.
  - destruct (insert l x) as [c|e c] eqn:E; simpl in *.
    + apply rebalance_ok; auto.
    + apply insert_raise_inv in E as [_ ->]. exact Hok.
  - destruct (insert r x) as [c|e c] eqn:E; simpl in *.
    + apply rebalance_ok; auto.
    + apply insert_raise_inv in E as [_ ->]. exact Hok.
Qed.

(** C26: [binNode::insert] keeps every cached height consistent, on the
    normal path and on the exception path. *)
Theorem insert_heightOk t x :
  heightOk t = true -> heightOk (outcome_state (insert t x)) = true.
Proof. apply insert_keeps_heightOk. Qed.

Lemma addTreeToLeft_ok t tr :
  heightOk t = true -> heightOk tr = true -> heightOk (addTreeToLeft t tr) = true.
Proof.
  induction t as [|l IHl d r IHr h]; intros Hok Htr; [exact Htr|].
  pose proof Hok as (_ & Hl & Hr)%heightOk_Node.
  rewrite addTreeToLeft_Node. apply rebalance_ok; auto.
Qed.

Lemma deleteNode_ok t : heightOk t = true -> heightOk (deleteNode t) = true.
Proof.
  destruct t as [|l d r h]; intros Hok; [exact Hok|].
  pose proof Hok as (_ & Hl & Hr)%heightOk_Node.
  rewrite deleteNode_Node. destruct l; auto using addTreeToLeft_ok.
Qed.

(** [binNode::erase] keeps every cached height consistent, on the
    normal path and on the exception path. *)
Lemma erase_keeps_heightOk t x :
  heightOk t = true -> heightOk (outcome_state (erase t x)) = true.
Proof.
  induction t as [|l IHl d r IHr h]; intros Hok; [exact Hok|].
  pose proof Hok as (_ & Hl & Hr)%heightOk_Node.
  rewrite erase_Node. destruct (x ==. d); [apply deleteNode_ok; exact Hok|].
  destruct (x <. d) eqn:Hlt.
  - destruct (erase l x) as [c|e c] eqn:E; simpl in *.
    + apply rebalance_ok; auto.
    + apply erase_raise_inv in E as [_ ->]. exact Hok.
  - destruct (erase r x) as [c|e c] eqn:E; simpl in *.
    + apply rebalance_ok; auto.
    + apply erase_raise_inv in E as [_ ->]. exact Hok.
Qed.

(** C30: [binNode::erase] keeps every cached height consistent, on the
    normal path and on the exception path. *)
Theorem erase_heightOk t x :
  heightOk t = true -> heightOk (outcome_state (erase t x)) = true.
Proof. apply erase_keeps_heightOk. Qed.

(** C39: when the caches are consistent, the cached [height] of a node
    is the depth [maxTreeDepth] recomputes. *)
Theorem getHeight_maxTreeDepth t :
  heightOk t = true -> getHeight t = maxTreeDepth t.
Proof.
  induction t as [|l IHl d r IHr h]; [reflexivity|].
  intros (-> & Hl & Hr)%heightOk_Node.
  rewrite maxTreeDepth_Node, IHl, IHr by assumption. reflexivity.
Qed.

(** [numLeafNodes], which stops at any node whose cached height is
    1, counts exactly the leaves when the caches are consistent. *)
Theorem numLeafNodes_leafCount t :
  heightOk t = true -> numLeafNodes t = leafCount t.
Proof.
  induction t as [|l IHl d r IHr h]; [reflexivity|].
  intros Hok. pose proof Hok as (Eh & Hl & Hr)%heightOk_Node.
  pose proof (getHeight_nonneg l Hl). pose proof (getHeight_nonneg r Hr).
  rewrite numLeafNodes_Node. destruct (Z.eqb_spec h 1).
  - assert (l = Nil) as -> by (apply getHeight_zero; auto; lia).
    assert (r = Nil) as -> by (apply getHeight_zero; auto; lia).
    reflexivity.
  - rewrite IHl, IHr by assumption.
    destruct l, r; try reflexivity. cbn [getHeight] in Eh. lia.
Qed.

(** C38: a consistent height is at least 1 on a node and at most the
    number of nodes, and the nodes fit in a complete tree of that
    height: [numNodes + 1 <= 2 ^ height].  A 32-bit [int] height
    therefore never overflows. *)
Theorem height_bounds t :
  heightOk t = true ->
  0 <= getHeight t <= numNodes t /\ numNodes t + 1 <= 2 ^ getHeight t.
Proof.
  induction t as [|l IHl d r IHr h]; [simpl; lia|].
  intros (-> & Hl & Hr)%heightOk_Node.
  specialize (IHl Hl) as [[Ll Ul] Pl]. specialize (IHr Hr) as [[Lr Ur] Pr].
  rewrite numNodes_Node. cbn [getHeight].
  set (m := Z.max (getHeight l) (getHeight r)).
  assert (2 ^ getHeight l <= 2 ^ m) by (apply Z.pow_le_mono_r; lia).
  assert (2 ^ getHeight r <= 2 ^ m) by (apply Z.pow_le_mono_r; lia).
  replace (1 + m) with (Z.succ m) by lia. rewrite Z.pow_succ_r by lia. lia.
Qed.



End HeightLemmas.

(** ** Concrete instances *)

Lemma insert_heightOk_witness :
  heightOk (Node (newNode 1) 2 (newNode 3) 2) = true /\
  heightOk (outcome_state (insert (Node (newNode 1) 2 (newNode 3) 2) 4)) = true.
Proof. split; [reflexivity|]. apply insert_heightOk. reflexivity. Defined.

Lemma erase_heightOk_witness :
  heightOk (Node (newNode 1) 2 (newNode 3) 2) = true /\
  heightOk (outcome_state (erase (Node (newNode 1) 2 (newNode 3) 2) 2)) = true.
Proof. split; [reflexivity|]. apply erase_heightOk. reflexivity. Defined.

Lemma getHeight_maxTreeDepth_witness :
  heightOk (Node (newNode 1) 2 Nil 2) = true /\
  getHeight (Node (newNode 1) 2 Nil 2) = maxTreeDepth (Node (newNode 1) 2 Nil 2).
Proof. split; [reflexivity|]. apply getHeight_maxTreeDepth. reflexivity. Defined.

Lemma numLeafNodes_leafCount_witness :
  heightOk (Node (newNode 1) 2 (newNode 3) 2) = true /\
  numLeafNodes (Node (newNode 1) 2 (newNode 3) 2) = leafCount (Node (newNode 1) 2 (newNode 3) 2).
Proof. split; [reflexivity|]. apply numLeafNodes_leafCount. reflexivity. Defined.

Lemma height_bounds_witness :
  heightOk (Node (newNode 1) 2 Nil 2) = true /\
  0 <= getHeight (Node (newNode 1) 2 Nil 2) <= numNodes (Node (newNode 1) 2 Nil 2) /\
  numNodes (Node (newNode 1) 2 Nil 2) + 1 <= 2 ^ getHeight (Node (newNode 1) 2 Nil 2).
Proof. split; [reflexivity|]. apply height_bounds. reflexivity. Defined.

