(* ===== verification/NodeOrder.v ===== *)
(** * NodeOrder: [binNode] refines the sorted-list specification

    The abstraction function is the in-order traversal [inorder] (the
    order in which [print()] writes the elements).  The rotations,
    [rebalance] and the splicing deletion keep it; [insert], [erase] and
    [findConst]/[find] follow [set_insert], [set_erase] and
    [lookup_list] of [SortedSpec] on every path, the exception paths
    included.  The last part characterises [verifyTree]: it accepts
    exactly the trees whose caches are consistent and whose every child
    is on the right side of its parent, which is weaker than the search
    tree order. *)

From Stdlib Require Import ZArith List String Bool Sorted Lia.
From S2P Require Import Prelude Element SortedSpec BinNode NodeErrors NodeHeight.
Import ListNotations BinNode.
Open Scope Z_scope.

Section LocalOrder.
Context {A : Type} `{Ordered A}.

(** What [verifyTree] checks of the order: each child against its
    parent only. *)
Fixpoint locallyOrdered (t : tree A) : bool :=
  match t with
  | Nil => true
  | Node l d r _ =>
      match l with Nil => true | Node _ ld _ _ => ld <. d end &&
      match r with Nil => true | Node _ rd _ _ => d <. rd end &&
      locallyOrdered l && locallyOrdered r
  end.
End LocalOrder.

Section Inorder.
Context {A : Type} `{Ordered A}.
Implicit Types (l r t tr : tree A) (d x : A) (h : Z).

Lemma inorder_updateHeight t : inorder (updateHeight t) = inorder t.
Proof. destruct t; reflexivity. Qed.

Lemma inorder_rotateClockwise t : inorder (rotateClockwise t) = inorder t.
Proof.
  destruct t as [|[|ll ld lr lh] d r h]; try reflexivity.
  unfold rotateClockwise. rewrite !inorder_updateHeight. simpl.
  rewrite <- app_assoc. reflexivity.
Qed.

Lemma inorder_rotateAntiClockwise t : inorder (rotateAntiClockwise t) = inorder t.
Proof.
  destruct t as [|l d [|rl rd rr rh] h]; try reflexivity.
  unfold rotateAntiClockwise. rewrite !inorder_updateHeight. simpl.
  rewrite <- app_assoc. reflexivity.
Qed.

Lemma inorder_rebalance t : inorder (rebalance t) = inorder t.
Proof.
  unfold rebalance, rebalanceClockwise, rebalanceAntiClockwise.
  destruct t as [|l d r h]; [case_ifs; reflexivity|].
  destruct (slopedLeft _); [|destruct (slopedRight _)].
  - rewrite inorder_rotateClockwise. destruct_if; simpl;
      rewrite ?inorder_rotateAntiClockwise; reflexivity.
  - rewrite inorder_rotateAntiClockwise. destruct_if; simpl;
      rewrite ?inorder_rotateClockwise; reflexivity.
  - apply inorder_updateHeight.
Qed.

(** The splice: [tree] ends up before everything of the subtree it is
    hung under. *)
Lemma inorder_addTreeToLeft t tr : inorder (addTreeToLeft t tr) = inorder tr ++ inorder t.
Proof.
  induction t as [|l IHl d r IHr h]; [rewrite app_nil_r; reflexivity|].
  rewrite addTreeToLeft_Node, inorder_rebalance. simpl. rewrite IHl, app_assoc. reflexivity.
Qed.

Lemma inorder_deleteNode l d r h : inorder (deleteNode (Node l d r h)) = inorder l ++ inorder r.
Proof.
  rewrite deleteNode_Node. destruct l; [reflexivity|].
  rewrite inorder_addTreeToLeft. reflexivity.
Qed.
End Inorder.

#[export] Hint Rewrite @inorder_updateHeight @inorder_rotateClockwise
  @inorder_rotateAntiClockwise @inorder_rebalance @inorder_addTreeToLeft : mazesolver_rw.

Section Refinement.
Context {A : Type} `{OrderedLaws A}.
Implicit Types (l r t tr : tree A) (d x : A) (h : Z).

(** [binNode::insert] on a search tree does what [set_insert] says
    of its in-order sequence: it inserts the element in order when no
    equal element is present, and otherwise throws
    ["dataItem already in tree"] and leaves the slot unchanged. *)
Lemma node_insert_abstract t x :
  sorted (inorder t) ->
  match insert t x with
  | Normal t' => set_insert x (inorder t) = Some (inorder t')
  | Raise e t' => set_insert x (inorder t) = None /\ e = alreadyInTree /\ t' = t
  end.
Proof.
  induction t as [|l IHl d r IHr h]; intros Hs; [reflexivity|].
  pose proof Hs as (Sl & Sr & _)%sorted_node. simpl inorder in *.
  rewrite insert_Node. destruct (d ==. x) eqn:Hdx.
  - unfold set_insert. rewrite mem_list_app, mem_list_cons, op_eq_sym, Hdx, orb_true_r.
    auto.
  - rewrite op_eq_sym in Hdx. destruct (x <. d) eqn:Hlt.
    + rewrite set_insert_app_l by assumption. specialize (IHl Sl).
      destruct (insert l x) as [c|e c]; simpl.
      * rewrite IHl, inorder_rebalance. reflexivity.
      * destruct IHl as (-> & -> & ->). auto.
    + rewrite set_insert_app_r by assumption. specialize (IHr Sr).
      destruct (insert r x) as [c|e c]; simpl.
      * rewrite IHr, inorder_rebalance. reflexivity.
      * destruct IHr as (-> & -> & ->). auto.
Qed.

(** C24: [binNode::insert] on a search tree does what [set_insert] says
    of its in-order sequence: it inserts the element in order when no
    equal element is present, and otherwise throws
    ["dataItem already in tree"] and leaves the slot unchanged. *)
Theorem node_insert_refines t x :
  sorted (inorder t) ->
  match insert t x with
  | Normal t' => set_insert x (inorder t) = Some (inorder t')
  | Raise e t' => set_insert x (inorder t) = None /\ e = alreadyInTree /\ t' = t
  end.
Proof. apply node_insert_abstract. Qed.

(** [binNode::erase] on a search tree does what [set_erase] says of
    its in-order sequence: it removes the element equal to the key when
    there is one, and otherwise throws ["delItem not in tree"] and
    leaves the slot unchanged. *)
Lemma node_erase_abstract t x :
  sorted (inorder t) ->
  match erase t x with
  | Normal t' => set_erase x (inorder t) = Some (inorder t')
  | Raise e t' => set_erase x (inorder t) = None /\ e = notInTree /\ t' = t
  end.
Proof.
  induction t as [|l IHl d r IHr h]; intros Hs; [simpl; auto|].
  pose proof Hs as (Sl & Sr & _)%sorted_node. simpl inorder in *.
  rewrite erase_Node. destruct (x ==. d) eqn:Hxd.
  - rewrite set_erase_here, inorder_deleteNode by assumption. reflexivity.
  - destruct (x <. d) eqn:Hlt.
    + rewrite set_erase_app_l by assumption. specialize (IHl Sl).
      destruct (erase l x) as [c|e c]; simpl.
      * rewrite IHl, inorder_rebalance. reflexivity.
      * destruct IHl as (-> & -> & ->). auto.
    + rewrite set_erase_app_r by assumption. specialize (IHr Sr).
      destruct (erase r x) as [c|e c]; simpl.
      * rewrite IHr, inorder_rebalance. reflexivity.
      * destruct IHr as (-> & -> & ->). auto.
Qed.

(** C29: [binNode::erase] on a search tree does what [set_erase] says of
    its in-order sequence: it removes the element equal to the key when
    there is one, and otherwise throws ["delItem not in tree"] and
    leaves the slot unchanged. *)
Theorem node_erase_refines t x :
  sorted (inorder t) ->
  match erase t x with
  | Normal t' => set_erase x (inorder t) = Some (inorder t')
  | Raise e t' => set_erase x (inorder t) = None /\ e = notInTree /\ t' = t
  end.
Proof. apply node_erase_abstract. Qed.

(** on a search tree, [findConst] returns the stored element equal
    to the key, the one [lookup_list] finds in the in-order sequence,
    and [NULL] when there is none. *)
Lemma findConst_lookup t x :
  sorted (inorder t) -> findConst t x = lookup_list x (inorder t).
Proof.
  induction t as [|l IHl d r IHr h]; intros Hs; [reflexivity|].
  pose proof Hs as (Sl & Sr & _)%sorted_node. simpl inorder in *.
  rewrite findConst_Node, lookup_list_node, IHl, IHr by assumption. reflexivity.
Qed.

(** C33: on a search tree, [findConst] returns the stored element equal
    to the key, the one [lookup_list] finds in the in-order sequence,
    and [NULL] when there is none. *)
Theorem findConst_correct t x :
  sorted (inorder t) -> findConst t x = lookup_list x (inorder t).
Proof. apply findConst_lookup. Qed.

(** The focus of [find]: the element found splits the in-order
    sequence, and the returned writer replaces it in place. *)
Lemma find_focus t x y set :
  find t x = Some (y, set) ->
  findConst t x = Some y /\
  exists L R, inorder t = L ++ y :: R /\ set y = t /\
    forall v, inorder (set v) = L ++ v :: R /\ getHeight (set v) = getHeight t /\
              heightOk (set v) = heightOk t.
Proof.
  revert y set. induction t as [|l IHl d r IHr h]; intros y set; [discriminate|].
  rewrite find_Node, findConst_Node. destruct (x ==. d).
  - intros E; injection E as <- <-. split; [reflexivity|].
    exists (inorder l), (inorder r). repeat split; reflexivity.
  - destruct (x <. d).
    + destruct (find l x) as [[y' set']|] eqn:E; [|discriminate]. simpl.
      intros E'; injection E' as <- <-.
      destruct (IHl _ _ eq_refl) as (Hf & L & R & Hin & Hback & Hset). split; [exact Hf|].
      exists L, (R ++ d :: inorder r). simpl. rewrite Hin, Hback, <- app_assoc.
      repeat split; intros; try (destruct (Hset v) as (-> & _ & _); rewrite <- app_assoc); try reflexivity.
      destruct (Hset v) as (_ & -> & ->). reflexivity.
    + destruct (find r x) as [[y' set']|] eqn:E; [|discriminate]. simpl.
      intros E'; injection E' as <- <-.
      destruct (IHr _ _ eq_refl) as (Hf & L & R & Hin & Hback & Hset). split; [exact Hf|].
      exists (inorder l ++ d :: L), R. simpl. rewrite Hin, Hback, <- app_assoc.
      repeat split; intros; try (destruct (Hset v) as (-> & _ & _); rewrite <- app_assoc); try reflexivity.
      destruct (Hset v) as (_ & -> & ->). reflexivity.
Qed.

(** the pointer [find] returns designates the stored element
    [findConst] returns: writing [v] through it replaces exactly that
    element in the in-order sequence, leaves the shape and the cached
    heights as they were, and writing back the element found restores
    the slot. *)
Theorem find_pointer t x y set :
  find t x = Some (y, set) ->
  findConst t x = Some y /\
  exists L R, inorder t = L ++ y :: R /\ set y = t /\
    forall v, inorder (set v) = L ++ v :: R /\ getHeight (set v) = getHeight t /\
              heightOk (set v) = heightOk t.
Proof. exact (find_focus t x y set). Qed.

Lemma find_fst t x : option_map fst (find t x) = findConst t x.
Proof.
  induction t as [|l IHl d r IHr h]; [reflexivity|].
  rewrite find_Node, findConst_Node. destruct (x ==. d); [reflexivity|].
  destruct (x <. d); [rewrite <- IHl; destruct (find l x) as [[]|]|
                      rewrite <- IHr; destruct (find r x) as [[]|]]; reflexivity.
Qed.

Lemma find_none t x : find t x = None -> findConst t x = None.
Proof.
  induction t as [|l IHl d r IHr h]; [reflexivity|].
  rewrite find_Node, findConst_Node. destruct (x ==. d); [discriminate|].
  destruct (x <. d).
  - destruct (find l x) as [[y set]|]; simpl; [discriminate|auto].
  - destruct (find r x) as [[y set]|]; simpl; [discriminate|auto].
Qed.

End Refinement.

(** ** [verifyTree] *)

Section SortedLocal.
Context {A : Type} `{OrderedLaws A}.

(** A search tree passes the local order check. *)
Lemma sorted_locallyOrdered (t : tree A) : sorted (inorder t) -> locallyOrdered t = true.
Proof.
  induction t as [|l IHl d r IHr h]; intros Hs; [reflexivity|].
  simpl inorder in Hs. apply sorted_node in Hs as (Sl & Sr & Hl & Hr).
  cbn [locallyOrdered]. rewrite IHl, IHr by assumption. rewrite !andb_true_r.
  apply andb_true_iff. split.
  - destruct l as [|ll ld lr lh]; [reflexivity|]. apply Hl. simpl. apply in_or_app. simpl; auto.
  - destruct r as [|rl rd rr rh]; [reflexivity|]. apply Hr. simpl. apply in_or_app. simpl; auto.
Qed.
End SortedLocal.

Section Verify.
Context {A : Type} `{Ordered A} `{VerifyOrdered A} `{!VerifyLaws A}.
Implicit Types (l r t : tree A) (d : A) (h : Z).

Lemma verifyTree_Node l d r h :
  verifyTree (Node l d r h) =
  if negb (h =? 1 + Z.max (getHeight l) (getHeight r)) then Invalid "Invalid height in tree"%string
  else match
         match l with
         | Nil => Valid
         | Node _ ld _ _ => if op_ge ld d then Invalid "Left node out of order"%string else verifyTree l
         end
       with
       | Invalid e => Invalid e
       | Valid =>
           match r with
           | Nil => Valid
           | Node _ rd _ _ => if op_le rd d then Invalid "Right node out of order"%string else verifyTree r
           end
       end.
Proof. cbn [verifyTree leftTreeHeight rightTreeHeight]. rewrite if_gtb_max_swap, Z.add_comm. reflexivity. Qed.

Lemma verdict_seq (v w : verdict) :
  match v with Invalid e => Invalid e | Valid => w end = Valid <-> v = Valid /\ w = Valid.
Proof. destruct v; intuition discriminate. Qed.

Lemma verify_left l d :
  (verifyTree l = Valid <-> heightOk l = true /\ locallyOrdered l = true) ->
  match l with
  | Nil => Valid
  | Node _ ld _ _ => if op_ge ld d then Invalid "Left node out of order"%string else verifyTree l
  end = Valid <->
  match l with Nil => true | Node _ ld _ _ => ld <. d end = true /\
  heightOk l = true /\ locallyOrdered l = true.
Proof.
  intros IH. destruct l as [|ll ld lr lh]; [simpl; intuition|].
  rewrite op_ge_not_lt. destruct (ld <. d); simpl negb; cbv iota; [rewrite IH; tauto|].
  split; [discriminate|intros [E _]; discriminate].
Qed.

Lemma verify_right r d :
  (verifyTree r = Valid <-> heightOk r = true /\ locallyOrdered r = true) ->
  match r with
  | Nil => Valid
  | Node _ rd _ _ => if op_le rd d then Invalid "Right node out of order"%string else verifyTree r
  end = Valid <->
  match r with Nil => true | Node _ rd _ _ => d <. rd end = true /\
  heightOk r = true /\ locallyOrdered r = true.
Proof.
  intros IH. destruct r as [|rl rd rr rh]; [simpl; intuition|].
  rewrite op_le_not_gt. destruct (d <. rd); simpl negb; cbv iota; [rewrite IH; tauto|].
  split; [discriminate|intros [E _]; discriminate].
Qed.

(** [verifyTree] reports success exactly when every cached height
    is consistent and every child lies on the correct side of its own
    parent ([locallyOrdered]). *)
Lemma verifyTree_iff t :
  verifyTree t = Valid <-> heightOk t = true /\ locallyOrdered t = true.
Proof.
  induction t as [|l IHl d r IHr h]; [simpl; intuition|].
  rewrite verifyTree_Node, heightOk_Node. cbn [locallyOrdered].
  rewrite !andb_true_iff.
  destruct (Z.eqb_spec h (1 + Z.max (getHeight l) (getHeight r))) as [Eh|Eh];
    simpl negb; cbv iota.
  - rewrite verdict_seq, verify_left, verify_right by assumption. tauto.
  - split; [discriminate|tauto].
Qed.

(** C31: [verifyTree] reports success exactly when every cached height
    is consistent and every child lies on the correct side of its own
    parent ([locallyOrdered]). *)
Theorem verifyTree_spec t :
  verifyTree t = Valid <-> heightOk t = true /\ locallyOrdered t = true.
Proof. apply verifyTree_iff. Qed.
End Verify.

(** ** Concrete instances *)

Lemma node_insert_refines_witness :
  sorted (inorder (Node (newNode 1) 2 (newNode 3) 2)) /\
  match insert (Node (newNode 1) 2 (newNode 3) 2) 4 with
  | Normal t' => set_insert 4 (inorder (Node (newNode 1) 2 (newNode 3) 2)) = Some (inorder t')
  | Raise e t' =>
    set_insert 4 (inorder (Node (newNode 1) 2 (newNode 3) 2)) = None /\ e = alreadyInTree /\
    t' = Node (newNode 1) 2 (newNode 3) 2
  end.
Proof.
  assert (Hs : sorted (inorder (Node (newNode 1) 2 (newNode 3) 2))) by (repeat constructor).
  split; [exact Hs|]. exact (node_insert_refines _ 4 Hs).
Defined.

Lemma node_erase_refines_witness :
  sorted (inorder (Node (newNode 1) 2 (newNode 3) 2)) /\
  match erase (Node (newNode 1) 2 (newNode 3) 2) 2 with
  | Normal t' => set_erase 2 (inorder (Node (newNode 1) 2 (newNode 3) 2)) = Some (inorder t')
  | Raise e t' =>
    set_erase 2 (inorder (Node (newNode 1) 2 (newNode 3) 2)) = None /\ e = notInTree /\
    t' = Node (newNode 1) 2 (newNode 3) 2
  end.
Proof.
  assert (Hs : sorted (inorder (Node (newNode 1) 2 (newNode 3) 2))) by (repeat constructor).
  split; [exact Hs|]. exact (node_erase_refines _ 2 Hs).
Defined.

Lemma findConst_correct_witness :
  sorted (inorder (Node (newNode 1) 2 (newNode 3) 2)) /\
  findConst (Node (newNode 1) 2 (newNode 3) 2) 3 = lookup_list 3 (inorder (Node (newNode 1) 2 (newNode 3) 2)).
Proof.
  assert (Hs : sorted (inorder (Node (newNode 1) 2 (newNode 3) 2))) by (repeat constructor).
  split; [exact Hs|]. exact (findConst_correct _ 3 Hs).
Defined.

Lemma find_pointer_witness :
  match find (Node (newNode 1) 2 (newNode 3) 2) 3 with
  | Some (y, set) =>
    find (Node (newNode 1) 2 (newNode 3) 2) 3 = Some (y, set) /\
    (findConst (Node (newNode 1) 2 (newNode 3) 2) 3 = Some y /\
     exists L R, inorder (Node (newNode 1) 2 (newNode 3) 2) = L ++ y :: R /\
       set y = Node (newNode 1) 2 (newNode 3) 2 /\
       forall v, inorder (set v) = L ++ v :: R /\
                 getHeight (set v) = getHeight (Node (newNode 1) 2 (newNode 3) 2) /\
                 heightOk (set v) = heightOk (Node (newNode 1) 2 (newNode 3) 2))
  | None => False
  end.
Proof.
  destruct (find (Node (newNode 1) 2 (newNode 3) 2) 3) as [[y set]|] eqn:E; [|discriminate].
  split; [reflexivity|]. exact (find_pointer _ 3 y set E).
Defined.


Lemma verifyTree_spec_witness :
  VerifyLaws Z /\
  (BinNode.verifyTree (Node (newNode 1) 2 Nil 2) = Valid <->
   heightOk (Node (newNode 1) 2 Nil 2) = true /\ locallyOrdered (Node (newNode 1) 2 Nil 2) = true).
Proof. split; [exact Z_verify_laws|]. apply verifyTree_spec. Defined.
