(* ===== verification/NodeBalance.v ===== *)
(** * NodeBalance: what [binNode::rebalance] guarantees

    The spec (section 4.1) promises AVL balance, [|height(left) -
    height(right)| <= 1] at every node, restored by [rebalance] at each
    node on the way back up.  [avl] is that property on the cached
    heights.  [rebalance_avl] shows exactly which shapes the source's
    [rebalance] repairs: every node whose subtrees are balanced and
    differ in height by at most 2, except the right-left shape, where
    [rebalanceAntiClockwise] tests [right->tiltedLeft() < 0], a [bool]
    compared with [0] that is never true, and so omits the inner
    rotation the spec describes.  [rebalance_right_left_unbalanced]
    shows that on every right-left node the result is out of balance. *)

From Stdlib Require Import ZArith List Bool Lia.
From S2P Require Import Prelude Element BinNode NodeHeight.
Import ListNotations BinNode.
Open Scope Z_scope.

Section Avl.
Context {A : Type}.

(** Every node's cached subtree heights differ by at most one. *)
Fixpoint avl (t : tree A) : bool :=
  match t with
  | Nil => true
  | Node l _ r _ => (Z.abs (getHeight l - getHeight r) <=? 1) && avl l && avl r
  end.
End Avl.

Section Balance.
Context {A : Type} `{Ordered A}.
Implicit Types (l r t : tree A) (d : A) (h : Z).

Lemma avl_Node l d r h :
  avl (Node l d r h) = true <->
  Z.abs (getHeight l - getHeight r) <= 1 /\ avl l = true /\ avl r = true.
Proof. simpl. rewrite !andb_true_iff, Z.leb_le. tauto. Qed.

(** Unfold the rebuilt nodes and close the balance goal by arithmetic
    on the cached heights. *)
Ltac avl_close :=
  repeat match goal with H : _ /\ _ |- _ => destruct H end;
  repeat rewrite updateHeight_Node; cbn [avl getHeight] in *;
  repeat match goal with H : avl ?s = true |- _ => rewrite H; clear H end;
  rewrite ?andb_true_r; repeat rewrite andb_true_iff; repeat split;
  apply Z.leb_le; lia.

Lemma avl_facts l :
  heightOk l = true -> avl l = true ->
  match l with
  | Nil => getHeight l = 0
  | Node ll _ lr lh =>
      lh = 1 + Z.max (getHeight ll) (getHeight lr) /\
      Z.abs (getHeight ll - getHeight lr) <= 1 /\
      0 <= getHeight ll /\ 0 <= getHeight lr /\
      heightOk ll = true /\ heightOk lr = true /\ avl ll = true /\ avl lr = true
  end.
Proof.
  destruct l as [|ll ld lr lh]; [reflexivity|].
  intros (Eh & Hll & Hlr)%heightOk_Node (Hb & All & Alr)%avl_Node.
  pose proof (getHeight_nonneg ll Hll). pose proof (getHeight_nonneg lr Hlr). auto 10.
Qed.

(** C27: [rebalance] restores the AVL balance of a node whose subtrees
    are balanced, have consistent caches and differ in height by at
    most two, in every shape but one: the right subtree higher by two
    and itself leaning left. *)
Theorem rebalance_avl l d r h :
  heightOk l = true -> heightOk r = true -> avl l = true -> avl r = true ->
  Z.abs (getHeight l - getHeight r) <= 2 ->
  ~ (getHeight r - getHeight l = 2 /\ tiltedLeft r = true) ->
  avl (rebalance (Node l d r h)) = true.
Proof.
  intros Hl Hr Al Ar Hd Hnot.
  pose proof (avl_facts l Hl Al) as Fl. pose proof (avl_facts r Hr Ar) as Fr.
  unfold rebalance, slopedLeft, slopedRight, treeSlope. cbn [leftTreeHeight rightTreeHeight].
  destruct (Z.gtb_spec (getHeight l - getHeight r) 1).
  - (* left-heavy *)
    unfold rebalanceClockwise; cbv beta iota zeta.
    destruct l as [|ll ld lr lh]; [destruct r; cbn [getHeight] in *; lia|].
    destruct Fl as (Elh & Bl & Pll & Plr & Hll & Hlr & All & Alr).
    unfold tiltedRight, treeSlope. cbn [leftTreeHeight rightTreeHeight].
    destruct (Z.ltb_spec (getHeight ll - getHeight lr) 0);
      [change (Z.b2z true >? 0) with true | change (Z.b2z false >? 0) with false]; cbv iota.
    + (* left-right: the inner rotation fires *)
      destruct lr as [|lrl lrd lrr lrh]; [cbn [getHeight] in *; lia|].
      pose proof (avl_facts _ Hlr Alr) as (Elrh & Blr & ? & ? & _ & _ & ? & ?).
      destruct r; unfold rotateAntiClockwise, rotateClockwise; avl_close.
    + destruct r; unfold rotateClockwise; avl_close.
  - destruct (Z.ltb_spec (getHeight l - getHeight r) (-1)).
    + (* right-heavy: the code never rotates the right child first *)
      unfold rebalanceAntiClockwise; cbv beta iota zeta.
      destruct r as [|rl rd rr rh]; [destruct l; cbn [getHeight] in *; lia|].
      destruct Fr as (Erh & Br & Prl & Prr & Hrl & Hrr & Arl & Arr).
      unfold tiltedLeft, treeSlope in *. cbn [leftTreeHeight rightTreeHeight] in *.
      destruct (Z.gtb_spec (getHeight rl - getHeight rr) 0);
        [exfalso; apply Hnot; split; [cbn [getHeight]; lia | reflexivity]|].
      change (Z.b2z false <? 0) with false; cbv iota.
      destruct l; unfold rotateAntiClockwise; avl_close.
    + destruct l, r; avl_close.
Qed.

Lemma rebalance_right_left l d r h :
  heightOk l = true -> heightOk r = true -> avl r = true ->
  getHeight r - getHeight l = 2 -> tiltedLeft r = true ->
  treeSlope (rebalance (Node l d r h)) = 2 /\ avl (rebalance (Node l d r h)) = false.
Proof.
  intros Hl Hr Ar Hd Ht.
  pose proof (getHeight_nonneg l Hl) as Pl. pose proof (avl_facts r Hr Ar) as Fr.
  unfold rebalance, slopedLeft, slopedRight, treeSlope. cbn [leftTreeHeight rightTreeHeight].
  destruct (Z.gtb_spec (getHeight l - getHeight r) 1); [lia|].
  destruct (Z.ltb_spec (getHeight l - getHeight r) (-1)); [|lia].
  unfold rebalanceAntiClockwise; cbv beta iota zeta. rewrite Ht.
  change (Z.b2z true <? 0) with false; cbv iota.
  destruct r as [|rl rd rr rh]; [discriminate|].
  destruct Fr as (Erh & Br & Prl & Prr & _ & _ & _ & _).
  unfold tiltedLeft, treeSlope in Ht. cbn [leftTreeHeight rightTreeHeight] in Ht.
  apply Z.gtb_lt in Ht. cbn [getHeight] in Hd.
  unfold rotateAntiClockwise. rewrite !updateHeight_Node. cbn [avl getHeight leftTreeHeight rightTreeHeight].
  split; [lia|]. apply andb_false_iff. left. apply andb_false_iff. left. apply Z.leb_gt. lia.
Qed.

(** C28: in the right-left shape (the right subtree higher by two and
    itself leaning left) [rebalance] leaves the node out of balance,
    its left side now higher by two: [right->tiltedLeft() < 0] compares
    a [bool] promoted to [0] or [1] with [0], so the inner rotation the
    spec describes never runs and the single rotation moves the excess
    height to the other side. *)
Theorem rebalance_right_left_unbalanced l d r h :
  heightOk l = true -> heightOk r = true -> avl r = true ->
  getHeight r - getHeight l = 2 -> tiltedLeft r = true ->
  treeSlope (rebalance (Node l d r h)) = 2 /\ avl (rebalance (Node l d r h)) = false.
Proof. apply rebalance_right_left. Qed.
End Balance.

(** ** Concrete instances *)

(** The left-right shape: the inner rotation fires and the node is
  repaired. *)
Lemma rebalance_avl_witness :
  heightOk (Node Nil 1 (newNode 2) 2) = true /\ heightOk (@Nil Z) = true /\
  avl (Node Nil 1 (newNode 2) 2) = true /\ avl (@Nil Z) = true /\
  Z.abs (getHeight (Node Nil 1 (newNode 2) 2) - getHeight (@Nil Z)) <= 2 /\
  ~ (getHeight (@Nil Z) - getHeight (Node Nil 1 (newNode 2) 2) = 2 /\ tiltedLeft (@Nil Z) = true) /\
  avl (rebalance (Node (Node Nil 1 (newNode 2) 2) 3 Nil 1)) = true.
Proof.
  assert (Hd : Z.abs (getHeight (Node Nil 1 (newNode 2) 2) - getHeight (@Nil Z)) <= 2)
  by (cbn; lia).
  assert (Hn : ~ (getHeight (@Nil Z) - getHeight (Node Nil 1 (newNode 2) 2) = 2 /\
                tiltedLeft (@Nil Z) = true)) by (cbn; lia).
  assert (H1 : heightOk (Node Nil 1 (newNode 2) 2) = true) by reflexivity.
  assert (H2 : heightOk (@Nil Z) = true) by reflexivity.
  assert (H3 : avl (Node Nil 1 (newNode 2) 2) = true) by reflexivity.
  assert (H4 : avl (@Nil Z) = true) by reflexivity.
  exact (conj H1 (conj H2 (conj H3 (conj H4 (conj Hd (conj Hn
        (rebalance_avl (Node Nil 1 (newNode 2) 2) 3 Nil 1 H1 H2 H3 H4 Hd Hn))))))).
Defined.

(** Inserting [2] below [1 .. 3]: the right child [3] leans left, the
    node is left with its left side two higher. *)
Lemma rebalance_right_left_unbalanced_witness :
  heightOk (@Nil Z) = true /\ heightOk (Node (newNode 2) 3 Nil 2) = true /\
  avl (Node (newNode 2) 3 Nil 2) = true /\
  getHeight (Node (newNode 2) 3 Nil 2) - getHeight (@Nil Z) = 2 /\
  tiltedLeft (Node (newNode 2) 3 Nil 2) = true /\
  treeSlope (rebalance (Node Nil 1 (Node (newNode 2) 3 Nil 2) 3)) = 2 /\
  avl (rebalance (Node Nil 1 (Node (newNode 2) 3 Nil 2) 3)) = false.
Proof.
  assert (H1 : heightOk (@Nil Z) = true) by reflexivity.
  assert (H2 : heightOk (Node (newNode 2) 3 Nil 2) = true) by reflexivity.
  assert (H3 : avl (Node (newNode 2) 3 Nil 2) = true) by reflexivity.
  assert (H4 : getHeight (Node (newNode 2) 3 Nil 2) - getHeight (@Nil Z) = 2) by reflexivity.
  assert (H5 : tiltedLeft (Node (newNode 2) 3 Nil 2) = true) by reflexivity.
  exact (conj H1 (conj H2 (conj H3 (conj H4 (conj H5
        (rebalance_right_left_unbalanced Nil 1 (Node (newNode 2) 3 Nil 2) 3 H1 H2 H3 H4 H5)))))).
Defined.
