(* ===== verification/BinTree.v ===== *)
(** * BinTree: the model of src/bintree.h

    [bintree] is the container: the root slot [root] and the counter
    [numItems].  Each public operation delegates to [BinNode] and then
    updates the counter; an exception escaping [binNode::insert] or
    [binNode::erase] skips the [numItems++] / [numItems--] that follows
    the call.  The theorems show that the counter always equals the
    number of nodes, that the container refines [SortedSpec] (with the
    extra [EmptyTree] error of [erase]), that every container reachable
    from [bintree()] through [insert] and [erase] passes [verifyTree],
    and that [findConst] finds an element just inserted and no longer
    finds one just erased.  The copy constructor ([copy]) and
    [operator=] ([assign], whose [None] stands for the dangling root it
    leaves when [other] is empty) are modelled without theorems of
    their own. *)

From Stdlib Require Import ZArith List String Bool Sorted Lia.
From S2P Require Import Prelude Element SortedSpec BinNode NodeErrors NodeHeight NodeOrder.
Import ListNotations.
Open Scope Z_scope.

Module BinTree.
Import BinNode.

Section BinTree.
Context {A : Type} `{Ordered A}.

(** [binNode<dataType> *root; int numItems;] *)
Record bintree : Type := mkTree { root : tree A; numItems : Z }.

(** [bintree() : root(NULL), numItems(0)]. *)
Definition empty_bintree : bintree := mkTree Nil 0.

(** [bintree(const bintree& other)]: a deep copy of the nodes and the
    counter. *)
Definition copy (other : bintree) : bintree :=
  mkTree (match root other with Nil => Nil | r => BinNode.copy r end) (numItems other).

Definition empty (t : bintree) : bool := numItems t =? 0.

Definition size (t : bintree) : Z := numItems t.

Definition treeHeight (t : bintree) : Z :=
  match root t with Nil => 0 | r => getHeight r end.

Definition maxTreeDepth (t : bintree) : Z :=
  match root t with Nil => 0 | r => BinNode.maxTreeDepth r end.

Definition numLeafNodes (t : bintree) : Z :=
  match root t with Nil => 0 | r => BinNode.numLeafNodes r end.

(** The private [numNodes()] used by [verifyTree]. *)
Definition numNodes (t : bintree) : Z :=
  match root t with Nil => 0 | r => BinNode.numNodes r end.

(** [insert(newData)]: [numItems++] runs only when the node insertion
    returns normally. *)
Definition insert (t : bintree) (newData : A) : outcome bintree :=
  match root t with
  | Nil => Normal (mkTree (newNode newData) (numItems t + 1))
  | r =>
      match BinNode.insert r newData with
      | Normal r' => Normal (mkTree r' (numItems t + 1))
      | Raise e r' => Raise e (mkTree r' (numItems t))
      end
  end.

Definition emptyTree : exn := invalid_argument "data does not exist in tree to erase".

(** [erase(delData)]. *)
Definition erase (t : bintree) (delData : A) : outcome bintree :=
  match root t with
  | Nil => Raise emptyTree t
  | r =>
      match BinNode.erase r delData with
      | Normal r' => Normal (mkTree r' (numItems t - 1))
      | Raise e r' => Raise e (mkTree r' (numItems t))
      end
  end.

(** [find(findData)]: the pointer into the tree, as in
    [BinNode.find]; a write through it rewrites the root slot. *)
Definition find (t : bintree) (findData : A) : option (A * (A -> bintree)) :=
  match root t with
  | Nil => None
  | r => option_map (fun '(y, set) => (y, fun v => mkTree (set v) (numItems t)))
                    (BinNode.find r findData)
  end.

Definition findConst (t : bintree) (findData : A) : option A :=
  match root t with Nil => None | r => BinNode.findConst r findData end.

(** [operator=(other)] on two distinct objects.  When [this] has a
    root and [other] has none, the root is deleted and the pointer is
    not reset: [None] is that state, a [bintree] whose root pointer
    dangles (any later use is undefined behaviour). *)
Definition assign (this other : bintree) : option bintree :=
  match root other with
  | Nil => match root this with Nil => Some this | _ => None end
  | r => Some (mkTree (BinNode.copy r) (numItems other))
  end.

(** [print()]: nothing for an empty container. *)
Definition print (toString : A -> string) (t : bintree) : list string :=
  match root t with Nil => [] | r => BinNode.print toString r end.

(** ** Abstract state and invariant *)

(** The elements in ascending order: the abstract state. *)
Definition elements (t : bintree) : list A := inorder (root t).

(** The counter equals the node count, every cached height is
    consistent and the in-order sequence is strictly sorted. *)
Definition treeOk (t : bintree) : Prop :=
  numItems t = numNodes t /\ heightOk (root t) = true /\ sorted (elements t).

(** Every state a program reaches from [bintree()] by a sequence of
    [insert] and [erase] calls, each of which may return or throw. *)
Inductive reachable : bintree -> Prop :=
| reach_empty : reachable empty_bintree
| reach_insert t x : reachable t -> reachable (outcome_state (insert t x))
| reach_erase t x : reachable t -> reachable (outcome_state (erase t x)).

Context `{VerifyOrdered A}.

(** [verifyTree(char *error)]: the count is compared only when the
    root exists. *)
Definition verifyTree (t : bintree) : verdict :=
  match root t with
  | Nil => Valid
  | r =>
      if negb (numNodes t =? numItems t) then Invalid "Num nodes not the same as size"
      else BinNode.verifyTree r
  end.
End BinTree.

Arguments bintree A : clear implicits.

(** ** The container invariant and the refinement *)

Section Theory.
Context {A : Type} `{OrderedLaws A}.
Implicit Types (t : bintree A) (x : A).

Lemma numNodes_inorder (r : tree A) : BinNode.numNodes r = Z.of_nat (List.length (inorder r)).
Proof.
  induction r as [|l IHl d r IHr h]; [reflexivity|].
  rewrite numNodes_Node, IHl, IHr. cbn [inorder]. rewrite length_app. cbn [List.length]. lia.
Qed.

Lemma numNodes_elements t : numNodes t = Z.of_nat (List.length (elements t)).
Proof. unfold numNodes, elements. destruct (root t); [reflexivity|]. apply numNodes_inorder. Qed.

Lemma bintree_eta t : mkTree (root t) (numItems t) = t.
Proof. destruct t; reflexivity. Qed.

(** [bintree::insert] refines [set_insert] on the elements: when
    it returns, the element is inserted in order and [size()] grows by
    one; when it throws ["dataItem already in tree"], the container is
    unchanged, its [size()] included. *)
Lemma insert_abstract t x :
  treeOk t ->
  match insert t x with
  | Normal t' => set_insert x (elements t) = Some (elements t') /\ size t' = size t + 1
  | Raise e t' => set_insert x (elements t) = None /\ e = alreadyInTree /\ t' = t
  end.
Proof.
  intros (_ & _ & Hs). unfold insert, elements, size in *.
  destruct (root t) as [|l d r h] eqn:Hr; [auto|].
  pose proof (node_insert_abstract (Node l d r h) x Hs) as Hspec.
  destruct (BinNode.insert _ x) as [c|e c]; simpl.
  - auto.
  - destruct Hspec as (? & ? & ->). rewrite <- Hr, bintree_eta. auto.
Qed.

(** C1: [bintree::insert] refines [set_insert] on the elements: when
    it returns, the element is inserted in order and [size()] grows by
    one; when it throws ["dataItem already in tree"], the container is
    unchanged, its [size()] included. *)
Theorem insert_refines t x :
  treeOk t ->
  match insert t x with
  | Normal t' => set_insert x (elements t) = Some (elements t') /\ size t' = size t + 1
  | Raise e t' => set_insert x (elements t) = None /\ e = alreadyInTree /\ t' = t
  end.
Proof. apply insert_abstract. Qed.

(** [bintree::erase] refines [set_erase] on the elements: when it
    returns, the element equal to the key is gone and [size()] shrinks
    by one; otherwise it throws ["data does not exist in tree to
    erase"] on an empty container and ["delItem not in tree"] on a
    non-empty one, and the container is unchanged. *)
Lemma erase_abstract t x :
  treeOk t ->
  match erase t x with
  | Normal t' => set_erase x (elements t) = Some (elements t') /\ size t' = size t - 1
  | Raise e t' =>
      set_erase x (elements t) = None /\ t' = t /\
      e = match root t with Nil => emptyTree | _ => notInTree end
  end.
Proof.
  intros (_ & _ & Hs). unfold erase, elements, size in *.
  destruct (root t) as [|l d r h] eqn:Hr; [auto|].
  pose proof (node_erase_abstract (Node l d r h) x Hs) as Hspec.
  destruct (BinNode.erase _ x) as [c|e c]; simpl.
  - auto.
  - destruct Hspec as (? & ? & ->). rewrite <- Hr, bintree_eta. auto.
Qed.

(** C2: [bintree::erase] refines [set_erase] on the elements: when it
    returns, the element equal to the key is gone and [size()] shrinks
    by one; otherwise it throws ["data does not exist in tree to
    erase"] on an empty container and ["delItem not in tree"] on a
    non-empty one, and the container is unchanged. *)
Theorem erase_refines t x :
  treeOk t ->
  match erase t x with
  | Normal t' => set_erase x (elements t) = Some (elements t') /\ size t' = size t - 1
  | Raise e t' =>
      set_erase x (elements t) = None /\ t' = t /\
      e = match root t with Nil => emptyTree | _ => notInTree end
  end.
Proof. apply erase_abstract. Qed.

(** [insert] keeps the container invariant, whether it returns
    or throws: the counter matches the nodes, the caches are
    consistent and the elements stay strictly sorted. *)
Lemma insert_keeps_treeOk t x : treeOk t -> treeOk (outcome_state (insert t x)).
Proof.
  intros Hok. pose proof (insert_abstract t x Hok) as Hspec.
  destruct Hok as (Hc & Hh & Hs).
  assert (Hh' : heightOk (root (outcome_state (insert t x))) = true).
  { unfold insert. destruct (root t) as [|l d r h]; [reflexivity|].
    pose proof (insert_keeps_heightOk (Node l d r h) x Hh).
    destruct (BinNode.insert _ x); exact H1. }
  destruct (insert t x) as [t'|e t']; simpl in *.
  - destruct Hspec as [Hset Hsz]. unfold set_insert in Hset.
    destruct (mem_list x (elements t)) eqn:Hm; [discriminate|]. injection Hset as Hel.
    unfold size in Hsz. repeat split; auto.
    + rewrite numNodes_elements, <- Hel, length_ins_list.
      rewrite numNodes_elements in Hc. lia.
    + rewrite <- Hel. apply sorted_ins_list; auto.
  - destruct Hspec as (_ & _ & ->). repeat split; auto.
Qed.

(** C4: [insert] keeps the container invariant, whether it returns
    or throws: the counter matches the nodes, the caches are
    consistent and the elements stay strictly sorted. *)
Theorem insert_treeOk t x : treeOk t -> treeOk (outcome_state (insert t x)).
Proof. apply insert_keeps_treeOk. Qed.

(** [erase] keeps the container invariant, whether it returns or
    throws. *)
Lemma erase_keeps_treeOk t x : treeOk t -> treeOk (outcome_state (erase t x)).
Proof.
  intros Hok. pose proof (erase_abstract t x Hok) as Hspec.
  destruct Hok as (Hc & Hh & Hs).
  assert (Hh' : heightOk (root (outcome_state (erase t x))) = true).
  { unfold erase. destruct (root t) as [|l d r h] eqn:Hr; [simpl; rewrite Hr; reflexivity|].
    pose proof (erase_keeps_heightOk (Node l d r h) x Hh).
    destruct (BinNode.erase _ x); exact H1. }
  destruct (erase t x) as [t'|e t']; simpl in *.
  - destruct Hspec as [Hset Hsz]. unfold set_erase in Hset.
    destruct (mem_list x (elements t)) eqn:Hm; [|discriminate]. injection Hset as Hel.
    unfold size in Hsz. repeat split; auto.
    + rewrite numNodes_elements, <- Hel. rewrite numNodes_elements in Hc.
      pose proof (length_del_list x (elements t) Hm). lia.
    + rewrite <- Hel. apply sorted_del_list; auto.
  - destruct Hspec as (_ & -> & _). repeat split; auto.
Qed.

(** C5: [erase] keeps the container invariant, whether it returns or
    throws. *)
Theorem erase_treeOk t x : treeOk t -> treeOk (outcome_state (erase t x)).
Proof. apply erase_keeps_treeOk. Qed.

(** C16: after a successful [insert] of [x], [findConst] finds [x]
    itself. *)
Theorem insert_then_find t x t' :
  treeOk t -> insert t x = Normal t' -> findConst t' x = Some x.
Proof.
  intros Hok E. pose proof (insert_abstract t x Hok) as Hspec. rewrite E in Hspec.
  destruct Hspec as [Hset _]. pose proof (insert_keeps_treeOk t x Hok) as (_ & _ & Hs').
  rewrite E in Hs'. simpl in Hs'. unfold set_insert in Hset.
  destruct (mem_list x (elements t)) eqn:Hm; [discriminate|]. injection Hset as Hel.
  unfold findConst. destruct (root t') as [|l d r h] eqn:Hr.
  - apply (f_equal (@List.length A)) in Hel. unfold elements in Hel.
    rewrite Hr, length_ins_list in Hel. discriminate.
  - rewrite <- Hr, findConst_lookup by exact Hs'. fold (elements t'). rewrite <- Hel.
    apply lookup_ins_list; exact Hm.
Qed.

(** C17: after a successful [erase] of [x], [findConst] reports that
    no element equal to [x] is left. *)
Theorem erase_then_find t x t' :
  treeOk t -> erase t x = Normal t' -> findConst t' x = None.
Proof.
  intros Hok E. pose proof (erase_abstract t x Hok) as Hspec. rewrite E in Hspec.
  destruct Hspec as [Hset _]. destruct Hok as (_ & _ & Hs).
  unfold set_erase in Hset. destruct (mem_list x (elements t)); [|discriminate].
  injection Hset as Hel. unfold findConst. destruct (root t') as [|l d r h] eqn:Hr; [reflexivity|].
  rewrite <- Hr. unfold elements in *. rewrite findConst_lookup, <- Hel.
  - apply lookup_del_list; exact Hs.
  - rewrite <- Hel. apply sorted_del_list; exact Hs.
Qed.

Lemma findConst_elements t x : sorted (elements t) -> findConst t x = lookup_list x (elements t).
Proof.
  unfold findConst, elements. intros Hs. rewrite <- findConst_lookup by exact Hs.
  destruct (root t); reflexivity.
Qed.

Lemma find_findConst t x : option_map fst (find t x) = findConst t x.
Proof.
  unfold find, findConst. destruct (root t) as [|l d r h]; [reflexivity|].
  rewrite <- find_fst. destruct (BinNode.find (Node l d r h) x) as [[]|]; reflexivity.
Qed.

(** The pointer [find] returns designates an element equal to the key;
    writing an element equal to it keeps the container valid and
    replaces that element in the sequence. *)
Lemma find_focus_tree t x y set :
  treeOk t -> find t x = Some (y, set) ->
  (x ==. y) = true /\
  exists L R, elements t = L ++ y :: R /\
    forall v, (v ==. y) = true -> treeOk (set v) /\ elements (set v) = L ++ v :: R.
Proof.
  intros (Hn & Hh & Hs) Hf. rewrite numNodes_elements in Hn. unfold find in Hf. unfold elements in *.
  destruct (root t) as [|l d r h] eqn:Er; [discriminate|].
  destruct (BinNode.find (Node l d r h) x) as [[y' set']|] eqn:E; [|discriminate].
  cbn [option_map] in Hf. injection Hf as <- <-.
  destruct (find_focus _ _ _ _ E) as (Hfc & L & R & Hin & _ & Hset).
  rewrite findConst_lookup in Hfc by exact Hs. split; [exact (proj1 (lookup_list_some _ _ _ Hfc))|].
  exists L, R. split; [exact Hin|]. intros v Hv. destruct (Hset v) as (Hi & _ & Hk).
  unfold treeOk, elements. cbn [root numItems]. rewrite Hi. repeat split.
  - rewrite numNodes_elements. unfold elements. cbn [root]. rewrite Hn, Hin, Hi, !length_app.
    reflexivity.
  - rewrite Hk. exact Hh.
  - rewrite Hin in Hs. eapply sorted_replace_eq; eauto.
Qed.

Lemma print_elements toString t :
  print toString t = map (fun d => (toString d ++ newline)%string) (elements t).
Proof.
  unfold print, elements. destruct (root t) as [|l d r h]; [reflexivity|].
  generalize (Node l d r h). clear. intros t.
  induction t as [|l IHl d r IHr h]; [reflexivity|].
  cbn [BinNode.print inorder]. rewrite IHl, IHr, map_app. reflexivity.
Qed.

End Theory.

(** ** Containers reachable through the public API *)

Section Reachable.
Context {A : Type} `{OrderedLaws A}.

Lemma reachable_treeOk t : reachable t -> treeOk t.
Proof.
  induction 1; auto using insert_keeps_treeOk, erase_keeps_treeOk.
  repeat split; [constructor].
Qed.

Context `{VerifyOrdered A} `{!VerifyLaws A}.

(** C3: [verifyTree] succeeds on every container built through the
    public [insert] and [erase] API (spec section 8). *)
Theorem reachable_verifyTree t : reachable t -> verifyTree t = Valid.
Proof.
  intros (Hc & Hh & Hs)%reachable_treeOk. unfold verifyTree.
  destruct (root t) as [|l d r h] eqn:Hr; [reflexivity|].
  rewrite Hc, Z.eqb_refl. simpl negb. cbv iota.
  apply verifyTree_iff. split; [exact Hh|].
  unfold elements in Hs. rewrite Hr in Hs. apply sorted_locallyOrdered; exact Hs.
Qed.
End Reachable.

(** ** Concrete instances *)

Lemma treeOk_sample : treeOk (mkTree (Node (newNode 1) 2 (newNode 3) 2) 3).
Proof. split; [reflexivity|]. split; [reflexivity|]. repeat constructor. Qed.

Lemma insert_refines_witness :
  treeOk (mkTree (Node (newNode 1) 2 (newNode 3) 2) 3) /\
  match insert (mkTree (Node (newNode 1) 2 (newNode 3) 2) 3) 4 with
  | Normal t' =>
    set_insert 4 (elements (mkTree (Node (newNode 1) 2 (newNode 3) 2) 3)) = Some (elements t') /\
    size t' = size (mkTree (Node (newNode 1) 2 (newNode 3) 2) 3) + 1
  | Raise e t' =>
    set_insert 4 (elements (mkTree (Node (newNode 1) 2 (newNode 3) 2) 3)) = None /\
    e = alreadyInTree /\ t' = mkTree (Node (newNode 1) 2 (newNode 3) 2) 3
  end.
Proof. split; [exact treeOk_sample|]. exact (insert_refines _ 4 treeOk_sample). Defined.

Lemma erase_refines_witness :
  treeOk (mkTree (Node (newNode 1) 2 (newNode 3) 2) 3) /\
  match erase (mkTree (Node (newNode 1) 2 (newNode 3) 2) 3) 2 with
  | Normal t' =>
    set_erase 2 (elements (mkTree (Node (newNode 1) 2 (newNode 3) 2) 3)) = Some (elements t') /\
    size t' = size (mkTree (Node (newNode 1) 2 (newNode 3) 2) 3) - 1
  | Raise e t' =>
    set_erase 2 (elements (mkTree (Node (newNode 1) 2 (newNode 3) 2) 3)) = None /\
    t' = mkTree (Node (newNode 1) 2 (newNode 3) 2) 3 /\
    e = match root (mkTree (Node (newNode 1) 2 (newNode 3) 2) 3) with
        | Nil => emptyTree | _ => notInTree end
  end.
Proof. split; [exact treeOk_sample|]. exact (erase_refines _ 2 treeOk_sample). Defined.

Lemma insert_treeOk_witness :
  treeOk (mkTree (Node (newNode 1) 2 (newNode 3) 2) 3) /\
  treeOk (outcome_state (insert (mkTree (Node (newNode 1) 2 (newNode 3) 2) 3) 2)).
Proof. split; [exact treeOk_sample|]. exact (insert_treeOk _ 2 treeOk_sample). Defined.

Lemma erase_treeOk_witness :
  treeOk (mkTree (Node (newNode 1) 2 (newNode 3) 2) 3) /\
  treeOk (outcome_state (erase (mkTree (Node (newNode 1) 2 (newNode 3) 2) 3) 1)).
Proof. split; [exact treeOk_sample|]. exact (erase_treeOk _ 1 treeOk_sample). Defined.

Lemma insert_then_find_witness :
  treeOk (mkTree (Node (newNode 1) 2 (newNode 3) 2) 3) /\
  match insert (mkTree (Node (newNode 1) 2 (newNode 3) 2) 3) 4 with
  | Normal t' => insert (mkTree (Node (newNode 1) 2 (newNode 3) 2) 3) 4 = Normal t' /\
               findConst t' 4 = Some 4
  | Raise _ _ => False
  end.
Proof.
  split; [exact treeOk_sample|].
  destruct (insert (mkTree (Node (newNode 1) 2 (newNode 3) 2) 3) 4) as [t'|e t'] eqn:E;
  [|discriminate].
  exact (conj eq_refl (insert_then_find _ 4 t' treeOk_sample E)).
Defined.

Lemma erase_then_find_witness :
  treeOk (mkTree (Node (newNode 1) 2 (newNode 3) 2) 3) /\
  match erase (mkTree (Node (newNode 1) 2 (newNode 3) 2) 3) 2 with
  | Normal t' => erase (mkTree (Node (newNode 1) 2 (newNode 3) 2) 3) 2 = Normal t' /\
               findConst t' 2 = None
  | Raise _ _ => False
  end.
Proof.
  split; [exact treeOk_sample|].
  destruct (erase (mkTree (Node (newNode 1) 2 (newNode 3) 2) 3) 2) as [t'|e t'] eqn:E;
  [|discriminate].
  exact (conj eq_refl (erase_then_find _ 2 t' treeOk_sample E)).
Defined.

Lemma reachable_verifyTree_witness :
  reachable (outcome_state (erase (outcome_state (insert (outcome_state
  (insert empty_bintree 2)) 1)) 2)) /\
  verifyTree (outcome_state (erase (outcome_state (insert (outcome_state
  (insert empty_bintree 2)) 1)) 2)) = Valid.
Proof.
  assert (R : reachable (outcome_state (erase (outcome_state (insert (outcome_state
  (insert (@empty_bintree Z) 2)) 1)) 2))) by (repeat constructor).
  exact (conj R (reachable_verifyTree _ R)).
Defined.

End BinTree.
