(* ===== verification/TreeBalance.v ===== *)
(** * TreeBalance: [bintree::balance()]

    [balance()] returns [log2(numItems + 1) / maxTreeDepth() *
    (numLeafNodes() * 2) / (numItems + 1)], [1.0] for an empty tree,
    with [log2] computed as [log10(numItems + 1) / log10(2)].  The
    value is modelled in the real numbers of the Standard Library: the
    rounding of [double] is not.  Its comment promises a value of [1]
    for a perfectly balanced tree and less for others; [balance_bounds]
    and [balance_one] prove that on every valid tree [0 < balance <= 1],
    with [1] exactly when the tree has [2^depth - 1] nodes and
    [(numItems + 1) / 2] leaves, i.e. is perfect. *)

From Stdlib Require Import ZArith Reals Lra Psatz Lia.
From S2P Require Import Prelude Element SortedSpec BinNode NodeHeight BinTree.
Import BinNode BinTree.
Open Scope Z_scope.

Section Balance.
Context {A : Type} `{Ordered A}.

(** [double balance() const]. *)
Definition balance (t : bintree A) : R :=
  if numItems t =? 0 then 1%R else
  let log10 x := (ln x / ln 10)%R in
  let log2numItems := (log10 (IZR (numItems t + 1)) / log10 2)%R in
  (log2numItems / IZR (maxTreeDepth t) * IZR (numLeafNodes t * 2) / IZR (numItems t + 1))%R.

(** ** Shape bounds *)

Lemma leafCount_Node (l r : tree A) d h :
  leafCount (Node l d r h) = match l, r with Nil, Nil => 1 | _, _ => leafCount l + leafCount r end.
Proof. destruct l, r; reflexivity. Qed.

Lemma leafCount_bound (t : tree A) : 2 * leafCount t <= BinNode.numNodes t + 1.
Proof.
  induction t as [|l IHl d r IHr h]; [cbn; lia|]. rewrite numNodes_Node, leafCount_Node.
  destruct l, r; cbn [BinNode.numNodes leafCount] in *; lia.
Qed.

Lemma leafCount_pos (t : tree A) : 0 <= leafCount t /\ (t <> Nil -> 1 <= leafCount t).
Proof.
  induction t as [|l [Hl0 Hl1] d r [Hr0 Hr1] h]; [cbn; split; [lia|congruence]|].
  enough (1 <= leafCount (Node l d r h)) by (split; [lia|auto]). rewrite leafCount_Node.
  destruct l as [|? ? ? ?], r as [|? ? ? ?]; [lia| | |];
    [specialize (Hr1 ltac:(discriminate))|specialize (Hl1 ltac:(discriminate))|specialize (Hl1 ltac:(discriminate))];
    lia.
Qed.

(** The nodes fit in a complete tree of the depth [maxTreeDepth]
    recomputes. *)
Lemma depth_bound (t : tree A) :
  0 <= BinNode.maxTreeDepth t /\ BinNode.numNodes t + 1 <= 2 ^ BinNode.maxTreeDepth t.
Proof.
  induction t as [|l [Ll Pl] d r [Lr Pr] h]; [cbn; lia|].
  rewrite numNodes_Node, maxTreeDepth_Node.
  set (m := Z.max (BinNode.maxTreeDepth l) (BinNode.maxTreeDepth r)).
  assert (2 ^ BinNode.maxTreeDepth l <= 2 ^ m) by (apply Z.pow_le_mono_r; lia).
  assert (2 ^ BinNode.maxTreeDepth r <= 2 ^ m) by (apply Z.pow_le_mono_r; lia).
  replace (1 + m) with (Z.succ m) by lia. rewrite Z.pow_succ_r by lia. lia.
Qed.

(** ** Real arithmetic *)

Lemma ratio_le_one (x y : R) : (0 < x <= y)%R -> (0 < x / y <= 1)%R /\ (x / y = 1 <-> x = y)%R.
Proof.
  intros [Hx Hy]. assert (Hy0 : (0 < y)%R) by lra.
  split; [split|split].
  - apply Rdiv_lt_0_compat; lra.
  - apply (Rmult_le_reg_r y); [exact Hy0|]. unfold Rdiv. rewrite Rmult_assoc, Rinv_l by lra. lra.
  - intros E. apply (Rmult_eq_compat_r y) in E. unfold Rdiv in E.
    rewrite Rmult_assoc, Rinv_l, Rmult_1_r in E by lra. lra.
  - intros ->. apply Rdiv_diag. lra.
Qed.

Lemma prod_le_one (a b : R) :
  (0 < a <= 1)%R -> (0 < b <= 1)%R -> (0 < a * b <= 1)%R /\ (a * b = 1 <-> a = 1 /\ b = 1)%R.
Proof.
  intros Ha Hb. split; [split; nra|]. split; [|intros [-> ->]; ring].
  intros E. split; nra.
Qed.

Lemma ln2_pos : (0 < ln 2)%R.
Proof. rewrite <- ln_1. apply ln_increasing; lra. Qed.

Lemma ln10_pos : (0 < ln 10)%R.
Proof. rewrite <- ln_1. apply ln_increasing; lra. Qed.

(** [log10(x) / log10(2)] is [log2(x)]. *)
Lemma log10_ratio x : ((ln x / ln 10) / (ln 2 / ln 10) = ln x / ln 2)%R.
Proof. pose proof ln2_pos. pose proof ln10_pos. field. lra. Qed.

Lemma ln_pow2 d : 0 <= d -> ln (IZR (2 ^ d)) = (IZR d * ln 2)%R.
Proof.
  intros Hd. rewrite <- (Z2Nat.id d Hd) at 1. rewrite <- pow_IZR, ln_pow by lra.
  rewrite INR_IZR_INZ, Z2Nat.id by exact Hd. reflexivity.
Qed.

(** [log2(n + 1)] against the depth [d] of a tree of [n >= 1] nodes. *)
Lemma log2_bound n d :
  1 <= n -> 0 <= d -> n + 1 <= 2 ^ d ->
  (0 < ln (IZR (n + 1)) / ln 2 <= IZR d)%R /\ ((ln (IZR (n + 1)) / ln 2 = IZR d)%R <-> n + 1 = 2 ^ d).
Proof.
  intros Hn Hd Hp. pose proof ln2_pos as H2.
  assert (Hx : (1 < IZR (n + 1))%R) by (apply IZR_lt; lia).
  assert (Hxy : (IZR (n + 1) <= IZR (2 ^ d))%R) by (apply IZR_le; exact Hp).
  assert (Hl : (ln (IZR (n + 1)) <= IZR d * ln 2)%R).
  { rewrite <- ln_pow2 by exact Hd. destruct (Rle_lt_or_eq_dec _ _ Hxy) as [Hlt| ->]; [|lra].
    left. apply ln_increasing; lra. }
  assert (Hpos : (0 < ln (IZR (n + 1)))%R) by (rewrite <- ln_1; apply ln_increasing; lra).
  split; [split|split].
  - apply Rdiv_lt_0_compat; lra.
  - apply (Rmult_le_reg_r (ln 2)); [exact H2|]. unfold Rdiv. rewrite Rmult_assoc, Rinv_l by lra. lra.
  - intros E. apply eq_IZR, ln_inv; [lra|apply IZR_lt, Z.pow_pos_nonneg; lia|].
    rewrite ln_pow2 by exact Hd. rewrite <- E. field. lra.
  - intros E. rewrite E, ln_pow2 by exact Hd. field. lra.
Qed.

(** ** The value of [balance()] *)

Lemma maxTreeDepth_root (t : bintree A) : maxTreeDepth t = BinNode.maxTreeDepth (root t).
Proof. unfold maxTreeDepth. destruct (root t); reflexivity. Qed.

Lemma numLeafNodes_root (t : bintree A) : numLeafNodes t = BinNode.numLeafNodes (root t).
Proof. unfold numLeafNodes. destruct (root t); reflexivity. Qed.

Lemma numNodes_root (t : bintree A) : BinTree.numNodes t = BinNode.numNodes (root t).
Proof. unfold BinTree.numNodes. destruct (root t); reflexivity. Qed.

(** On a non-empty valid tree [balance()] is the product of
    [log2(numItems + 1) / maxTreeDepth()] and
    [2 * numLeafNodes() / (numItems + 1)], each in [(0, 1]]. *)
Lemma balance_split (t : bintree A) :
  treeOk t -> numItems t <> 0 ->
  exists a b, balance t = (a * b)%R /\ (0 < a <= 1)%R /\ (0 < b <= 1)%R /\
    (a = 1%R <-> numItems t + 1 = 2 ^ maxTreeDepth t) /\
    (b = 1%R <-> numLeafNodes t * 2 = numItems t + 1).
Proof.
  intros (Hn & Hh & _) Hne. rewrite numNodes_root in Hn.
  rewrite maxTreeDepth_root, numLeafNodes_root, (numLeafNodes_leafCount _ Hh).
  destruct (depth_bound (root t)) as [Hd0 Hd]. pose proof (leafCount_bound (root t)) as HL.
  assert (Hr : root t <> Nil) by (intros E; rewrite E in Hn; exact (Hne Hn)).
  pose proof (proj2 (leafCount_pos (root t)) Hr) as HL1.
  assert (Hd1 : 1 <= BinNode.maxTreeDepth (root t)).
  { destruct (root t) as [|l d r h]; [contradiction|]. rewrite maxTreeDepth_Node.
    pose proof (proj1 (depth_bound l)). pose proof (proj1 (depth_bound r)). lia. }
  destruct (log2_bound (numItems t) (BinNode.maxTreeDepth (root t)) ltac:(lia) Hd0 ltac:(lia)) as [Ha Ea].
  exists (ln (IZR (numItems t + 1)) / ln 2 / IZR (BinNode.maxTreeDepth (root t)))%R,
         (IZR (leafCount (root t) * 2) / IZR (numItems t + 1))%R.
  destruct (ratio_le_one _ _ Ha) as [Ha' Ea'].
  destruct (ratio_le_one (IZR (leafCount (root t) * 2)) (IZR (numItems t + 1))) as [Hb Eb].
  { split; apply IZR_lt || apply IZR_le; lia. }
  split; [|split; [exact Ha'|split; [exact Hb|split]]].
  - unfold balance. rewrite (proj2 (Z.eqb_neq _ _) Hne), maxTreeDepth_root, numLeafNodes_root,
      (numLeafNodes_leafCount _ Hh), log10_ratio. unfold Rdiv. ring.
  - rewrite Ea'. exact Ea.
  - rewrite Eb. split; [apply eq_IZR|intros ->; reflexivity].
Qed.

Lemma balance_empty (t : bintree A) : numItems t = 0 -> balance t = 1%R.
Proof. intros E. unfold balance. rewrite E. reflexivity. Qed.

Lemma balance_bounds_aux (t : bintree A) : treeOk t -> (0 < balance t <= 1)%R.
Proof.
  intros Hok. destruct (Z.eq_dec (numItems t) 0) as [E|Hne]; [rewrite (balance_empty t E); lra|].
  destruct (balance_split t Hok Hne) as (a & b & -> & Ha & Hb & _). exact (proj1 (prod_le_one a b Ha Hb)).
Qed.

Lemma balance_one_aux (t : bintree A) :
  treeOk t ->
  (balance t = 1%R <-> numItems t = 0 \/
     (numItems t + 1 = 2 ^ maxTreeDepth t /\ numLeafNodes t * 2 = numItems t + 1)).
Proof.
  intros Hok. destruct (Z.eq_dec (numItems t) 0) as [E|Hne].
  - rewrite (balance_empty t E). tauto.
  - destruct (balance_split t Hok Hne) as (a & b & -> & Ha & Hb & Ea & Eb).
    rewrite (proj2 (prod_le_one a b Ha Hb)), Ea, Eb. tauto.
Qed.

(** ** What [balance()] measures *)

(** C22: on every valid tree (counter equal to the node count, heights
    consistent, elements sorted) [balance()] is positive and at most
    [1], so the division by [maxTreeDepth()] is never by zero. *)
Theorem balance_bounds (t : bintree A) : treeOk t -> (0 < balance t <= 1)%R.
Proof. apply balance_bounds_aux. Qed.

(** C23: as its comment says, [balance()] is [1] exactly on a perfectly
    balanced tree: empty, or with [2^depth - 1] nodes of which
    [(numItems + 1) / 2] are leaves. *)
Theorem balance_one (t : bintree A) :
  treeOk t ->
  (balance t = 1%R <-> numItems t = 0 \/
     (numItems t + 1 = 2 ^ maxTreeDepth t /\ numLeafNodes t * 2 = numItems t + 1)).
Proof. apply balance_one_aux. Qed.

End Balance.

(** ** Concrete instances *)

Lemma balance_bounds_witness :
  treeOk (mkTree (Node (newNode 1) 2 (newNode 3) 2) 3) /\
  (0 < balance (mkTree (Node (newNode 1) 2 (newNode 3) 2) 3) <= 1)%R.
Proof. split; [exact treeOk_sample|]. exact (balance_bounds _ treeOk_sample). Defined.

Lemma balance_one_witness : balance (mkTree (Node (newNode 1) 2 (newNode 3) 2) 3) = 1%R.
Proof. apply (proj2 (balance_one _ treeOk_sample)). right. split; reflexivity. Defined.
