(* ===== verification/Scenarios.v ===== *)
(** * Scenarios: concrete runs of the container on [int] elements

    The scenarios of spec section 8 and the runs that show where the
    code departs from the spec, evaluated on the model with [Z]
    elements ordered by [<] and [==] (the order [MazePoint] and
    [MazeRow] use on their coordinate): the spec's insert and erase
    scenarios, an erase that leaves the tree unbalanced and a tree out
    of order that [verifyTree] accepts.  [insertAll] is the test
    driver: a sequence of [bintree::insert] calls that stops at the
    first exception, as an uncaught C++ exception would. *)

From Stdlib Require Import ZArith List String Bool Sorted Lia.
From S2P Require Import Prelude Element SortedSpec BinNode NodeHeight NodeOrder NodeBalance BinTree.
Import ListNotations BinNode BinTree.
Open Scope Z_scope.

Fixpoint insertAll (t : bintree Z) (xs : list Z) : outcome (bintree Z) :=
  match xs with
  | [] => Normal t
  | x :: xs' =>
      match BinTree.insert t x with
      | Normal t' => insertAll t' xs'
      | Raise e t' => Raise e t'
      end
  end.

Definition build (xs : list Z) : bintree Z := outcome_state (insertAll empty_bintree xs).

(** spec scenario: inserting 1, 5, 3, 4, 2 into an empty container
    raises nothing and gives [size() == 5], [height() <= 3], a
    successful [verifyTree] and the in-order sequence 1, 2, 3, 4, 5. *)
Theorem scenario_insert_15342 :
  raised (insertAll empty_bintree [1; 5; 3; 4; 2]) = false /\
  size (build [1; 5; 3; 4; 2]) = 5 /\ treeHeight (build [1; 5; 3; 4; 2]) <= 3 /\
  BinTree.verifyTree (build [1; 5; 3; 4; 2]) = Valid /\
  elements (build [1; 5; 3; 4; 2]) = [1; 2; 3; 4; 5].
Proof. repeat split; reflexivity. Qed.

(** spec scenario: inserting 1 to 7 in ascending order gives height
    3, not 7, and a balanced tree. *)
Theorem scenario_ascending_height :
  treeHeight (build [1; 2; 3; 4; 5; 6; 7]) = 3 /\ avl (root (build [1; 2; 3; 4; 5; 6; 7])) = true.
Proof. split; reflexivity. Qed.

(** spec scenario: erasing the root element 3 of the container
    built from 1, 5, 3, 4, 2 leaves 1, 2, 4, 5 retrievable, 3 gone and
    the tree balanced. *)
Theorem scenario_erase_root :
  root (build [1; 5; 3; 4; 2]) <> Nil /\
  (exists d l r h, root (build [1; 5; 3; 4; 2]) = Node l d r h /\ d = 3) /\
  match BinTree.erase (build [1; 5; 3; 4; 2]) 3 with
  | Normal t' =>
      map (findConst t') [1; 2; 4; 5] = [Some 1; Some 2; Some 4; Some 5] /\
      findConst t' 3 = None /\ avl (root t') = true
  | Raise _ _ => False
  end.
Proof.
  split; [discriminate|]. split; [do 4 eexists; split; reflexivity|].
  vm_compute. repeat split.
Qed.

(** erasing the two-child root 4 of a balanced tree splices its
    left subtree (height 3) under the left-most node 5 of its right
    subtree, where the slope reaches 3; the single rotations that follow
    (all on the left side, which the code handles correctly) cannot
    repair it, and the result is not AVL-balanced. *)
Theorem erase_splice_breaks_avl :
  avl (root (build [0; 1; 2; 4; 6; 5; 3])) = true /\
  getHeight (root (build [0; 1; 2; 4; 6; 5; 3])) = 4 /\
  match BinTree.erase (build [0; 1; 2; 4; 6; 5; 3]) 4 with
  | Normal t' => avl (root t') = false /\ elements t' = [0; 1; 2; 3; 5; 6]
  | Raise _ _ => False
  end.
Proof. vm_compute. repeat split. Qed.

(** [verifyTree] compares each child with its parent only: a tree
    whose grandchild 5 lies left of 3 passes, although its in-order
    sequence 1, 5, 3 is not sorted. *)
Theorem verify_misses_deep_disorder :
  let t := Node (Node Nil 1 (Node Nil 5 Nil 1) 2) 3 Nil 3 in
  BinNode.verifyTree t = Valid /\ ~ sorted (inorder t).
Proof.
  split; [reflexivity|]. simpl. unfold sorted. intros Hs.
  apply StronglySorted_inv in Hs as [Hs _]. apply StronglySorted_inv in Hs as [_ Hf].
  inversion Hf as [|? ? Hlt _]. discriminate.
Qed.
