(* ===== verification/Process.v ===== *)
(** * Process: how the maze program stops

    Besides returning, a step of src/assign2.cpp can end the process:
    [exit(0)] after printing a message, an exception of the container
    that nobody catches ([std::terminate]), or an operation whose
    result the language leaves undefined (the program reads an
    uninitialised [char] or [int]).  [run S] is the state a step leaves
    behind or the way the process stopped; [bind_run] sequences steps.
    [of_outcome] turns a container call into a step: an exception that
    escapes it stops the process.  A loop whose bound is not structural
    runs on fuel; [OutOfFuel] is the fuel running out, a value the
    program never produces, and the totality theorems show that the
    fuel each definition computes is enough.  [forLoop] is the source's
    [for (i = i0; cond; i++) body] with a condition read from the
    current state. *)

From Stdlib Require Import ZArith List String Lia.
From S2P Require Import Prelude.
Import ListNotations.
Open Scope Z_scope.

Inductive halt : Type :=
| exit0 (output : list string)      (** [cout << ...; exit(0);] *)
| uncaught (e : exn)                 (** an exception escapes [main] *)
| undefined (what : string).         (** the behaviour is undefined *)

Inductive run (S : Type) : Type :=
| Running (s : S)
| Halted (h : halt)
| OutOfFuel.
Arguments Running {S} s.
Arguments Halted {S} h.
Arguments OutOfFuel {S}.

Definition bind_run {S T} (r : run S) (k : S -> run T) : run T :=
  match r with Running s => k s | Halted h => Halted h | OutOfFuel => OutOfFuel end.

Notation "x <-- r ;; k" := (bind_run r (fun x => k))
  (at level 64, r at next level, right associativity) : mazesolver_scope.

Definition of_outcome {S} (o : outcome S) : run S :=
  match o with Normal s => Running s | Raise e _ => Halted (uncaught e) end.

(** [for (; cond(s, i); i++) s = body(s, i);] on at most [fuel] tests of
    the condition. *)
Fixpoint forLoop {St} (fuel : nat) (cond : St -> Z -> bool) (body : St -> Z -> run St)
    (s : St) (i : Z) : run St :=
  match fuel with
  | O => OutOfFuel
  | S fuel' =>
      if cond s i then bind_run (body s i) (fun s' => forLoop fuel' cond body s' (i + 1))
      else Running s
  end.

Lemma bind_run_Running {S T} (s : S) (k : S -> run T) : bind_run (Running s) k = k s.
Proof. reflexivity. Qed.

Lemma bind_run_Halted {S T} (h : halt) (k : S -> run T) : bind_run (Halted h) k = Halted h.
Proof. reflexivity. Qed.

Lemma bind_run_inv {S T} (r : run S) (k : S -> run T) (t : T) :
  bind_run r k = Running t -> exists s, r = Running s /\ k s = Running t.
Proof. destruct r; simpl; [eauto|discriminate|discriminate]. Qed.

Lemma bind_run_fuel {S T} (r : run S) (k : S -> run T) :
  r <> OutOfFuel -> (forall s, r = Running s -> k s <> OutOfFuel) -> bind_run r k <> OutOfFuel.
Proof. destruct r; simpl; [eauto|discriminate|congruence]. Qed.

Section ForLoop.
Context {St : Type} (cond : St -> Z -> bool) (body : St -> Z -> run St).

(** The loop rule: a property [P] of the state and the index that the
    body keeps, under which the condition bounds the index by [B] and
    the body returns, makes the loop return on fuel one more than the
    number of iterations left, in a state where [P] holds and the
    condition fails. *)
Lemma forLoop_run (P : St -> Z -> Prop) (B : Z) fuel s i :
  P s i ->
  (forall s i, P s i -> cond s i = true -> i < B) ->
  (forall s i, P s i -> cond s i = true -> exists s', body s i = Running s' /\ P s' (i + 1)) ->
  (Z.to_nat (B - i) < fuel)%nat ->
  exists s' j, forLoop fuel cond body s i = Running s' /\ P s' j /\ cond s' j = false.
Proof.
  intros HP Hc Hb. revert s i HP. induction fuel as [|fuel IH]; intros s i HP Hf; [lia|].
  cbn [forLoop]. destruct (cond s i) eqn:C; [|eauto].
  destruct (Hb _ _ HP C) as (s' & -> & HP'). cbn [bind_run]. apply IH; [exact HP'|].
  specialize (Hc _ _ HP C). lia.
Qed.
End ForLoop.

(** ** Related runs *)

(** Two runs that agree: both go on, in related states, or both stop
    the same way. *)
Definition runRel {A B} (R : A -> B -> Prop) (r1 : run A) (r2 : run B) : Prop :=
  match r1, r2 with
  | Running a, Running b => R a b
  | Halted h, Halted h' => h = h'
  | OutOfFuel, OutOfFuel => True
  | _, _ => False
  end.

Lemma runRel_bind {A B C D} (R : A -> B -> Prop) (R' : C -> D -> Prop) r1 r2
    (k1 : A -> run C) (k2 : B -> run D) :
  runRel R r1 r2 -> (forall a b, R a b -> runRel R' (k1 a) (k2 b)) ->
  runRel R' (bind_run r1 k1) (bind_run r2 k2).
Proof. destruct r1, r2; cbn; intros; subst; auto; contradiction. Qed.

Lemma runRel_Running {A B} (R : A -> B -> Prop) a b : R a b -> runRel R (Running a) (Running b).
Proof. exact (fun H => H). Qed.

Lemma runRel_fuel {A B} (R : A -> B -> Prop) r1 r2 :
  runRel R r1 r2 -> r2 <> OutOfFuel -> r1 <> OutOfFuel.
Proof. destruct r1, r2; cbn; congruence || tauto. Qed.

Lemma runRel_halted {A B} (R : A -> B -> Prop) h :
  runRel R (@Halted A h) (@Halted B h).
Proof. reflexivity. Qed.

#[export] Hint Resolve runRel_Running runRel_halted : mazesolver.
