(* ===== verification/MazeRow.v ===== *)
(** * MazeRow: the cells and rows of src/assign2.cpp

    [MazePoint] is one character of the maze with its column [x]; it is
    ordered by [x] alone ([operator<], [operator==]).  [MazeRow] is a
    [bintree<MazePoint>] with its row number [y], ordered by [y].  The
    row operations are modelled as the code writes them on top of
    [BinTree]: [toString] looks up every column [0 .. size()-1],
    [searchMazePoint] returns the cell's character or, when the column
    is absent, the uninitialised [char c] ([None]), [changeMazePoint]
    finds the cell and, unless it holds ['s'], erases it and inserts a
    new cell with the new character, and [insertMazePointsIntoRow]
    inserts one cell per character of the line or exits on an invalid
    one.  The theorems describe a row by the list of its characters:
    loading a line gives that list, [toString] gives it back, and the
    search and the update act on it by position. *)

From Stdlib Require Import ZArith List String Ascii Bool Sorted Lia.
From S2P Require Import Prelude Element SortedSpec BinNode NodeOrder BinTree Process.
Import ListNotations BinNode BinTree.
Open Scope Z_scope.

(** ** Cells *)

Module MazePoint.
(** [char value; int x;] *)
Record MazePoint : Type := mkPoint { value : ascii; x : Z }.
End MazePoint.
Import MazePoint.

(** [MazePoint()]: a blank cell at column 0. *)
Definition MazePoint0 : MazePoint := mkPoint " " 0.

(** [MazePoint(int i)]: a blank cell at column [i]. *)
Definition MazePoint_at (i : Z) : MazePoint := mkPoint " " i.

Definition getValue (p : MazePoint) : ascii := value p.
Definition setValue (p : MazePoint) (c : ascii) : MazePoint := mkPoint c (x p).
Definition getX (p : MazePoint) : Z := x p.

(** [operator<] and [operator==] compare [x]. *)
#[export] Instance MazePoint_ordered : Ordered MazePoint := keyed_ordered x.
#[export] Instance MazePoint_laws : OrderedLaws MazePoint := keyed_laws x.

(** ** Rows *)

Module MazeRow.
(** [bintree<MazePoint> mazePoints; int y;] *)
Record MazeRow : Type := mkRow { mazePoints : bintree MazePoint; y : Z }.
End MazeRow.
Import MazeRow.

(** [MazeRow()] and [MazeRow(int i)]. *)
Definition MazeRow0 : MazeRow := mkRow empty_bintree 0.
Definition MazeRow_at (i : Z) : MazeRow := mkRow empty_bintree i.

Definition getY (r : MazeRow) : Z := y r.

(** [rowLength()]: [mazePoints.size()]. *)
Definition rowLength (r : MazeRow) : Z := size (mazePoints r).

(** [lo, lo+1, ..., lo+n-1]: the values a [for] loop index takes. *)
Fixpoint zrange (lo : Z) (n : nat) : list Z :=
  match n with O => [] | S n' => lo :: zrange (lo + 1) n' end.

(** [toString()]: for [i] in [0 .. size()-1], the character of the cell
    at column [i], or the blank of [MazePoint mP(i)] when there is none. *)
Definition toString (r : MazeRow) : string :=
  string_of_list_ascii
    (map (fun i =>
            match findConst (mazePoints r) (MazePoint_at i) with
            | Some p => getValue p
            | None => getValue (MazePoint_at i)
            end)
         (zrange 0 (Z.to_nat (rowLength r)))).

(** [searchMazePoint(x)]: [None] is the uninitialised [char c] returned
    when no cell has column [x]. *)
Definition searchMazePoint (r : MazeRow) (xx : Z) : option ascii :=
  match findConst (mazePoints r) (MazePoint_at xx) with
  | Some p => Some (getValue p)
  | None => None
  end.

(** [changeMazePoint(x, c)]. *)
Definition changeMazePoint (r : MazeRow) (xx : Z) (c : ascii) : outcome MazeRow :=
  match find (mazePoints r) (MazePoint_at xx) with
  | None => Normal r
  | Some (p, _) =>
      if negb (getValue p =? "s")%char then
        let mP := setValue (MazePoint_at xx) c in
        match BinTree.erase (mazePoints r) mP with
        | Raise e t => Raise e (mkRow t (y r))
        | Normal t =>
            match BinTree.insert t mP with
            | Normal t' => Normal (mkRow t' (y r))
            | Raise e t' => Raise e (mkRow t' (y r))
            end
        end
      else Normal r
  end.

(** The characters [insertMazePointsIntoRow] accepts. *)
Definition validChar (c : ascii) : bool :=
  (c =? "#")%char || (c =? " ")%char || (c =? "s")%char || (c =? "f")%char ||
  (c =? "010")%char.

Definition invalidCharacter : halt := exit0 ["Invalid character in maze" ++ String "010" ""]%string.

(** The loop of [insertMazePointsIntoRow] from index [i] on. *)
Fixpoint insertPoints (r : MazeRow) (i : Z) (cs : list ascii) : run MazeRow :=
  match cs with
  | [] => Running r
  | c :: cs' =>
      if validChar c then
        t <-- of_outcome (BinTree.insert (mazePoints r) (setValue (MazePoint_at i) c)) ;;
        insertPoints (mkRow t (y r)) (i + 1) cs'
      else Halted invalidCharacter
  end.

(** [insertMazePointsIntoRow(line)]. *)
Definition insertMazePointsIntoRow (r : MazeRow) (line : string) : run MazeRow :=
  insertPoints r 0 (list_ascii_of_string line).

(** [operator<] and [operator==] compare [y]. *)
#[export] Instance MazeRow_ordered : Ordered MazeRow := keyed_ordered y.
#[export] Instance MazeRow_laws : OrderedLaws MazeRow := keyed_laws y.

(** ** Rows as lists of characters *)

(** The cells of a row holding the characters [cs] from column [lo]. *)
Fixpoint pointsOf (cs : list ascii) (lo : Z) : list MazePoint :=
  match cs with
  | [] => []
  | c :: cs' => mkPoint c lo :: pointsOf cs' (lo + 1)
  end.

(** A well-formed row holding the characters [cs]: a valid container
    whose cells are those of [cs] at columns [0 ..]. *)
Definition rowHolds (r : MazeRow) (cs : list ascii) : Prop :=
  treeOk (mazePoints r) /\ elements (mazePoints r) = pointsOf cs 0.

(** [cs] with position [i] replaced by [c] (unchanged out of range). *)
Fixpoint replace_at (cs : list ascii) (i : nat) (c : ascii) : list ascii :=
  match cs, i with
  | [], _ => []
  | _ :: cs', O => c :: cs'
  | d :: cs', S i' => d :: replace_at cs' i' c
  end.

(** The row [1] loaded from the line ["#s #"]. *)
Definition sample_row : MazeRow :=
  match insertMazePointsIntoRow (MazeRow_at 1) "#s #"%string with
  | Running r => r
  | _ => MazeRow_at 1
  end.

(** ** The cells of a row as a list *)

Section PointLists.
Implicit Types (cs : list ascii) (lo i : Z) (c : ascii).

Lemma point_eqb c d i j : (mkPoint c i ==. mkPoint d j) = (i =? j).
Proof. reflexivity. Qed.

Lemma point_ltb c d i j : (mkPoint c i <. mkPoint d j) = (i <? j).
Proof. reflexivity. Qed.

Lemma pointsOf_keys cs lo p : In p (pointsOf cs lo) -> lo <= x p < lo + Z.of_nat (List.length cs).
Proof.
  revert lo. induction cs as [|c cs IH]; intros lo; simpl; [contradiction|].
  intros [<-|Hp]; simpl; [lia|]. apply IH in Hp. lia.
Qed.

Lemma pointsOf_sorted cs lo : sorted (pointsOf cs lo).
Proof.
  unfold sorted. revert lo. induction cs as [|c cs IH]; intros lo; simpl; constructor; auto.
  apply Forall_forall. intros p Hp%pointsOf_keys. destruct p as [v k]. simpl in *.
  apply Z.ltb_lt. lia.
Qed.

Lemma pointsOf_values cs lo : map getValue (pointsOf cs lo) = cs.
Proof. revert lo. induction cs as [|c cs IH]; intros lo; simpl; [reflexivity|]. rewrite IH. reflexivity. Qed.

Lemma pointsOf_length cs lo : List.length (pointsOf cs lo) = List.length cs.
Proof. revert lo. induction cs as [|c cs IH]; intros lo; simpl; auto. Qed.

Lemma pointsOf_snoc cs c lo :
  pointsOf (cs ++ [c]) lo = pointsOf cs lo ++ [mkPoint c (lo + Z.of_nat (List.length cs))].
Proof.
  revert lo. induction cs as [|d cs IH]; intros lo; cbn [pointsOf app List.length].
  - rewrite Z.add_0_r. reflexivity.
  - rewrite IH, Nat2Z.inj_succ.
    replace (lo + 1 + Z.of_nat (List.length cs)) with (lo + Z.succ (Z.of_nat (List.length cs)))
      by lia.
    reflexivity.
Qed.

Lemma mem_pointsOf cs lo c i :
  mem_list (mkPoint c i) (pointsOf cs lo) = (lo <=? i) && (i <? lo + Z.of_nat (List.length cs)).
Proof.
  revert lo. induction cs as [|d cs IH]; intros lo; cbn [pointsOf List.length].
  - destruct (Z.leb_spec lo i), (Z.ltb_spec i (lo + Z.of_nat 0)); simpl; reflexivity || lia.
  - rewrite mem_list_cons, point_eqb, IH, Nat2Z.inj_succ.
    destruct (Z.eqb_spec i lo), (Z.leb_spec (lo + 1) i), (Z.leb_spec lo i),
      (Z.ltb_spec i (lo + 1 + Z.of_nat (List.length cs))),
      (Z.ltb_spec i (lo + Z.succ (Z.of_nat (List.length cs)))); simpl; reflexivity || lia.
Qed.

Lemma lookup_pointsOf cs lo c i :
  lookup_list (mkPoint c i) (pointsOf cs lo) =
  if lo <=? i then option_map (fun d => mkPoint d i) (nth_error cs (Z.to_nat (i - lo))) else None.
Proof.
  revert lo. induction cs as [|d cs IH]; intros lo; cbn [lookup_list pointsOf].
  - destruct (lo <=? i); [destruct (Z.to_nat (i - lo))|]; reflexivity.
  - rewrite point_eqb, IH. destruct (Z.eqb_spec i lo) as [->|Hne].
    + rewrite Z.leb_refl, Z.sub_diag. reflexivity.
    + destruct (Z.leb_spec (lo + 1) i), (Z.leb_spec lo i); try lia; [|reflexivity].
      replace (Z.to_nat (i - lo)) with (S (Z.to_nat (i - (lo + 1)))) by lia. reflexivity.
Qed.

Lemma ins_pointsOf_end cs c :
  ins_list (mkPoint c (Z.of_nat (List.length cs))) (pointsOf cs 0) = pointsOf (cs ++ [c]) 0.
Proof.
  rewrite pointsOf_snoc, Z.add_0_l.
  replace (pointsOf cs 0) with (pointsOf cs 0 ++ []) at 1 by apply app_nil_r.
  rewrite ins_list_app_r; [reflexivity|].
  intros p Hp%pointsOf_keys. destruct p as [v k]. simpl in *. apply Z.ltb_ge. lia.
Qed.

Lemma change_pointsOf cs lo c i :
  lo <= i < lo + Z.of_nat (List.length cs) ->
  ins_list (mkPoint c i) (del_list (mkPoint c i) (pointsOf cs lo)) =
  pointsOf (replace_at cs (Z.to_nat (i - lo)) c) lo.
Proof.
  revert lo. induction cs as [|d cs IH]; intros lo Hi; cbn [List.length] in Hi; [lia|].
  rewrite Nat2Z.inj_succ in Hi. cbn [pointsOf del_list]. rewrite point_eqb.
  destruct (Z.eqb_spec i lo) as [->|Hne].
  - rewrite Z.sub_diag. cbn [replace_at pointsOf].
    destruct cs as [|e cs]; cbn [pointsOf ins_list]; [reflexivity|]. rewrite point_ltb.
    destruct (Z.ltb_spec lo (lo + 1)); [reflexivity|lia].
  - cbn [ins_list]. rewrite point_ltb. destruct (Z.ltb_spec i lo); [lia|].
    replace (Z.to_nat (i - lo)) with (S (Z.to_nat (i - (lo + 1)))) by lia. cbn [replace_at pointsOf].
    rewrite IH by lia. reflexivity.
Qed.

Lemma replace_at_length cs n c : List.length (replace_at cs n c) = List.length cs.
Proof. revert n. induction cs as [|d cs IH]; intros [|n]; simpl; auto. Qed.
End PointLists.

Lemma zrange_bounds lo n i : In i (zrange lo n) -> lo <= i < lo + Z.of_nat n.
Proof.
  revert lo. induction n as [|n IH]; intros lo; cbn [zrange In]; [contradiction|].
  intros [<-|Hi]; [lia|]. apply IH in Hi. lia.
Qed.

Lemma map_nth_zrange cs lo :
  map (fun i => match nth_error cs (Z.to_nat (i - lo)) with Some d => d | None => " "%char end)
      (zrange lo (List.length cs)) = cs.
Proof.
  revert lo. induction cs as [|d cs IH]; intros lo; [reflexivity|].
  cbn [List.length zrange map]. rewrite Z.sub_diag. cbn [nth_error]. f_equal.
  rewrite <- (IH (lo + 1)) at 2. apply map_ext_in. intros i Hi%zrange_bounds.
  replace (Z.to_nat (i - lo)) with (S (Z.to_nat (i - (lo + 1)))) by lia. reflexivity.
Qed.

(** ** Row operations on the list of characters *)

Section RowTheorems.
Implicit Types (r : MazeRow) (cs : list ascii) (i : Z) (c : ascii).

Lemma setValue_at i c : setValue (MazePoint_at i) c = mkPoint c i.
Proof. reflexivity. Qed.

Lemma rowHolds_empty i : rowHolds (MazeRow_at i) [].
Proof. split; [split; [reflexivity|split; [reflexivity|constructor]]|reflexivity]. Qed.

Lemma rowLength_holds r cs : rowHolds r cs -> rowLength r = Z.of_nat (List.length cs).
Proof.
  intros [(Hc & _ & _) He]. unfold rowLength, size.
  rewrite Hc, numNodes_elements, He, pointsOf_length. reflexivity.
Qed.

Lemma findConst_row r cs i :
  rowHolds r cs ->
  findConst (mazePoints r) (MazePoint_at i) =
  if 0 <=? i then option_map (fun d => mkPoint d i) (nth_error cs (Z.to_nat i)) else None.
Proof.
  intros [(_ & _ & Hs) He]. rewrite findConst_elements by exact Hs. rewrite He.
  unfold MazePoint_at. rewrite lookup_pointsOf, Z.sub_0_r. reflexivity.
Qed.

(** in a row holding the characters [cs], [searchMazePoint(x)]
    returns the character at position [x]; for a column outside
    [0 .. size()-1] it returns the uninitialised [char] ([None]). *)
Lemma searchMazePoint_nth r cs i :
  rowHolds r cs ->
  searchMazePoint r i = if 0 <=? i then nth_error cs (Z.to_nat i) else None.
Proof.
  intros H. unfold searchMazePoint. rewrite (findConst_row r cs i H).
  destruct (0 <=? i); [destruct (nth_error cs _)|]; reflexivity.
Qed.

(** C20: in a row holding the characters [cs], [searchMazePoint(x)]
    returns the character at position [x]; for a column outside
    [0 .. size()-1] it returns the uninitialised [char] ([None]). *)
Theorem searchMazePoint_spec r cs i :
  rowHolds r cs ->
  searchMazePoint r i = if 0 <=? i then nth_error cs (Z.to_nat i) else None.
Proof. apply searchMazePoint_nth. Qed.

(** [toString()] of a row holding the characters [cs] is the string
    of those characters. *)
Lemma toString_chars r cs : rowHolds r cs -> toString r = string_of_list_ascii cs.
Proof.
  intros H. unfold toString. rewrite (rowLength_holds r cs H), Nat2Z.id. f_equal.
  rewrite <- (map_nth_zrange cs 0) at 2. apply map_ext_in. intros i Hi%zrange_bounds.
  rewrite (findConst_row r cs i H), Z.sub_0_r. destruct (Z.leb_spec 0 i); [|lia].
  destruct (nth_error cs (Z.to_nat i)); reflexivity.
Qed.

(** [toString()] of a row holding the characters [cs] is the string
    of those characters. *)
Theorem toString_spec r cs : rowHolds r cs -> toString r = string_of_list_ascii cs.
Proof. apply toString_chars. Qed.

Lemma insertPoints_spec cs r pre :
  rowHolds r pre ->
  match insertPoints r (Z.of_nat (List.length pre)) cs with
  | Running r' => forallb validChar cs = true /\ rowHolds r' (pre ++ cs) /\ y r' = y r
  | Halted h => forallb validChar cs = false /\ h = invalidCharacter
  | OutOfFuel => False
  end.
Proof.
  revert r pre. induction cs as [|c cs IH]; intros r pre Hr; cbn [insertPoints forallb].
  { rewrite app_nil_r. auto. }
  destruct (validChar c) eqn:Hv; cbn [andb]; [|auto].
  destruct Hr as [Hok He]. rewrite setValue_at.
  pose proof (insert_abstract (mazePoints r) (mkPoint c (Z.of_nat (List.length pre))) Hok) as Hspec.
  pose proof (insert_keeps_treeOk (mazePoints r) (mkPoint c (Z.of_nat (List.length pre))) Hok) as Hok'.
  destruct (BinTree.insert _ _) as [t'|e t'] eqn:E; unfold set_insert in Hspec;
    rewrite He, mem_pointsOf, Z.add_0_l, Z.ltb_irrefl, andb_false_r in Hspec.
  2:{ destruct Hspec as [Hn _]. discriminate. }
  destruct Hspec as [Hset _]. injection Hset as Hel.
  rewrite ins_pointsOf_end in Hel. cbn [of_outcome bind_run].
  replace (Z.of_nat (List.length pre) + 1) with (Z.of_nat (List.length (pre ++ [c])))
    by (rewrite length_app; cbn [List.length]; lia).
  specialize (IH (mkRow t' (y r)) (pre ++ [c]) (conj Hok' (eq_sym Hel))).
  rewrite <- app_assoc in IH. exact IH.
Qed.

(** [insertMazePointsIntoRow(line)] on a new row [MazeRow(y)]
    either accepts every character of the line and yields a valid row
    holding exactly those characters, or meets a character other than
    ['#'], [' '], ['s'], ['f'], ['\n'] and exits with "Invalid
    character in maze". *)
Lemma insertMazePointsIntoRow_holds yy line :
  match insertMazePointsIntoRow (MazeRow_at yy) line with
  | Running r =>
      forallb validChar (list_ascii_of_string line) = true /\
      rowHolds r (list_ascii_of_string line) /\ y r = yy
  | Halted h => forallb validChar (list_ascii_of_string line) = false /\ h = invalidCharacter
  | OutOfFuel => False
  end.
Proof. exact (insertPoints_spec (list_ascii_of_string line) (MazeRow_at yy) [] (rowHolds_empty yy)). Qed.

(** [insertMazePointsIntoRow(line)] on a new row [MazeRow(y)]
    either accepts every character of the line and yields a valid row
    holding exactly those characters, or meets a character other than
    ['#'], [' '], ['s'], ['f'], ['\n'] and exits with "Invalid
    character in maze". *)
Theorem insertMazePointsIntoRow_spec yy line :
  match insertMazePointsIntoRow (MazeRow_at yy) line with
  | Running r =>
      forallb validChar (list_ascii_of_string line) = true /\
      rowHolds r (list_ascii_of_string line) /\ y r = yy
  | Halted h => forallb validChar (list_ascii_of_string line) = false /\ h = invalidCharacter
  | OutOfFuel => False
  end.
Proof. apply insertMazePointsIntoRow_holds. Qed.

(** loading a line of valid characters into a row and printing the
    row with [toString()] gives the line back. *)
Theorem load_toString_roundtrip yy line r :
  insertMazePointsIntoRow (MazeRow_at yy) line = Running r -> toString r = line.
Proof.
  intros E. pose proof (insertMazePointsIntoRow_holds yy line) as H. rewrite E in H.
  destruct H as (_ & Hr & _). rewrite (toString_chars r _ Hr). apply string_of_list_ascii_of_string.
Qed.

(** [changeMazePoint(x, c)] on a row holding [cs] never throws; it
    replaces the character at position [x] by [c] when [x] is a column
    of the row whose character is not ['s'], and leaves the row as it
    was otherwise. *)
Lemma changeMazePoint_replace r cs i c :
  rowHolds r cs ->
  match changeMazePoint r i c with
  | Normal r' =>
      y r' = y r /\
      rowHolds r' (if (0 <=? i) && (i <? Z.of_nat (List.length cs)) &&
                       negb (nth (Z.to_nat i) cs " " =? "s")%char
                   then replace_at cs (Z.to_nat i) c else cs)
  | Raise _ _ => False
  end.
Proof.
  intros Hr. pose proof (find_findConst (mazePoints r) (MazePoint_at i)) as Hf.
  rewrite (findConst_row r cs i Hr) in Hf. unfold changeMazePoint.
  destruct (find (mazePoints r) (MazePoint_at i)) as [[p set]|]; cbn [option_map fst] in Hf.
  - destruct (Z.leb_spec 0 i); [|discriminate].
    destruct (nth_error cs (Z.to_nat i)) as [d|] eqn:Hn; [|discriminate].
    injection Hf as ->. cbn [getValue value].
    assert (Hlt : (Z.to_nat i < List.length cs)%nat)
      by (apply nth_error_Some; rewrite Hn; discriminate).
    rewrite (nth_error_nth cs (Z.to_nat i) " "%char Hn).
    destruct (Z.ltb_spec i (Z.of_nat (List.length cs))); [|lia].
    destruct (d =? "s")%char; cbn [negb andb]; [split; [reflexivity|exact Hr]|].
    destruct Hr as [Hok He].
    pose proof (erase_abstract (mazePoints r) (mkPoint c i) Hok) as Herase.
    pose proof (erase_keeps_treeOk (mazePoints r) (mkPoint c i) Hok) as Hok1.
    rewrite setValue_at.
    destruct (BinTree.erase (mazePoints r) (mkPoint c i)) as [t|e t];
      unfold set_erase in Herase; rewrite He, mem_pointsOf in Herase;
      destruct (Z.leb_spec 0 i), (Z.ltb_spec i (0 + Z.of_nat (List.length cs))); try lia;
      cbn [andb] in Herase; [|destruct Herase as [Hn' _]; discriminate].
    destruct Herase as [Hdel _]. injection Hdel as Hdel.
    assert (Hok1' : treeOk t) by exact Hok1.
    pose proof (insert_abstract t (mkPoint c i) Hok1') as Hins.
    pose proof (insert_keeps_treeOk t (mkPoint c i) Hok1') as Hok2.
    destruct (BinTree.insert t (mkPoint c i)) as [t'|e t']; unfold set_insert in Hins;
      rewrite <- Hdel, lookup_list_none_mem in Hins
        by (apply lookup_del_list, pointsOf_sorted); cbn [negb] in Hins.
    + destruct Hins as [Hins _]. injection Hins as Hins.
      split; [reflexivity|]. split; [exact Hok2|]. cbn [mazePoints].
      rewrite <- Hins, change_pointsOf by lia. rewrite Z.sub_0_r. reflexivity.
    + destruct Hins as [Hn' _]. discriminate.
  - split; [reflexivity|].
    destruct (Z.leb_spec 0 i); cbn [andb]; [|exact Hr].
    destruct (nth_error cs (Z.to_nat i)) eqn:Hn; [discriminate|].
    apply nth_error_None in Hn. destruct (Z.ltb_spec i (Z.of_nat (List.length cs))); [lia|].
    exact Hr.
Qed.

(** C19: [changeMazePoint(x, c)] on a row holding [cs] never throws; it
    replaces the character at position [x] by [c] when [x] is a column
    of the row whose character is not ['s'], and leaves the row as it
    was otherwise. *)
Theorem changeMazePoint_spec r cs i c :
  rowHolds r cs ->
  match changeMazePoint r i c with
  | Normal r' =>
      y r' = y r /\
      rowHolds r' (if (0 <=? i) && (i <? Z.of_nat (List.length cs)) &&
                       negb (nth (Z.to_nat i) cs " " =? "s")%char
                   then replace_at cs (Z.to_nat i) c else cs)
  | Raise _ _ => False
  end.
Proof. apply changeMazePoint_replace. Qed.
End RowTheorems.

(** ** Concrete instances *)

Lemma rowHolds_sample : rowHolds sample_row ["#"; "s"; " "; "#"]%char.
Proof. split; [split; [reflexivity|split; [reflexivity|vm_compute; repeat constructor]]|reflexivity]. Qed.

Lemma searchMazePoint_spec_witness :
  rowHolds sample_row ["#"; "s"; " "; "#"]%char /\
  searchMazePoint sample_row 1 =
    (if 0 <=? 1 then nth_error ["#"; "s"; " "; "#"]%char (Z.to_nat 1) else None).
Proof. exact (conj rowHolds_sample (searchMazePoint_spec _ _ 1 rowHolds_sample)). Defined.

Lemma toString_spec_witness :
  rowHolds sample_row ["#"; "s"; " "; "#"]%char /\
  toString sample_row = string_of_list_ascii ["#"; "s"; " "; "#"]%char.
Proof. exact (conj rowHolds_sample (toString_spec _ _ rowHolds_sample)). Defined.

Lemma load_toString_roundtrip_witness :
  insertMazePointsIntoRow (MazeRow_at 1) "#s #"%string = Running sample_row /\
  toString sample_row = "#s #"%string.
Proof.
  assert (E : insertMazePointsIntoRow (MazeRow_at 1) "#s #"%string = Running sample_row)
    by reflexivity.
  exact (conj E (load_toString_roundtrip 1 _ _ E)).
Defined.

Lemma changeMazePoint_spec_witness :
  rowHolds sample_row ["#"; "s"; " "; "#"]%char /\
  match changeMazePoint sample_row 2 "." with
  | Normal r' =>
      y r' = y sample_row /\
      rowHolds r' (if (0 <=? 2) && (2 <? Z.of_nat (List.length ["#"; "s"; " "; "#"]%char)) &&
                       negb (nth (Z.to_nat 2) ["#"; "s"; " "; "#"]%char " " =? "s")%char
                   then replace_at ["#"; "s"; " "; "#"]%char (Z.to_nat 2) "." else
                     ["#"; "s"; " "; "#"]%char)
  | Raise _ _ => False
  end.
Proof. exact (conj rowHolds_sample (changeMazePoint_spec _ _ 2 "." rowHolds_sample)). Defined.
