(* ===== verification/Maze.v ===== *)
(** * Maze: the class [Maze] and [main] of src/assign2.cpp

    [Maze] holds a [bintree<MazeRow>] ordered by row number and the
    coordinates of the start and the finish, [int] members that
    [main]'s [Maze maze;] leaves uninitialised ([None] until
    [checkMaze] assigns them; reading [None] is undefined behaviour).
    Every method is a step on the [Maze] value:
    - [loadMaze] reads the file line by line ([getlines] is
      [std::getline]'s splitting) and [insertRowsIntoTree] loads each
      line into a new row and inserts the row;
    - [checkMaze] scans every cell for ['s'] and ['f'] ([scanMaze]),
      then runs [ifOutside] on the last start and finish found, then
      [checkStart] and [checkFinish];
    - [move] is the recursive depth-first search, with its
      breadcrumbs ['!'], [cleanUpMaze] and the path marks ['.'];
    - [printMaze] is [bintree::print] with [MazeRow::toString].
    A [MazeRow *] obtained from [mazeRows.find] and written through
    after other calls ([mRow->changeMazePoint] in [move] and
    [cleanUpMaze]) designates the same node throughout, because nothing
    inserts into or erases from [mazeRows] after loading; [changeRow]
    models the write by finding the row again in the current tree. *)

From Stdlib Require Import ZArith List String Ascii Bool Lia.
From S2P Require Import Prelude Element SortedSpec BinNode BinTree Process MazeRow.
Import ListNotations BinNode BinTree MazePoint MazeRow.
Open Scope Z_scope.
Open Scope mazesolver_scope.

Module Maze.
(** [bintree<MazeRow> mazeRows; int startX, startY, finishX, finishY;] *)
Record Maze : Type := mkMaze {
  mazeRows : bintree MazeRow;
  startX : option Z; startY : option Z;
  finishX : option Z; finishY : option Z }.
End Maze.
Import Maze.

(** [Maze maze;] in [main]. *)
Definition Maze0 : Maze := mkMaze empty_bintree None None None None.

Definition withRows (m : Maze) (t : bintree MazeRow) : Maze :=
  mkMaze t (startX m) (startY m) (finishX m) (finishY m).

(** Reading an [int] or a [char] that may be uninitialised. *)
Definition readInt (v : option Z) : run Z :=
  match v with Some n => Running n | None => Halted (undefined "uninitialised int") end.

Definition readChar (v : option ascii) : run ascii :=
  match v with Some c => Running c | None => Halted (undefined "uninitialised char") end.

Definition unableToLoad (filename : string) : string :=
  ("Unable to load maze " ++ filename ++ newline)%string.

(** ** Loading *)

(** The lines [std::getline] extracts from the text [s], [acc] the
    reversed characters of the line being read: a ['\n'] ends a line
    and is dropped; a last line without ['\n'] counts when it is not
    empty. *)
Fixpoint splitLines (acc : list ascii) (s : string) : list string :=
  match s with
  | EmptyString => match acc with [] => [] | _ => [string_of_list_ascii (rev acc)] end
  | String c s' =>
      if (c =? "010")%char then string_of_list_ascii (rev acc) :: splitLines [] s'
      else splitLines (c :: acc) s'
  end.

Definition getlines (s : string) : list string := splitLines [] s.

(** [insertRowsIntoTree(line, rowNumber)]. *)
Definition insertRowsIntoTree (m : Maze) (line : string) (rowNumber : Z) : run Maze :=
  mazeRow <-- insertMazePointsIntoRow (MazeRow_at rowNumber) line ;;
  t <-- of_outcome (BinTree.insert (mazeRows m) mazeRow) ;;
  Running (withRows m t).

(** The [while (getline(fin, line))] loop of [loadMaze]. *)
Fixpoint loadLines (m : Maze) (rowNumber : Z) (lines : list string) : run Maze :=
  match lines with
  | [] => Running m
  | line :: lines' =>
      m' <-- insertRowsIntoTree m line rowNumber ;;
      loadLines m' (rowNumber + 1) lines'
  end.

(** [loadMaze(filename)]; [file] is the file's content, [None] when it
    cannot be opened. *)
Definition loadMaze (m : Maze) (filename : string) (file : option string) : run Maze :=
  match file with
  | None => Halted (exit0 [unableToLoad filename])
  | Some content => loadLines m 0 (getlines content)
  end.

(** ** Checking *)

(** The locals [numStart], [numFinish] of [checkMaze] and the maze whose
    start and finish members the scan assigns. *)
Record Scan : Type := mkScan { numStart : Z; numFinish : Z; scanned : Maze }.

(** One iteration of the inner loop of [checkMaze]: the cell [(x, y)]
    of the row [mRow]. *)
Definition scanCell (mRow : MazeRow) (yy : Z) (st : Scan) (xx : Z) : run Scan :=
  c <-- readChar (searchMazePoint mRow xx) ;;
  let st1 :=
    if (c =? "s")%char then
      let m := scanned st in
      mkScan (numStart st + 1) (numFinish st)
             (mkMaze (mazeRows m) (Some xx) (Some yy) (finishX m) (finishY m))
    else st in
  let st2 :=
    if (c =? "f")%char then
      let m := scanned st1 in
      mkScan (numStart st1) (numFinish st1 + 1)
             (mkMaze (mazeRows m) (startX m) (startY m) (Some xx) (Some yy))
    else st1 in
  Running st2.

(** One iteration of the outer loop: row [y], when it exists. *)
Definition scanRow (st : Scan) (yy : Z) : run Scan :=
  match findConst (mazeRows (scanned st)) (MazeRow_at yy) with
  | None => Running st
  | Some mRow =>
      forLoop (S (Z.to_nat (rowLength mRow))) (fun _ xx => xx <? rowLength mRow)
              (scanCell mRow yy) st 0
  end.

(** The two loops of [checkMaze]. *)
Definition scanMaze (m : Maze) : run Scan :=
  forLoop (S (Z.to_nat (size (mazeRows m)))) (fun st yy => yy <? size (mazeRows (scanned st)))
          scanRow (mkScan 0 0 m) 0.

(** The [while (mRow->searchMazePoint(i) != '#')] loop of [ifOutside];
    [positionOfHash] is incremented with [i] and equals it. *)
Fixpoint whileNotHash (mRow : MazeRow) (i : Z) (fuel : nat) : run Z :=
  match fuel with
  | O => OutOfFuel
  | S fuel' =>
      c <-- readChar (searchMazePoint mRow i) ;;
      if (c =? "#")%char then Running i else whileNotHash mRow (i + 1) fuel'
  end.

(** [ifOutside(c, x, y)]: [x] lies before the first ['#'] of row [y]
    (the character [c] is not used). *)
Definition ifOutside (m : Maze) (c : ascii) (xx yy : Z) : run bool :=
  positionOfHash <--
    match findConst (mazeRows m) (MazeRow_at yy) with
    | None => Running 0
    | Some mRow => whileNotHash mRow 0 (S (Z.to_nat (rowLength mRow)))
    end ;;
  Running (xx <? positionOfHash).

Definition checkStart (i : Z) : run unit :=
  if i =? 0 then Halted (exit0 [("Error - no start found in maze" ++ newline)%string])
  else if i >? 1 then Halted (exit0 [("Error - multiple start found in maze" ++ newline)%string])
  else Running tt.

Definition checkFinish (i : Z) : run unit :=
  if i =? 0 then Halted (exit0 [("Error - no finish found in maze" ++ newline)%string])
  else if i >? 1 then Halted (exit0 [("Error - multiple finish found in maze" ++ newline)%string])
  else Running tt.

(** [checkMaze(mazeFile)]: the arguments [startX], [startY] are read
    (copied into [ifOutside]'s parameters) before [checkStart] tests
    that a start exists. *)
Definition checkMaze (m : Maze) (mazeFile : string) : run Maze :=
  st <-- scanMaze m ;;
  let m1 := scanned st in
  sx <-- readInt (startX m1) ;; sy <-- readInt (startY m1) ;;
  outS <-- ifOutside m1 "s" sx sy ;;
  if outS then
    Halted (exit0 [("Error - start declared outside of maze" ++ newline)%string; unableToLoad mazeFile])
  else
  fx <-- readInt (finishX m1) ;; fy <-- readInt (finishY m1) ;;
  outF <-- ifOutside m1 "f" fx fy ;;
  if outF then
    Halted (exit0 [("Error - finish declared outside of maze" ++ newline)%string; unableToLoad mazeFile])
  else
  u <-- checkStart (numStart st) ;;
  u' <-- checkFinish (numFinish st) ;;
  Running m1.

(** ** Path finding *)

(** The row a [MazeRow *mRow = mazeRows.find(MazeRow(y))] designates. *)
Definition rowAt (m : Maze) (yy : Z) : option MazeRow :=
  option_map fst (BinTree.find (mazeRows m) (MazeRow_at yy)).

(** [mRow->changeMazePoint(x, c)] through the pointer to row [y]. *)
Definition changeRow (m : Maze) (yy xx : Z) (c : ascii) : run Maze :=
  match BinTree.find (mazeRows m) (MazeRow_at yy) with
  | None => Running m
  | Some (mRow, set) =>
      mRow' <-- of_outcome (changeMazePoint mRow xx c) ;;
      Running (withRows m (set mRow'))
  end.

(** One iteration of the inner loop of [cleanUpMaze]. *)
Definition cleanCell (yy : Z) (m : Maze) (xx : Z) : run Maze :=
  match rowAt m yy with
  | None => Running m
  | Some mRow =>
      c <-- readChar (searchMazePoint mRow xx) ;;
      if (c =? "!")%char then changeRow m yy xx " " else Running m
  end.

(** One iteration of the outer loop: the inner loop tests
    [x < mRow->rowLength()] on the row as it is now. *)
Definition cleanRow (m : Maze) (yy : Z) : run Maze :=
  match rowAt m yy with
  | None => Running m
  | Some mRow =>
      forLoop (S (Z.to_nat (rowLength mRow)))
              (fun m' xx => match rowAt m' yy with Some r => xx <? rowLength r | None => false end)
              (cleanCell yy) m 0
  end.

(** [cleanUpMaze()]: every breadcrumb ['!'] back to [' ']. *)
Definition cleanUpMaze (m : Maze) : run Maze :=
  forLoop (S (Z.to_nat (size (mazeRows m)))) (fun m' yy => yy <? size (mazeRows m'))
          cleanRow m 0.

(** [move(x, y)] on [fuel] levels of recursion: the result and the
    maze after the call. *)
Fixpoint move (fuel : nat) (m : Maze) (xx yy : Z) : run (bool * Maze) :=
  match fuel with
  | O => OutOfFuel
  | S fuel' =>
      if (xx <? 0) || (yy <? 0) then Running (false, m) else
      match rowAt m yy with
      | None => Running (false, m)
      | Some mRow =>
          c <-- readChar (searchMazePoint mRow xx) ;;
          if (c =? "f")%char then Running (true, m) else
          if (c =? " ")%char || (c =? "s")%char then
            let found m' :=
              m2 <-- cleanUpMaze m' ;;
              m3 <-- changeRow m2 yy xx "." ;;
              Running (true, m3) in
            m1 <-- changeRow m yy xx "!" ;;
            r1 <-- move fuel' m1 xx (yy + 1) ;;
            if fst r1 then found (snd r1) else
            r2 <-- move fuel' (snd r1) xx (yy - 1) ;;
            if fst r2 then found (snd r2) else
            r3 <-- move fuel' (snd r2) (xx + 1) yy ;;
            if fst r3 then found (snd r3) else
            r4 <-- move fuel' (snd r3) (xx - 1) yy ;;
            if fst r4 then found (snd r4) else
            Running (false, snd r4)
          else Running (false, m)
      end
  end.

(** The number of cells of the maze. *)
Definition cellCount (m : Maze) : nat :=
  fold_right (fun r n => (Z.to_nat (rowLength r) + n)%nat) O (elements (mazeRows m)).

(** The recursion depth [move] is given: each level below the first
    marks a blank cell or enters the start, so twice the number of cells
    and two more levels are enough (see [move_total]). *)
Definition moveFuel (m : Maze) : nat := S (S (2 * cellCount m)).

(** [findPathThroughMaze()]: [move(startX, startY)]. *)
Definition findPathThroughMaze (m : Maze) : run (bool * Maze) :=
  sx <-- readInt (startX m) ;; sy <-- readInt (startY m) ;;
  move (moveFuel m) m sx sy.

(** [printMaze()]: the lines [bintree::print] writes. *)
Definition printMaze (m : Maze) : list string := BinTree.print toString (mazeRows m).

(** ** The program *)

(** [main(argc, argv)]: [argv] the arguments, the program name first;
    [fs] the file system, the content of a file or [None] when it cannot
    be opened.  The result is the output of a [return 0] or the way the
    process stopped. *)
Definition main (argv : list string) (fs : string -> option string) : run (list string) :=
  match argv with
  | [_; file] =>
      m1 <-- loadMaze Maze0 file (fs file) ;;
      m2 <-- checkMaze m1 file ;;
      r <-- findPathThroughMaze m2 ;;
      Running (printMaze (snd r))
  | _ => Running [("Must supply 1 argument to this program" ++ newline)%string]
  end.

(** The spec's three-row maze. *)
Definition spec_maze_file : string :=
  ("##f##" ++ newline ++ "#s  #" ++ newline ++ "#####" ++ newline)%string.

Definition spec_fs (name : string) : option string :=
  if String.eqb name "maze.txt" then Some spec_maze_file else None.
