(* ===== verification/MazeGrid.v ===== *)
(** * MazeGrid: the maze as a grid of characters

    A loaded maze is described by the list of its lines, a [grid]:
    [mazeHolds m g] says that the container of [m] is valid and holds,
    in order, one row per line of [g], row [i] numbered [i] and holding
    the characters of line [i].  On grids, the operations of [Maze] are
    plain list functions: [gset] is [changeRow] (with the guard of
    [changeMazePoint] on ['s'] and on columns out of range), [gclean]
    is [cleanUpMaze], and [gmove] is [move], line for line.  The
    refinement lemmas of this file show that each operation of [Maze]
    acts on the grid as its list function does. *)

From Stdlib Require Import ZArith List String Ascii Bool Sorted Lia.
From S2P Require Import Prelude Element SortedSpec BinNode NodeOrder BinTree Process MazeRow Maze.
Import ListNotations BinNode BinTree MazePoint MazeRow Maze.
Open Scope Z_scope.
Open Scope mazesolver_scope.

(** The lines of a maze. *)
Definition grid : Type := list (list ascii).

(** The rows [rs], numbered from [lo], hold the lines of [g]. *)
Fixpoint rowsHold (rs : list MazeRow) (g : grid) (lo : Z) : Prop :=
  match rs, g with
  | [], [] => True
  | r :: rs', cs :: g' => y r = lo /\ rowHolds r cs /\ rowsHold rs' g' (lo + 1)
  | _, _ => False
  end.

(** The maze [m] holds the grid [g]. *)
Definition mazeHolds (m : Maze) (g : grid) : Prop :=
  treeOk (mazeRows m) /\ rowsHold (elements (mazeRows m)) g 0.

(** Line [y] of the grid. *)
Definition gridRow (g : grid) (yy : Z) : option (list ascii) :=
  if 0 <=? yy then nth_error g (Z.to_nat yy) else None.

(** A row found for a line, and no row for no line. *)
Definition rowMatch (o : option MazeRow) (oc : option (list ascii)) (yy : Z) : Prop :=
  match o, oc with
  | Some r, Some cs => rowHolds r cs /\ y r = yy
  | None, None => True
  | _, _ => False
  end.

(** [changeMazePoint(x, c)] on a line. *)
Definition rowChange (cs : list ascii) (xx : Z) (c : ascii) : list ascii :=
  if (0 <=? xx) && (xx <? Z.of_nat (List.length cs)) && negb (nth (Z.to_nat xx) cs " " =? "s")%char
  then replace_at cs (Z.to_nat xx) c else cs.

(** [l] with its element [n] replaced by its image (unchanged out of
    range). *)
Fixpoint update_at {T} (l : list T) (n : nat) (f : T -> T) : list T :=
  match l, n with
  | [], _ => []
  | a :: l', O => f a :: l'
  | a :: l', S n' => a :: update_at l' n' f
  end.

(** [changeRow(y, x, c)] on a grid. *)
Definition gset (g : grid) (xx yy : Z) (c : ascii) : grid :=
  if 0 <=? yy then update_at g (Z.to_nat yy) (fun cs => rowChange cs xx c) else g.

Definition unbreadcrumb (c : ascii) : ascii := if (c =? "!")%char then " " else c.

(** [cleanUpMaze()] on a grid. *)
Definition gclean (g : grid) : grid := map (map unbreadcrumb) g.

(** [move(x, y)] on a grid. *)
Fixpoint gmove (fuel : nat) (g : grid) (xx yy : Z) : run (bool * grid) :=
  match fuel with
  | O => OutOfFuel
  | S fuel' =>
      if (xx <? 0) || (yy <? 0) then Running (false, g) else
      match nth_error g (Z.to_nat yy) with
      | None => Running (false, g)
      | Some cs =>
          c <-- readChar (nth_error cs (Z.to_nat xx)) ;;
          if (c =? "f")%char then Running (true, g) else
          if (c =? " ")%char || (c =? "s")%char then
            let found g' := Running (true, gset (gclean g') xx yy ".") in
            r1 <-- gmove fuel' (gset g xx yy "!") xx (yy + 1) ;;
            if fst r1 then found (snd r1) else
            r2 <-- gmove fuel' (snd r1) xx (yy - 1) ;;
            if fst r2 then found (snd r2) else
            r3 <-- gmove fuel' (snd r2) (xx + 1) yy ;;
            if fst r3 then found (snd r3) else
            r4 <-- gmove fuel' (snd r3) (xx - 1) yy ;;
            if fst r4 then found (snd r4) else
            Running (false, snd r4)
          else Running (false, g)
      end
  end.

(** A result of [move] from the maze [m] and one of [gmove]: the same
    answer, a maze holding the grid, the start and finish of [m]. *)
Definition moveRel (m : Maze) (p : bool * Maze) (q : bool * grid) : Prop :=
  fst p = fst q /\ mazeHolds (snd p) (snd q) /\ exists t, snd p = withRows m t.

(** The first [n] characters of [cs] cleaned by [cleanUpMaze]. *)
Definition cleanPrefix (n : nat) (cs : list ascii) : list ascii :=
  map unbreadcrumb (firstn n cs) ++ skipn n cs.

(** The first [k] lines of [g] cleaned by [cleanUpMaze]. *)
Definition cleanRows (k : nat) (g : grid) : grid :=
  map (map unbreadcrumb) (firstn k g) ++ skipn k g.

(** ** Rows and lines *)

Lemma row_eqb yy r : (MazeRow_at yy ==. r) = (yy =? y r).
Proof. reflexivity. Qed.

Lemma withRows_id m : withRows m (mazeRows m) = m.
Proof. destruct m; reflexivity. Qed.

Lemma rowsHold_nth rs g lo k r :
  rowsHold rs g lo -> nth_error rs k = Some r ->
  y r = lo + Z.of_nat k /\ exists cs, nth_error g k = Some cs /\ rowHolds r cs.
Proof.
  revert g lo k. induction rs as [|r0 rs IH]; intros [|cs g] lo k; cbn [rowsHold]; try tauto.
  - intros _ E. destruct k; discriminate.
  - intros (Hy & Hr & H). destruct k as [|k]; cbn [nth_error].
    + intros [= <-]. split; [lia|eauto].
    + intros E. destruct (IH _ _ _ H E) as [Hy' Hc]. split; [lia|exact Hc].
Qed.

Lemma rowsHold_length rs g lo : rowsHold rs g lo -> List.length rs = List.length g.
Proof.
  revert g lo. induction rs as [|r rs IH]; intros [|cs g] lo; cbn; try tauto.
  intros (_ & _ & H). f_equal. eapply IH; eauto.
Qed.

Lemma rowsHold_lookup rs g lo yy :
  rowsHold rs g lo ->
  rowMatch (lookup_list (MazeRow_at yy) rs)
           (if lo <=? yy then nth_error g (Z.to_nat (yy - lo)) else None) yy.
Proof.
  revert g lo. induction rs as [|r rs IH]; intros [|cs g] lo; cbn [rowsHold]; try tauto.
  - intros _. cbn. destruct (lo <=? yy); [destruct (Z.to_nat _)|]; exact I.
  - intros (Hy & Hr & H). cbn [lookup_list]. rewrite row_eqb, Hy.
    destruct (Z.eqb_spec yy lo) as [->|Hne].
    + rewrite Z.leb_refl, Z.sub_diag. cbn. auto.
    + specialize (IH g (lo + 1) H). destruct (Z.leb_spec lo yy), (Z.leb_spec (lo + 1) yy);
        try lia; [|exact IH].
      replace (Z.to_nat (yy - lo)) with (S (Z.to_nat (yy - (lo + 1)))) by lia. exact IH.
Qed.

Lemma mazeHolds_findConst m g yy :
  mazeHolds m g -> rowMatch (findConst (mazeRows m) (MazeRow_at yy)) (gridRow g yy) yy.
Proof.
  intros [(_ & _ & Hs) Hr]. rewrite findConst_elements by exact Hs.
  pose proof (rowsHold_lookup _ _ _ yy Hr) as H. rewrite Z.sub_0_r in H. exact H.
Qed.

Lemma mazeHolds_rowAt m g yy :
  mazeHolds m g -> rowMatch (rowAt m yy) (gridRow g yy) yy.
Proof. unfold rowAt. rewrite find_findConst. apply mazeHolds_findConst. Qed.

Lemma update_at_length {T} (l : list T) n f : List.length (update_at l n f) = List.length l.
Proof. revert n. induction l as [|a l IH]; intros [|n]; cbn; auto. Qed.

Lemma update_at_out {T} (l : list T) n f : (List.length l <= n)%nat -> update_at l n f = l.
Proof.
  revert n. induction l as [|a l IH]; intros [|n]; cbn; intros; auto; [lia|].
  f_equal. apply IH. lia.
Qed.

Lemma rowsHold_update L r R r' g lo f :
  rowsHold (L ++ r :: R) g lo -> y r' = y r ->
  (forall cs, nth_error g (List.length L) = Some cs -> rowHolds r cs -> rowHolds r' (f cs)) ->
  rowsHold (L ++ r' :: R) (update_at g (List.length L) f) lo.
Proof.
  revert g lo. induction L as [|r0 L IH]; intros [|cs g] lo; cbn [app rowsHold]; try tauto.
  - intros (Hy & Hr & H) Hy' Hf. cbn. rewrite Hy'. auto.
  - intros (Hy & Hr & H) Hy' Hf. cbn. auto.
Qed.

Lemma gridRow_none_gset g xx yy c : gridRow g yy = None -> gset g xx yy c = g.
Proof.
  unfold gridRow, gset. destruct (0 <=? yy); [|reflexivity].
  intros Hn. apply update_at_out, nth_error_None, Hn.
Qed.

(** [changeRow] writes the row through the pointer as [gset] changes
    the line, and keeps the maze valid. *)
Lemma changeRow_gset m g yy xx c :
  mazeHolds m g ->
  exists t, changeRow m yy xx c = Running (withRows m t) /\
            mazeHolds (withRows m t) (gset g xx yy c).
Proof.
  intros Hm. pose proof (mazeHolds_rowAt m g yy Hm) as Hrow. unfold rowAt in Hrow.
  unfold changeRow. destruct (BinTree.find (mazeRows m) (MazeRow_at yy)) as [[r set]|] eqn:Ef.
  - destruct Hm as [Hok Hrs].
    destruct (find_focus_tree _ _ _ _ Hok Ef) as (Heq & L & R & Hel & Hset).
    rewrite row_eqb in Heq. apply Z.eqb_eq in Heq. subst yy.
    assert (Hn : nth_error (L ++ r :: R) (List.length L) = Some r)
      by (rewrite nth_error_app2, Nat.sub_diag by lia; reflexivity).
    rewrite Hel in Hrs. destruct (rowsHold_nth _ _ _ _ _ Hrs Hn) as (Hy & cs & Hcs & Hr).
    pose proof (changeMazePoint_replace r cs xx c Hr) as Hch.
    destruct (changeMazePoint r xx c) as [r'|e r']; [|contradiction]. destruct Hch as [Hy' Hr'].
    exists (set r'). split; [reflexivity|].
    destruct (Hset r') as [Hok' Hel']; [cbn; rewrite Hy'; apply Z.eqb_refl|].
    split; [exact Hok'|]. cbn [mazeRows withRows]. rewrite Hel'.
    unfold gset. destruct (Z.leb_spec 0 (y r)); [|lia].
    replace (Z.to_nat (y r)) with (List.length L) by lia.
    apply (rowsHold_update _ _ _ _ _ _ _ Hrs Hy'). rewrite Hcs. intros ? [= <-] _. exact Hr'.
  - exists (mazeRows m). rewrite withRows_id. split; [reflexivity|].
    destruct (gridRow g yy) eqn:E; [contradiction|]. rewrite gridRow_none_gset by exact E. exact Hm.
Qed.

(** ** Cleaning *)

Lemma withRows_withRows m t t' : withRows (withRows m t) t' = withRows m t'.
Proof. reflexivity. Qed.

Lemma mazeHolds_size m g : mazeHolds m g -> size (mazeRows m) = Z.of_nat (List.length g).
Proof.
  intros [(Hn & _) Hr]. unfold size. rewrite Hn, numNodes_elements.
  rewrite (rowsHold_length _ _ _ Hr). reflexivity.
Qed.

Lemma update_at_update {T} (l : list T) n f f' :
  update_at (update_at l n f) n f' = update_at l n (fun a => f' (f a)).
Proof. revert n. induction l as [|a l IH]; intros [|n]; cbn; f_equal; auto. Qed.

Lemma update_at_same {T} (l : list T) n a :
  nth_error l n = Some a -> update_at l n (fun _ => a) = l.
Proof. revert n. induction l as [|b l IH]; intros [|n]; cbn; try discriminate; [intros [= ->]|intros H; f_equal]; auto. Qed.

Lemma replace_at_nth cs n : replace_at cs n (nth n cs " "%char) = cs.
Proof. revert n. induction cs as [|c cs IH]; intros [|n]; cbn; f_equal; auto. Qed.

Lemma cleanPrefix_length n cs : List.length (cleanPrefix n cs) = List.length cs.
Proof. unfold cleanPrefix. rewrite length_app, length_map, <- length_app, firstn_skipn. reflexivity. Qed.

Lemma cleanPrefix_nth_error n cs : nth_error (cleanPrefix n cs) n = nth_error cs n.
Proof.
  revert n. induction cs as [|c cs IH]; intros [|n]; cbn; auto.
  unfold cleanPrefix in IH. rewrite IH. reflexivity.
Qed.

Lemma cleanPrefix_S n cs :
  cleanPrefix (S n) cs = replace_at (cleanPrefix n cs) n (unbreadcrumb (nth n cs " "%char)).
Proof.
  unfold cleanPrefix. revert n. induction cs as [|c cs IH]; intros [|n]; cbn; auto.
  f_equal. apply IH.
Qed.

Lemma cleanPrefix_all cs : cleanPrefix (List.length cs) cs = map unbreadcrumb cs.
Proof. unfold cleanPrefix. rewrite firstn_all, skipn_all, app_nil_r. reflexivity. Qed.

Lemma cleanRows_S k g cs :
  nth_error g k = Some cs ->
  cleanRows (S k) g = update_at (cleanRows k g) k (fun _ => map unbreadcrumb cs).
Proof.
  unfold cleanRows. revert k. induction g as [|c g IH]; intros [|k]; cbn; try discriminate.
  - intros [= ->]. reflexivity.
  - intros H. f_equal. apply IH, H.
Qed.

Lemma cleanRows_nth_error k g : nth_error (cleanRows k g) k = nth_error g k.
Proof. unfold cleanRows. revert k. induction g as [|c g IH]; intros [|k]; cbn; auto. Qed.

Lemma cleanRows_length k g : List.length (cleanRows k g) = List.length g.
Proof. unfold cleanRows. rewrite length_app, length_map, <- length_app, firstn_skipn. reflexivity. Qed.

Lemma cleanRows_all g : cleanRows (List.length g) g = gclean g.
Proof. unfold cleanRows, gclean. rewrite firstn_all, skipn_all, app_nil_r. reflexivity. Qed.

Lemma cleanPrefix_nth n cs d : nth n (cleanPrefix n cs) d = nth n cs d.
Proof. revert n. induction cs as [|c cs IH]; intros [|n]; cbn; auto. Qed.

Lemma nth_error_update_at {T} (l : list T) n f :
  nth_error (update_at l n f) n = option_map f (nth_error l n).
Proof. revert n. induction l as [|a l IH]; intros [|n]; cbn; auto. Qed.

Lemma unbreadcrumb_id c : c <> "!"%char -> unbreadcrumb c = c.
Proof. unfold unbreadcrumb. destruct (Ascii.eqb_spec c "!"%char); congruence. Qed.

(** The row of a line that exists. *)
Lemma mazeHolds_rowAt_some m g k cs :
  mazeHolds m g -> nth_error g k = Some cs ->
  exists r, rowAt m (Z.of_nat k) = Some r /\ rowHolds r cs /\ rowLength r = Z.of_nat (List.length cs).
Proof.
  intros Hm Hk. pose proof (mazeHolds_rowAt m g (Z.of_nat k) Hm) as Hr.
  unfold gridRow in Hr. rewrite Nat2Z.id, Hk in Hr. destruct (Z.leb_spec 0 (Z.of_nat k)); [|lia].
  destruct (rowAt m (Z.of_nat k)) as [r|]; [|contradiction]. destruct Hr as [Hr _].
  exists r. split; [reflexivity|]. split; [exact Hr|]. apply rowLength_holds, Hr.
Qed.

(** [gset] at a column of a line already partly cleaned. *)
Lemma gset_cleanPrefix G k cs n c :
  (n < List.length cs)%nat -> nth n cs " "%char <> "s"%char ->
  gset (update_at G k (fun _ => cleanPrefix n cs)) (Z.of_nat n) (Z.of_nat k) c =
  update_at G k (fun _ => replace_at (cleanPrefix n cs) n c).
Proof.
  intros Hn Hs. unfold gset. destruct (Z.leb_spec 0 (Z.of_nat k)); [|lia].
  rewrite Nat2Z.id, update_at_update. f_equal. unfold rowChange.
  rewrite Nat2Z.id, cleanPrefix_length, cleanPrefix_nth.
  destruct (Z.leb_spec 0 (Z.of_nat n)), (Z.ltb_spec (Z.of_nat n) (Z.of_nat (List.length cs))); try lia.
  destruct (Ascii.eqb_spec (nth n cs " "%char) "s"%char); [contradiction|reflexivity].
Qed.

(** One iteration of the inner loop of [cleanUpMaze]. *)
Lemma cleanCell_step m G k cs n :
  mazeHolds m (update_at G k (fun _ => cleanPrefix n cs)) -> nth_error G k = Some cs ->
  (n < List.length cs)%nat ->
  exists t, cleanCell (Z.of_nat k) m (Z.of_nat n) = Running (withRows m t) /\
            mazeHolds (withRows m t) (update_at G k (fun _ => cleanPrefix (S n) cs)).
Proof.
  intros Hm Hk Hn.
  assert (Hk' : nth_error (update_at G k (fun _ => cleanPrefix n cs)) k = Some (cleanPrefix n cs))
    by (rewrite nth_error_update_at, Hk; reflexivity).
  destruct (mazeHolds_rowAt_some _ _ _ _ Hm Hk') as (r & Er & Hr & _).
  unfold cleanCell. rewrite Er, (searchMazePoint_nth r _ _ Hr).
  destruct (Z.leb_spec 0 (Z.of_nat n)); [|lia]. rewrite Nat2Z.id, cleanPrefix_nth_error.
  rewrite (nth_error_nth' cs " "%char) by exact Hn. cbn [readChar bind_run].
  rewrite cleanPrefix_S. destruct (Ascii.eqb_spec (nth n cs " "%char) "!"%char) as [Hb|Hb].
  - rewrite Hb. destruct (changeRow_gset m _ (Z.of_nat k) (Z.of_nat n) " "%char Hm) as (t & -> & Hm').
    exists t. split; [reflexivity|].
    rewrite gset_cleanPrefix in Hm' by (rewrite ?Hb; easy). exact Hm'.
  - exists (mazeRows m). rewrite withRows_id, unbreadcrumb_id by exact Hb.
    rewrite <- (cleanPrefix_nth n cs " "%char), replace_at_nth. split; [reflexivity|exact Hm].
Qed.

(** The inner loop of [cleanUpMaze] cleans line [k]. *)
Lemma cleanRow_spec m G k cs :
  mazeHolds m G -> nth_error G k = Some cs ->
  exists t, cleanRow m (Z.of_nat k) = Running (withRows m t) /\
            mazeHolds (withRows m t) (update_at G k (fun _ => map unbreadcrumb cs)).
Proof.
  intros Hm Hk. unfold cleanRow.
  destruct (mazeHolds_rowAt_some _ _ _ _ Hm Hk) as (r & -> & _ & ->).
  set (P := fun m' xx => (exists t, m' = withRows m t) /\ 0 <= xx <= Z.of_nat (List.length cs) /\
              mazeHolds m' (update_at G k (fun _ => cleanPrefix (Z.to_nat xx) cs))).
  assert (Hrow : forall m' xx, P m' xx -> exists r', rowAt m' (Z.of_nat k) = Some r' /\
                   rowLength r' = Z.of_nat (List.length cs)).
  { intros m' xx (_ & _ & Hm'). edestruct (mazeHolds_rowAt_some m') as (r' & E & _ & Hl);
      [exact Hm'|rewrite nth_error_update_at, Hk; reflexivity|].
    rewrite cleanPrefix_length in Hl. eauto. }
  edestruct (forLoop_run
    (fun m' xx => match rowAt m' (Z.of_nat k) with Some r => xx <? rowLength r | None => false end)
    (cleanCell (Z.of_nat k)) P (Z.of_nat (List.length cs)) (S (Z.to_nat (Z.of_nat (List.length cs)))) m 0)
    as (m' & j & -> & ((t & ->) & Hj & Hm') & Hc).
  - split; [exists (mazeRows m); symmetry; apply withRows_id|]. split; [lia|].
    change (cleanPrefix (Z.to_nat 0) cs) with cs. rewrite (update_at_same G k cs Hk). exact Hm.
  - intros m' xx HP. destruct (Hrow _ _ HP) as (r' & -> & ->). apply Z.ltb_lt.
  - intros m' xx HP Hc. destruct (Hrow _ _ HP) as (r' & E & Hl). rewrite E, Hl in Hc.
    apply Z.ltb_lt in Hc. destruct HP as ((t & ->) & Hx & Hm').
    replace xx with (Z.of_nat (Z.to_nat xx)) by lia.
    destruct (cleanCell_step _ G k cs (Z.to_nat xx) Hm' Hk ltac:(lia)) as (t' & -> & Hm'').
    eexists; split; [reflexivity|]. split; [exists t'; reflexivity|]. split; [lia|].
    replace (Z.to_nat (Z.of_nat (Z.to_nat xx) + 1)) with (S (Z.to_nat xx)) by lia. exact Hm''.
  - lia.
  - exists t. split; [reflexivity|].
    destruct (Hrow _ _ (conj (ex_intro _ t eq_refl) (conj Hj Hm'))) as (r' & E & Hl).
    rewrite E, Hl in Hc. apply Z.ltb_ge in Hc.
    replace (Z.to_nat j) with (List.length cs) in Hm' by lia. rewrite cleanPrefix_all in Hm'. exact Hm'.
Qed.

(** [cleanUpMaze] turns every breadcrumb back into a blank. *)
Lemma cleanUpMaze_gclean m g :
  mazeHolds m g ->
  exists t, cleanUpMaze m = Running (withRows m t) /\ mazeHolds (withRows m t) (gclean g).
Proof.
  intros Hm. unfold cleanUpMaze. rewrite (mazeHolds_size m g Hm).
  set (P := fun m' yy => (exists t, m' = withRows m t) /\ 0 <= yy <= Z.of_nat (List.length g) /\
              mazeHolds m' (cleanRows (Z.to_nat yy) g)).
  edestruct (forLoop_run (fun m' yy => yy <? size (mazeRows m')) cleanRow P
    (Z.of_nat (List.length g)) (S (Z.to_nat (Z.of_nat (List.length g)))) m 0)
    as (m' & j & -> & ((t & ->) & Hj & Hm') & Hc).
  - split; [exists (mazeRows m); symmetry; apply withRows_id|]. split; [lia|]. exact Hm.
  - intros m' yy (_ & _ & Hm') Hc. rewrite (mazeHolds_size _ _ Hm'), cleanRows_length in Hc. apply Z.ltb_lt, Hc.
  - intros m' yy ((t & ->) & Hy & Hm') Hc.
    rewrite (mazeHolds_size _ _ Hm'), cleanRows_length in Hc.
    apply Z.ltb_lt in Hc.
    destruct (nth_error g (Z.to_nat yy)) as [cs|] eqn:Hk; [|apply nth_error_None in Hk; lia].
    replace yy with (Z.of_nat (Z.to_nat yy)) by lia.
    destruct (cleanRow_spec _ _ (Z.to_nat yy) cs Hm') as (t' & -> & Hm'');
      [rewrite cleanRows_nth_error; exact Hk|].
    eexists; split; [reflexivity|]. split; [exists t'; reflexivity|]. split; [lia|].
    replace (Z.to_nat (Z.of_nat (Z.to_nat yy) + 1)) with (S (Z.to_nat yy)) by lia.
    rewrite (cleanRows_S _ _ cs Hk). exact Hm''.
  - lia.
  - exists t. split; [reflexivity|].
    rewrite (mazeHolds_size _ _ Hm'), cleanRows_length in Hc.
    apply Z.ltb_ge in Hc. replace (Z.to_nat j) with (List.length g) in Hm' by lia.
    rewrite cleanRows_all in Hm'. exact Hm'.
Qed.

(** ** Searching *)

Lemma moveRel_here m g b : mazeHolds m g -> moveRel m (b, m) (b, g).
Proof.
  intros H. split; [reflexivity|]. split; [exact H|].
  exists (mazeRows m). symmetry. apply withRows_id.
Qed.

(** The path found: clean the breadcrumbs and mark the cell. *)
Lemma found_rel m m' g' xx yy :
  mazeHolds m' g' -> (exists t, m' = withRows m t) ->
  runRel (moveRel m)
    (m2 <-- cleanUpMaze m' ;; m3 <-- changeRow m2 yy xx "." ;; Running (true, m3))
    (Running (true, gset (gclean g') xx yy ".")).
Proof.
  intros H (t & ->). destruct (cleanUpMaze_gclean _ _ H) as (t1 & -> & H1). cbn [bind_run].
  destruct (changeRow_gset _ _ yy xx "." H1) as (t2 & -> & H2). cbn [bind_run runRel].
  split; [reflexivity|]. split; [exact H2|]. exists t2. reflexivity.
Qed.

(** One recursive call of [move] and the test of its result. *)
Ltac move_call IH :=
  eapply runRel_bind; [apply IH; eassumption|];
  let b := fresh "b" in let b' := fresh "b'" in let Hb := fresh "Hb" in
  intros [b ?] [b' ?] (Hb & ? & ? & ?); cbn [fst snd] in *; subst b'; subst;
  destruct b; [apply found_rel; [assumption|eexists; reflexivity]|].

(** [move] on the container is [gmove] on the grid it holds. *)
Lemma move_gmove fuel m g xx yy :
  mazeHolds m g -> runRel (moveRel m) (move fuel m xx yy) (gmove fuel g xx yy).
Proof.
  revert m g xx yy. induction fuel as [|fuel IH]; intros m g xx yy Hm; [exact I|].
  cbn [move gmove]. destruct ((xx <? 0) || (yy <? 0)) eqn:Hneg; [apply moveRel_here, Hm|].
  apply orb_false_iff in Hneg as [Hx Hy]. apply Z.ltb_ge in Hx, Hy.
  pose proof (mazeHolds_rowAt m g yy Hm) as Hr. unfold gridRow in Hr.
  destruct (Z.leb_spec 0 yy); [|lia].
  destruct (rowAt m yy) as [r|], (nth_error g (Z.to_nat yy)) as [cs|]; try contradiction;
    [|apply moveRel_here, Hm].
  destruct Hr as [Hr _]. rewrite (searchMazePoint_nth r cs xx Hr).
  destruct (Z.leb_spec 0 xx); [|lia].
  destruct (nth_error cs (Z.to_nat xx)) as [c|]; cbn [readChar bind_run]; [|reflexivity].
  destruct (c =? "f")%char; [apply moveRel_here, Hm|].
  destruct ((c =? " ")%char || (c =? "s")%char); [|apply moveRel_here, Hm].
  destruct (changeRow_gset m g yy xx "!" Hm) as (t1 & -> & H1). cbn [bind_run].
  move_call IH. move_call IH. move_call IH. move_call IH.
  split; [reflexivity|]. split; [assumption|]. eexists; reflexivity.
Qed.
