(* ===== verification/MazeLoad.v ===== *)
(** * MazeLoad: loading a maze file and printing the maze

    [loadMaze] inserts one row per line of the file, numbered from [0];
    [loadLines_holds] shows that when every character of the file is
    valid the maze holds the lines of the file as a grid, and that
    otherwise the program exits with "Invalid character in maze"; no
    row insertion ever throws, since the row numbers are new.
    [printMaze_grid] shows that [printMaze] writes the lines of the grid
    a maze holds, each with a newline, so that a maze printed right
    after loading is the file again. *)

From Stdlib Require Import ZArith List String Ascii Bool Lia.
From S2P Require Import Prelude Element SortedSpec BinNode BinTree Process MazeRow Maze MazeGrid.
Import ListNotations BinTree MazePoint MazeRow Maze.
Open Scope Z_scope.
Open Scope mazesolver_scope.

(** Every character of the line is one [insertMazePointsIntoRow]
    accepts. *)
Definition validLine (line : string) : bool := forallb validChar (list_ascii_of_string line).

(** The grid of a list of lines. *)
Definition gridOf (lines : list string) : grid := map list_ascii_of_string lines.

(** The lines [printMaze] writes for a grid. *)
Definition printed (g : grid) : list string :=
  map (fun cs => (string_of_list_ascii cs ++ newline)%string) g.

(** The file whose lines are [lines], each ended by a newline. *)
Definition fileOf (lines : list string) : string :=
  fold_right (fun l s => (l ++ newline ++ s)%string) EmptyString lines.

(** The file is empty or its last character is a newline. *)
Fixpoint endsNl (s : string) : bool :=
  match s with
  | EmptyString => true
  | String c EmptyString => (c =? "010")%char
  | String _ s' => endsNl s'
  end.

(** ** Rows appended at the end *)

Lemma rowsHold_keys rs g lo r :
  rowsHold rs g lo -> In r rs -> lo <= y r < lo + Z.of_nat (List.length g).
Proof.
  revert g lo. induction rs as [|r0 rs IH]; intros [|cs g] lo; cbn [rowsHold In]; try tauto.
  intros (Hy & _ & H) [<-|Hin]; cbn [List.length]; [lia|].
  specialize (IH _ _ H Hin). lia.
Qed.

Lemma rowsHold_snoc rs g lo r cs :
  rowsHold rs g lo -> y r = lo + Z.of_nat (List.length g) -> rowHolds r cs ->
  rowsHold (rs ++ [r]) (g ++ [cs]) lo.
Proof.
  revert g lo. induction rs as [|r0 rs IH]; intros [|cs0 g] lo; cbn [rowsHold app]; try tauto.
  - intros _ Hy Hr. cbn in Hy. split; [lia|split; [exact Hr|exact I]].
  - intros (Hy0 & Hr0 & H) Hy Hr. split; [exact Hy0|split; [exact Hr0|]].
    apply IH; [exact H| |exact Hr]. cbn [List.length] in Hy. lia.
Qed.

Lemma Maze0_holds : mazeHolds Maze0 [].
Proof. split; [split; [reflexivity|split; [reflexivity|constructor]]|exact I]. Qed.

(** [insertRowsIntoTree] appends the row of a valid line. *)
Lemma insertRowsIntoTree_holds m g line :
  mazeHolds m g ->
  match insertRowsIntoTree m line (Z.of_nat (List.length g)) with
  | Running m' => validLine line = true /\ mazeHolds m' (g ++ [list_ascii_of_string line]) /\
                  exists t, m' = withRows m t
  | Halted h => validLine line = false /\ h = invalidCharacter
  | OutOfFuel => False
  end.
Proof.
  intros [Hok Hrs]. unfold insertRowsIntoTree, validLine.
  pose proof (insertMazePointsIntoRow_holds (Z.of_nat (List.length g)) line) as Hrow.
  destruct (insertMazePointsIntoRow _ line) as [r|h|]; cbn [bind_run]; [|exact Hrow|contradiction].
  destruct Hrow as (Hv & Hr & Hy).
  pose proof (insert_abstract (mazeRows m) r Hok) as Hins.
  pose proof (insert_keeps_treeOk (mazeRows m) r Hok) as Hok'.
  assert (Hmem : mem_list r (elements (mazeRows m)) = false).
  { apply mem_list_false. intros r' Hin. pose proof (rowsHold_keys _ _ _ _ Hrs Hin).
    apply Z.eqb_neq. lia. }
  unfold set_insert in Hins. rewrite Hmem in Hins.
  destruct (BinTree.insert (mazeRows m) r) as [t|e t]; [|destruct Hins; discriminate].
  destruct Hins as [[= Hel] _]. cbn [of_outcome bind_run]. split; [exact Hv|].
  split; [|exists t; reflexivity]. split; [exact Hok'|]. cbn [mazeRows withRows]. rewrite <- Hel.
  rewrite <- (app_nil_r (elements (mazeRows m))) at 1. rewrite ins_list_app_r.
  - apply rowsHold_snoc; [exact Hrs|lia|exact Hr].
  - intros r' Hin. pose proof (rowsHold_keys _ _ _ _ Hrs Hin). apply Z.ltb_ge. cbn. lia.
Qed.

(** The loading loop appends one row per line. *)
Lemma loadLines_holds lines m g :
  mazeHolds m g ->
  match loadLines m (Z.of_nat (List.length g)) lines with
  | Running m' => forallb validLine lines = true /\ mazeHolds m' (g ++ gridOf lines) /\
                  exists t, m' = withRows m t
  | Halted h => forallb validLine lines = false /\ h = invalidCharacter
  | OutOfFuel => False
  end.
Proof.
  revert m g. induction lines as [|line lines IH]; intros m g Hm; cbn [loadLines forallb].
  - rewrite app_nil_r. split; [reflexivity|]. split; [exact Hm|].
    exists (mazeRows m). symmetry. apply withRows_id.
  - pose proof (insertRowsIntoTree_holds m g line Hm) as H.
    destruct (insertRowsIntoTree m line _) as [m1|h|]; cbn [bind_run]; [|destruct H as [-> ->]; auto|contradiction].
    destruct H as (Hv & Hm1 & t1 & ->). rewrite Hv. cbn [andb].
    specialize (IH _ _ Hm1). rewrite length_app in IH. cbn [List.length] in IH.
    replace (Z.of_nat (List.length g + 1)) with (Z.of_nat (List.length g) + 1) in IH by lia.
    destruct (loadLines _ _ lines) as [m'|h|]; [|exact IH|contradiction].
    destruct IH as (Hl & Hm' & t & ->). split; [exact Hl|]. split; [|exists t; reflexivity].
    rewrite <- app_assoc in Hm'. exact Hm'.
Qed.

(** ** Printing *)

Lemma print_rows rs g lo :
  rowsHold rs g lo -> map (fun r => (toString r ++ newline)%string) rs = printed g.
Proof.
  revert g lo. induction rs as [|r rs IH]; intros [|cs g] lo; cbn [rowsHold]; try tauto.
  intros (_ & Hr & H). cbn [map].
  change (printed (cs :: g)) with ((string_of_list_ascii cs ++ newline)%string :: printed g).
  rewrite (toString_chars r cs Hr). f_equal. eapply IH; eauto.
Qed.

(** [printMaze] writes the lines of the grid. *)
Lemma printMaze_grid m g : mazeHolds m g -> printMaze m = printed g.
Proof. intros [_ Hr]. unfold printMaze. rewrite print_elements. exact (print_rows _ _ _ Hr). Qed.

Lemma printed_gridOf lines :
  printed (gridOf lines) = map (fun line => (line ++ newline)%string) lines.
Proof.
  unfold printed, gridOf. rewrite map_map. apply map_ext. intros l.
  rewrite string_of_list_ascii_of_string. reflexivity.
Qed.

(** ** Lines and files *)

Lemma string_app_assoc (a b c : string) : (a ++ (b ++ c))%string = ((a ++ b) ++ c)%string.
Proof. induction a as [|ch a IH]; cbn; [reflexivity|]. rewrite IH. reflexivity. Qed.

Lemma string_of_list_ascii_app l1 l2 :
  string_of_list_ascii (l1 ++ l2) = (string_of_list_ascii l1 ++ string_of_list_ascii l2)%string.
Proof. induction l1 as [|c l1 IH]; cbn; [reflexivity|]. rewrite IH. reflexivity. Qed.

Lemma fileOf_cons l lines : fileOf (l :: lines) = (l ++ newline ++ fileOf lines)%string.
Proof. reflexivity. Qed.

Lemma fileOf_splitLines s : forall acc,
  endsNl s = true -> (s = EmptyString -> acc = []) ->
  fileOf (splitLines acc s) = (string_of_list_ascii (rev acc) ++ s)%string.
Proof.
  induction s as [|c s IH]; intros acc He Hacc.
  - rewrite (Hacc eq_refl). reflexivity.
  - cbn [splitLines]. destruct (Ascii.eqb_spec c "010") as [->|Hc].
    + rewrite fileOf_cons. rewrite (IH [] ltac:(destruct s; [reflexivity|exact He]) (fun _ => eq_refl)).
      reflexivity.
    + destruct s as [|c' s]; [cbn in He; apply Ascii.eqb_eq in He; contradiction|].
      rewrite IH by (exact He || discriminate). cbn [rev]. rewrite string_of_list_ascii_app.
      rewrite <- string_app_assoc. reflexivity.
Qed.

Lemma fileOf_getlines s : endsNl s = true -> fileOf (getlines s) = s.
Proof. intros He. exact (fileOf_splitLines s [] He (fun _ => eq_refl)). Qed.

Lemma concat_printed lines :
  fold_right append EmptyString (map (fun l => (l ++ newline)%string) lines) = fileOf lines.
Proof.
  induction lines as [|l lines IH]; [reflexivity|]. cbn [map fold_right].
  rewrite IH, fileOf_cons, string_app_assoc. reflexivity.
Qed.

(** ** The program's loading step *)

Lemma loadMaze_lines filename content :
  match loadMaze Maze0 filename (Some content) with
  | Running m => forallb validLine (getlines content) = true /\
                 mazeHolds m (gridOf (getlines content)) /\ exists t, m = withRows Maze0 t
  | Halted h => forallb validLine (getlines content) = false /\ h = invalidCharacter
  | OutOfFuel => False
  end.
Proof. exact (loadLines_holds (getlines content) Maze0 [] Maze0_holds). Qed.

(** C14: [loadMaze] on a file that opens either loads every line into
    a valid maze holding the lines of the file, its start and finish
    still uninitialised, or, when a character is not valid, exits with
    "Invalid character in maze"; it never throws. *)
Theorem loadMaze_spec filename content :
  match loadMaze Maze0 filename (Some content) with
  | Running m => forallb validLine (getlines content) = true /\
                 mazeHolds m (gridOf (getlines content)) /\
                 startX m = None /\ startY m = None /\ finishX m = None /\ finishY m = None
  | Halted h => forallb validLine (getlines content) = false /\ h = invalidCharacter
  | OutOfFuel => False
  end.
Proof.
  pose proof (loadMaze_lines filename content) as H.
  destruct (loadMaze Maze0 filename (Some content)) as [m|h|]; [|exact H|contradiction].
  destruct H as (Hv & Hm & t & ->). auto 7.
Qed.

(** the maze [loadMaze] builds prints, with [printMaze], as the
    lines of the file, each followed by a newline. *)
Theorem load_print_roundtrip filename content m :
  loadMaze Maze0 filename (Some content) = Running m ->
  printMaze m = map (fun line => (line ++ newline)%string) (getlines content).
Proof.
  intros E. pose proof (loadMaze_lines filename content) as H. rewrite E in H.
  destruct H as (_ & Hm & _). rewrite (printMaze_grid m _ Hm). apply printed_gridOf.
Qed.

(** The output of [printMaze] right after loading, written out, is the
    file again. *)
Lemma load_print_file_aux filename content m :
  loadMaze Maze0 filename (Some content) = Running m -> endsNl content = true ->
  fold_right append EmptyString (printMaze m) = content.
Proof.
  intros E He. pose proof (loadMaze_lines filename content) as H. rewrite E in H.
  destruct H as (_ & Hm & _). rewrite (printMaze_grid m _ Hm), printed_gridOf, concat_printed.
  exact (fileOf_getlines content He).
Qed.

(** C15: a maze file that loads and ends with a newline (or is empty) is
    printed back by [printMaze] character for character: the lines
    written, concatenated, are the file. *)
Theorem load_print_file filename content m :
  loadMaze Maze0 filename (Some content) = Running m -> endsNl content = true ->
  fold_right append EmptyString (printMaze m) = content.
Proof. apply load_print_file_aux. Qed.

(** ** Concrete instances *)

Lemma load_print_roundtrip_witness :
  exists m, loadMaze Maze0 "maze.txt" (Some spec_maze_file) = Running m /\
            printMaze m = map (fun line => (line ++ newline)%string) (getlines spec_maze_file).
Proof.
  destruct (loadMaze Maze0 "maze.txt" (Some spec_maze_file)) as [m|h|] eqn:E; try discriminate.
  exists m. exact (conj eq_refl (load_print_roundtrip _ _ m E)).
Defined.

Lemma load_print_file_witness :
  exists m, loadMaze Maze0 "maze.txt" (Some spec_maze_file) = Running m /\
            fold_right append EmptyString (printMaze m) = spec_maze_file.
Proof.
  destruct (loadMaze Maze0 "maze.txt" (Some spec_maze_file)) as [m|h|] eqn:E; try discriminate.
  exists m. exact (conj eq_refl (load_print_file _ _ m E eq_refl)).
Defined.
