(* ===== verification/MazeSearch.v ===== *)
(** * MazeSearch: termination of the depth-first search

    [move] is recursive with no bound in the source.  It ends because
    every call that recurses either marks a blank cell with ['!'] (there
    are finitely many, and on the way back without a path none is
    cleaned) or stands on the start, and no neighbour of the start is a
    start when the maze has a single one (which [checkMaze] requires
    before the search).  [need g x y] is the recursion depth a call
    at [(x, y)] needs: one level for a wall, a finish, a breadcrumb or
    a cell out of the grid, [2 * spaces g + 1] for a blank and
    [2 * spaces g + 2] for the start.  [gmove_total] proves that this
    much fuel is enough, and [move_total] carries it to [move] through
    the refinement [move_gmove], with the fuel [moveFuel] of
    [findPathThroughMaze]. *)

From Stdlib Require Import ZArith List String Ascii Bool Lia.
From S2P Require Import Prelude Element SortedSpec BinNode BinTree Process MazeRow Maze MazeGrid MazeLoad.
Import ListNotations BinTree MazePoint MazeRow Maze.
Open Scope Z_scope.
Open Scope mazesolver_scope.

(** The character at column [x] of line [y]. *)
Definition gcell (g : grid) (xx yy : Z) : option ascii :=
  if (xx <? 0) || (yy <? 0) then None else
  match nth_error g (Z.to_nat yy) with
  | Some cs => nth_error cs (Z.to_nat xx)
  | None => None
  end.

(** The number of cells holding [c]. *)
Definition countChar (c : ascii) (g : grid) : nat :=
  fold_right (fun cs n => (count_occ ascii_dec cs c + n)%nat) O g.

Definition spaces (g : grid) : nat := countChar " " g.

(** The same cells hold ['s']. *)
Definition sameStarts (g g' : grid) : Prop :=
  forall xx yy, gcell g xx yy = Some "s"%char <-> gcell g' xx yy = Some "s"%char.

(** At most one cell holds ['s']. *)
Definition uniqueStart (g : grid) : Prop :=
  forall x1 y1 x2 y2, gcell g x1 y1 = Some "s"%char -> gcell g x2 y2 = Some "s"%char ->
                      x1 = x2 /\ y1 = y2.

(** The recursion depth a call of [gmove] at [(x, y)] needs. *)
Definition need (g : grid) (xx yy : Z) : nat :=
  match gcell g xx yy with
  | Some c =>
      if (c =? " ")%char then S (2 * spaces g)
      else if (c =? "s")%char then S (S (2 * spaces g)) else 1
  | None => 1
  end.

(** The cells of line [y] holding [c], from column [x] on, left to
    right. *)
Fixpoint rowPositions (c : ascii) (cs : list ascii) (xx yy : Z) : list (Z * Z) :=
  match cs with
  | [] => []
  | d :: cs' => (if (d =? c)%char then [(xx, yy)] else []) ++ rowPositions c cs' (xx + 1) yy
  end.

(** The cells holding [c] from line [y] on, in the order [checkMaze]
    scans them. *)
Fixpoint positions (c : ascii) (g : grid) (yy : Z) : list (Z * Z) :=
  match g with
  | [] => []
  | cs :: g' => rowPositions c cs 0 yy ++ positions c g' (yy + 1)
  end.

(** The call at [(x, y)] needs no more than [fuel] levels, and returns
    without a path, if it does, with no more blanks and the same start. *)
Definition searchOk (fuel : nat) (g : grid) (xx yy : Z) : Prop :=
  gmove fuel g xx yy <> OutOfFuel /\
  forall g', gmove fuel g xx yy = Running (false, g') -> (spaces g' <= spaces g)%nat /\ sameStarts g g'.

(** ** Cells after an update *)

Lemma nth_error_update_at_other {T} (l : list T) n n' f :
  n <> n' -> nth_error (update_at l n f) n' = nth_error l n'.
Proof.
  revert n n'. induction l as [|a l IH]; intros [|n] [|n'] Hn; cbn; auto; try lia;
    apply IH; lia.
Qed.

Lemma nth_error_replace_at cs n c n' :
  nth_error (replace_at cs n c) n' =
  match nth_error cs n' with Some d => Some (if Nat.eqb n n' then c else d) | None => None end.
Proof.
  revert n n'. induction cs as [|d cs IH]; intros [|n] [|n']; cbn; auto;
    try rewrite IH; destruct (nth_error cs n'); reflexivity.
Qed.

Lemma nth_error_rowChange cs xx c n' :
  nth_error (rowChange cs xx c) n' =
  match nth_error cs n' with
  | Some d => Some (if (0 <=? xx) && Nat.eqb (Z.to_nat xx) n' && negb (d =? "s")%char then c else d)
  | None => None
  end.
Proof.
  unfold rowChange.
  destruct (Z.leb_spec 0 xx); cbn [andb]; [|destruct (nth_error cs n'); reflexivity].
  destruct (nth_error cs n') as [d|] eqn:E.
  - destruct (Nat.eqb_spec (Z.to_nat xx) n') as [<-|Hne]; cbn [andb].
    + rewrite (nth_error_nth _ _ " "%char E).
      assert (Hl : (Z.to_nat xx < List.length cs)%nat) by (apply nth_error_Some; congruence).
      destruct (Z.ltb_spec xx (Z.of_nat (List.length cs))); [|lia]. cbn [andb].
      destruct (d =? "s")%char; cbn [negb]; [exact E|].
      rewrite nth_error_replace_at, E, Nat.eqb_refl. reflexivity.
    + destruct (_ && _); [|exact E].
      rewrite nth_error_replace_at, E. apply Nat.eqb_neq in Hne. rewrite Hne. reflexivity.
  - destruct (_ && _); [|exact E]. rewrite nth_error_replace_at, E. reflexivity.
Qed.

Lemma gcell_gset g xx yy c xx' yy' :
  gcell (gset g xx yy c) xx' yy' =
  match gcell g xx' yy' with
  | Some d => Some (if (xx' =? xx) && (yy' =? yy) && negb (d =? "s")%char then c else d)
  | None => None
  end.
Proof.
  unfold gcell, gset. destruct ((xx' <? 0) || (yy' <? 0)) eqn:N; [reflexivity|].
  apply orb_false_iff in N as [N1 N2]. apply Z.ltb_ge in N1, N2.
  destruct (Z.leb_spec 0 yy).
  - destruct (Nat.eq_dec (Z.to_nat yy) (Z.to_nat yy')) as [e|ne].
    + rewrite <- e, nth_error_update_at. destruct (nth_error g (Z.to_nat yy)) as [cs|]; [|reflexivity].
      cbn [option_map]. rewrite nth_error_rowChange.
      destruct (nth_error cs (Z.to_nat xx')) as [d|]; [|reflexivity].
      destruct (Z.eqb_spec yy' yy); [|lia].
      destruct (Z.leb_spec 0 xx), (Z.eqb_spec xx' xx), (Nat.eqb_spec (Z.to_nat xx) (Z.to_nat xx'));
        cbn [andb]; try lia; reflexivity.
    + rewrite nth_error_update_at_other by exact ne.
      destruct (Z.eqb_spec yy' yy); [lia|]. rewrite andb_false_r. cbn [andb].
      destruct (nth_error g _); [destruct (nth_error _ _)|]; reflexivity.
  - destruct (Z.eqb_spec yy' yy); [lia|]. rewrite andb_false_r. cbn [andb].
    destruct (nth_error g _); [destruct (nth_error _ _)|]; reflexivity.
Qed.

Lemma gcell_some g xx yy cs c :
  0 <= xx -> 0 <= yy -> nth_error g (Z.to_nat yy) = Some cs -> nth_error cs (Z.to_nat xx) = Some c ->
  gcell g xx yy = Some c.
Proof.
  intros Hx Hy Hg Hc. unfold gcell. destruct (Z.ltb_spec xx 0), (Z.ltb_spec yy 0); try lia.
  cbn [orb]. rewrite Hg. exact Hc.
Qed.

Lemma sameStarts_refl g : sameStarts g g.
Proof. intros ? ?. reflexivity. Qed.

Lemma sameStarts_trans g1 g2 g3 : sameStarts g1 g2 -> sameStarts g2 g3 -> sameStarts g1 g3.
Proof. intros H1 H2 x0 y0. rewrite (H1 x0 y0). apply H2. Qed.

Lemma uniqueStart_same g g' : uniqueStart g -> sameStarts g g' -> uniqueStart g'.
Proof. intros Hu Hs x1 y1 x2 y2 H1 H2. apply Hs in H1, H2. exact (Hu _ _ _ _ H1 H2). Qed.

(** Writing a character other than ['s'] neither makes nor removes a
    start. *)
Lemma gset_sameStarts g xx yy c : c <> "s"%char -> sameStarts g (gset g xx yy c).
Proof.
  intros Hc x0 y0. rewrite gcell_gset. destruct (gcell g x0 y0) as [d|]; [|split; discriminate].
  destruct (Ascii.eqb_spec d "s") as [->|Hd]; rewrite ?andb_false_r; cbn [negb andb].
  - tauto.
  - destruct (_ && _); split; intros H; try injection H as ->; congruence.
Qed.

Lemma update_at_fix {T} (l : list T) n f a : nth_error l n = Some a -> f a = a -> update_at l n f = l.
Proof.
  revert n. induction l as [|b l IH]; intros [|n]; cbn; try discriminate.
  - intros [= ->] ->. reflexivity.
  - intros H Hf. f_equal. apply IH; assumption.
Qed.

(** On the start [changeRow] changes nothing. *)
Lemma gset_start g xx yy c : gcell g xx yy = Some "s"%char -> gset g xx yy c = g.
Proof.
  unfold gcell, gset. destruct ((xx <? 0) || (yy <? 0)) eqn:N; [discriminate|].
  apply orb_false_iff in N as [N1 N2]. apply Z.ltb_ge in N1, N2. destruct (Z.leb_spec 0 yy); [|lia].
  destruct (nth_error g (Z.to_nat yy)) as [cs|] eqn:Hg; [|discriminate]. intros Hc.
  apply (update_at_fix _ _ _ cs Hg). unfold rowChange.
  rewrite (nth_error_nth _ _ " "%char Hc). cbn [Ascii.eqb negb]. rewrite andb_false_r. reflexivity.
Qed.

Lemma count_replace cs n c a :
  (n < List.length cs)%nat ->
  (count_occ ascii_dec (replace_at cs n c) a + (if ascii_dec (nth n cs " "%char) a then 1 else 0) =
   count_occ ascii_dec cs a + (if ascii_dec c a then 1 else 0))%nat.
Proof.
  revert n. induction cs as [|d cs IH]; intros [|n] Hn; cbn [List.length] in Hn; try lia.
  - cbn [replace_at nth count_occ]. destruct (ascii_dec c a), (ascii_dec d a); lia.
  - cbn [replace_at nth count_occ]. specialize (IH n ltac:(lia)). destruct (ascii_dec d a); lia.
Qed.

Lemma countChar_update g k f cs a :
  nth_error g k = Some cs ->
  (countChar a (update_at g k f) + count_occ ascii_dec cs a =
   countChar a g + count_occ ascii_dec (f cs) a)%nat.
Proof.
  unfold countChar. revert k. induction g as [|l g IH]; intros [|k]; cbn; try discriminate.
  - intros [= ->]. lia.
  - intros H. specialize (IH k H). lia.
Qed.

(** Marking a blank removes one blank. *)
Lemma spaces_gset_blank g xx yy :
  gcell g xx yy = Some " "%char -> S (spaces (gset g xx yy "!")) = spaces g.
Proof.
  unfold gcell, gset. destruct ((xx <? 0) || (yy <? 0)) eqn:N; [discriminate|].
  apply orb_false_iff in N as [N1 N2]. apply Z.ltb_ge in N1, N2. destruct (Z.leb_spec 0 yy); [|lia].
  destruct (nth_error g (Z.to_nat yy)) as [cs|] eqn:Hg; [|discriminate]. intros Hc.
  pose proof (countChar_update g _ (fun cs => rowChange cs xx "!") cs " " Hg) as E.
  assert (Hl : (Z.to_nat xx < List.length cs)%nat) by (apply nth_error_Some; congruence).
  assert (Er : rowChange cs xx "!" = replace_at cs (Z.to_nat xx) "!").
  { unfold rowChange. rewrite (nth_error_nth _ _ " "%char Hc).
    destruct (Z.leb_spec 0 xx), (Z.ltb_spec xx (Z.of_nat (List.length cs))); try lia. reflexivity. }
  cbv beta in E. rewrite Er in E. pose proof (count_replace cs (Z.to_nat xx) "!" " " Hl) as R.
  rewrite (nth_error_nth _ _ " "%char Hc) in R. cbn in R. unfold spaces. lia.
Qed.

Lemma need_pos g xx yy : (1 <= need g xx yy)%nat.
Proof. unfold need. destruct (gcell g xx yy); [destruct (_ =? _)%char; [|destruct (_ =? _)%char]|]; lia. Qed.

(** The four calls of a blank or of the start, in sequence. *)
Lemma chain_ok (r : run (bool * grid)) (K : bool * grid -> run (bool * grid)) (Q Q' : grid -> Prop) xx yy :
  r <> OutOfFuel -> (forall g', r = Running (false, g') -> Q g') ->
  (forall g', Q g' -> K (false, g') <> OutOfFuel /\ forall g'', K (false, g') = Running (false, g'') -> Q' g'') ->
  bind_run r (fun p => if fst p then Running (true, gset (gclean (snd p)) xx yy ".") else K p)
    <> OutOfFuel /\
  forall g'', bind_run r (fun p => if fst p then Running (true, gset (gclean (snd p)) xx yy ".")
                                     else K p) = Running (false, g'') -> Q' g''.
Proof.
  intros Hn HQ HK. destruct r as [[[|] g']|h|]; cbn [bind_run fst snd].
  - split; [discriminate|intros ? [=]].
  - apply HK, HQ. reflexivity.
  - split; [discriminate|intros ? [=]].
  - contradiction.
Qed.

Lemma searchOk_leaf g (r : run (bool * grid)) :
  r = Running (false, g) -> r <> OutOfFuel /\
  forall g', r = Running (false, g') -> (spaces g' <= spaces g)%nat /\ sameStarts g g'.
Proof. intros ->. split; [discriminate|]. intros g' [= <-]. split; [lia|apply sameStarts_refl]. Qed.

(** [gmove] never runs out of the depth [need] on a grid with at most
    one start, and returns without a path with no more blanks and the
    same start. *)
Lemma gmove_searchOk fuel : forall g xx yy,
  uniqueStart g -> (need g xx yy <= fuel)%nat -> searchOk fuel g xx yy.
Proof.
  induction fuel as [|fuel IH]; intros g xx yy Hu Hn; [pose proof (need_pos g xx yy); lia|].
  unfold searchOk. cbn [gmove].
  destruct ((xx <? 0) || (yy <? 0)) eqn:Hneg; [apply searchOk_leaf; reflexivity|].
  apply orb_false_iff in Hneg as [Hx Hy]. apply Z.ltb_ge in Hx, Hy.
  destruct (nth_error g (Z.to_nat yy)) as [cs|] eqn:Hg; [|apply searchOk_leaf; reflexivity].
  destruct (nth_error cs (Z.to_nat xx)) as [c|] eqn:Hc; cbn [readChar bind_run];
    [|split; [discriminate|intros ? [=]]].
  pose proof (gcell_some g xx yy cs c Hx Hy Hg Hc) as Hcell.
  destruct (c =? "f")%char; [split; [discriminate|intros ? [=]]|].
  destruct ((c =? " ")%char || (c =? "s")%char) eqn:Hcs; [|apply searchOk_leaf; reflexivity].
  set (g1 := gset g xx yy "!").
  set (Inv := fun g' => (spaces g' <= spaces g1)%nat /\ sameStarts g1 g').
  assert (H1 : sameStarts g g1) by (apply gset_sameStarts; discriminate).
  assert (Hsp : (spaces g1 <= spaces g)%nat /\ (2 * spaces g1 + 1 <= fuel)%nat /\
                (c = "s"%char \/ (2 * spaces g1 + 2 <= fuel)%nat)).
  { unfold need in Hn. rewrite Hcell in Hn.
    apply orb_true_iff in Hcs as [E|E]; apply Ascii.eqb_eq in E; subst c; cbn in Hn.
    - pose proof (spaces_gset_blank g xx yy Hcell). fold g1 in H. lia.
    - unfold g1. rewrite gset_start by exact Hcell. split; [lia|split; [lia|left; reflexivity]]. }
  destruct Hsp as (Hsp1 & Hsp2 & Hsp3).
  assert (Hstep : forall g2 x' y', Inv g2 -> x' <> xx \/ y' <> yy ->
            gmove fuel g2 x' y' <> OutOfFuel /\
            forall g', gmove fuel g2 x' y' = Running (false, g') -> Inv g').
  { intros g2 x' y' [Hs2 Hss2] Hne.
    assert (Hu2 : uniqueStart g2) by (eapply uniqueStart_same; [eapply uniqueStart_same|]; eauto).
    assert (Hn2 : (need g2 x' y' <= fuel)%nat).
    { unfold need. destruct (gcell g2 x' y') as [d|] eqn:Ed; [|lia].
      destruct (d =? " ")%char; [lia|]. destruct (Ascii.eqb_spec d "s") as [->|]; [|lia].
      destruct Hsp3 as [->|Hf]; [|lia]. exfalso.
      apply (proj2 (Hss2 x' y')), (proj2 (H1 x' y')) in Ed.
      destruct (Hu _ _ _ _ Ed Hcell). tauto. }
    destruct (IH g2 x' y' Hu2 Hn2) as [Hno Hres]. split; [exact Hno|].
    intros g' E. destruct (Hres g' E) as [A B]. split; [lia|eapply sameStarts_trans; eauto]. }
  assert (HI1 : Inv g1) by (split; [lia|apply sameStarts_refl]).
  set (Fin := fun g' => (spaces g' <= spaces g)%nat /\ sameStarts g g').
  destruct (Hstep g1 xx (yy + 1) HI1 ltac:(lia)) as [A1 B1].
  apply (chain_ok _ _ Inv Fin); [exact A1|exact B1|intros g2 HI2]; cbn [snd].
  destruct (Hstep g2 xx (yy - 1) HI2 ltac:(lia)) as [A2 B2].
  apply (chain_ok _ _ Inv Fin); [exact A2|exact B2|intros g3 HI3]; cbn [snd].
  destruct (Hstep g3 (xx + 1) yy HI3 ltac:(lia)) as [A3 B3].
  apply (chain_ok _ _ Inv Fin); [exact A3|exact B3|intros g4 HI4]; cbn [snd].
  destruct (Hstep g4 (xx - 1) yy HI4 ltac:(lia)) as [A4 B4].
  apply (chain_ok _ _ Inv Fin); [exact A4|exact B4|intros g5 [HI5 HS5]]; cbn [snd].
  split; [discriminate|]. intros g' [= <-]. split; [lia|eapply sameStarts_trans; eauto].
Qed.

(** ** Where a character is *)

Lemma In_rowPositions c cs lo yy xx yy' :
  In (xx, yy') (rowPositions c cs lo yy) <->
  yy' = yy /\ lo <= xx /\ nth_error cs (Z.to_nat (xx - lo)) = Some c.
Proof.
  revert lo. induction cs as [|d cs IH]; intros lo; cbn [rowPositions].
  - cbn. split; [tauto|]. intros (_ & _ & E). destruct (Z.to_nat _); discriminate.
  - rewrite in_app_iff, IH. destruct (Ascii.eqb_spec d c) as [->|Hd]; cbn [In].
    + split.
      * intros [[[= <- <-]|[]]|(-> & Hx & E)]; [rewrite Z.sub_diag; split; [reflexivity|split; [lia|reflexivity]]|].
        split; [reflexivity|]. split; [lia|].
        replace (Z.to_nat (xx - lo)) with (S (Z.to_nat (xx - (lo + 1)))) by lia. exact E.
      * intros (-> & Hx & E). destruct (Z.eqb_spec xx lo) as [->|Hne]; [left; left; reflexivity|].
        right. split; [reflexivity|]. split; [lia|].
        replace (Z.to_nat (xx - lo)) with (S (Z.to_nat (xx - (lo + 1)))) in E by lia. exact E.
    + split.
      * intros [[]|(-> & Hx & E)]. split; [reflexivity|]. split; [lia|].
        replace (Z.to_nat (xx - lo)) with (S (Z.to_nat (xx - (lo + 1)))) by lia. exact E.
      * intros (-> & Hx & E). destruct (Z.eqb_spec xx lo) as [->|Hne].
        { rewrite Z.sub_diag in E. cbn in E. congruence. }
        right. split; [reflexivity|]. split; [lia|].
        replace (Z.to_nat (xx - lo)) with (S (Z.to_nat (xx - (lo + 1)))) in E by lia. exact E.
Qed.

Lemma In_positions_from c g lo xx yy :
  In (xx, yy) (positions c g lo) <->
  0 <= xx /\ lo <= yy /\
  exists cs, nth_error g (Z.to_nat (yy - lo)) = Some cs /\ nth_error cs (Z.to_nat xx) = Some c.
Proof.
  revert lo. induction g as [|cs g IH]; intros lo; cbn [positions].
  - cbn. split; [tauto|]. intros (_ & _ & cs & E & _). destruct (Z.to_nat _); discriminate.
  - rewrite in_app_iff, In_rowPositions, IH, Z.sub_0_r. split.
    + intros [(-> & Hx & E)|(Hx & Hy & cs' & E1 & E2)].
      * rewrite Z.sub_diag. split; [exact Hx|]. split; [lia|]. exists cs. auto.
      * split; [exact Hx|]. split; [lia|]. exists cs'.
        replace (Z.to_nat (yy - lo)) with (S (Z.to_nat (yy - (lo + 1)))) by lia. auto.
    + intros (Hx & Hy & cs' & E1 & E2). destruct (Z.eqb_spec yy lo) as [->|Hne].
      * rewrite Z.sub_diag in E1. cbn in E1. injection E1 as <-. left. auto.
      * right. split; [exact Hx|]. split; [lia|]. exists cs'.
        replace (Z.to_nat (yy - lo)) with (S (Z.to_nat (yy - (lo + 1)))) in E1 by lia. auto.
Qed.

(** The cells listed by [positions] are those holding the character. *)
Lemma In_positions c g xx yy : In (xx, yy) (positions c g 0) <-> gcell g xx yy = Some c.
Proof.
  rewrite In_positions_from, Z.sub_0_r. unfold gcell. split.
  - intros (Hx & Hy & cs & E1 & E2). destruct (Z.ltb_spec xx 0), (Z.ltb_spec yy 0); try lia.
    cbn [orb]. rewrite E1. exact E2.
  - destruct (Z.ltb_spec xx 0), (Z.ltb_spec yy 0); cbn [orb]; try discriminate.
    destruct (nth_error g (Z.to_nat yy)) as [cs|] eqn:E; [|discriminate]. intros E2.
    split; [lia|]. split; [lia|]. eauto.
Qed.

(** A grid listing at most one start has a single start. *)
Lemma uniqueStart_positions g : (List.length (positions "s" g 0) <= 1)%nat -> uniqueStart g.
Proof.
  intros Hl x1 y1 x2 y2 H1 H2.
  apply (proj2 (In_positions _ _ _ _)) in H1. apply (proj2 (In_positions _ _ _ _)) in H2.
  destruct (positions "s" g 0) as [|p [|q l]]; cbn in *; [contradiction| |lia].
  destruct H1 as [->|[]], H2 as [[= -> ->]|[]]. auto.
Qed.

(** ** The fuel of [findPathThroughMaze] *)

Lemma need_le g xx yy : (need g xx yy <= S (S (2 * spaces g)))%nat.
Proof. unfold need. destruct (gcell g xx yy); [destruct (_ =? _)%char; [|destruct (_ =? _)%char]|]; lia. Qed.

Lemma count_occ_le cs a : (count_occ ascii_dec cs a <= List.length cs)%nat.
Proof. induction cs as [|c cs IH]; cbn; [lia|]. destruct (ascii_dec c a); lia. Qed.

Lemma rowsHold_cells rs g lo :
  rowsHold rs g lo ->
  fold_right (fun r n => (Z.to_nat (rowLength r) + n)%nat) O rs =
  fold_right (fun cs n => (List.length cs + n)%nat) O g.
Proof.
  revert g lo. induction rs as [|r rs IH]; intros [|cs g] lo; cbn [rowsHold]; try tauto.
  intros (_ & Hr & H). cbn [fold_right]. rewrite (rowLength_holds r cs Hr), Nat2Z.id.
  erewrite IH by exact H. reflexivity.
Qed.

Lemma spaces_cellCount m g : mazeHolds m g -> (spaces g <= cellCount m)%nat.
Proof.
  intros [_ Hr]. unfold cellCount. rewrite (rowsHold_cells _ _ _ Hr). unfold spaces, countChar.
  clear. induction g as [|cs g IH]; cbn; [lia|]. pose proof (count_occ_le cs " "%char). lia.
Qed.

(** [move] with the fuel of [findPathThroughMaze] never runs out. *)
Lemma move_total m g xx yy :
  mazeHolds m g -> uniqueStart g -> move (moveFuel m) m xx yy <> OutOfFuel.
Proof.
  intros Hm Hu. apply (runRel_fuel _ _ _ (move_gmove (moveFuel m) m g xx yy Hm)).
  apply (gmove_searchOk (moveFuel m) g xx yy Hu).
  pose proof (need_le g xx yy). pose proof (spaces_cellCount m g Hm). unfold moveFuel. lia.
Qed.

(** ** What the search guarantees *)

(** C12: [move] on a valid maze acts on the grid the maze holds as
    [gmove] does: the same result or the same stop, and a maze, with the
    same start and finish, holding the grid [gmove] returns. *)
Theorem move_refines fuel m g xx yy :
  mazeHolds m g -> runRel (moveRel m) (move fuel m xx yy) (gmove fuel g xx yy).
Proof. apply move_gmove. Qed.

(** C13: on a valid maze with at most one start, [findPathThroughMaze]
    ends: the recursion depth [moveFuel] it gives [move] is never
    exhausted. *)
Theorem findPathThroughMaze_total m g :
  mazeHolds m g -> uniqueStart g -> findPathThroughMaze m <> OutOfFuel.
Proof.
  intros Hm Hu. unfold findPathThroughMaze.
  destruct (startX m) as [sx|]; [|discriminate]. destruct (startY m) as [sy|]; [|discriminate].
  apply move_total with (g := g); assumption.
Qed.

(** ** Concrete instances *)

Lemma spec_maze_holds :
  exists m, loadMaze Maze0 "maze.txt" (Some spec_maze_file) = Running m /\
            mazeHolds m (gridOf (getlines spec_maze_file)).
Proof.
  pose proof (loadMaze_lines "maze.txt" spec_maze_file) as H. revert H.
  destruct (loadMaze Maze0 "maze.txt" (Some spec_maze_file)) as [m|h|] eqn:E; try discriminate.
  intros (_ & Hm & _). exists m. auto.
Qed.

Lemma spec_maze_uniqueStart : uniqueStart (gridOf (getlines spec_maze_file)).
Proof. apply uniqueStart_positions. vm_compute. lia. Qed.

Lemma move_refines_witness :
  exists m, mazeHolds m (gridOf (getlines spec_maze_file)) /\
    runRel (moveRel m) (move 3 m 1 1) (gmove 3 (gridOf (getlines spec_maze_file)) 1 1).
Proof.
  destruct spec_maze_holds as (m & _ & Hm). exists m.
  exact (conj Hm (move_refines 3 m _ 1 1 Hm)).
Defined.

Lemma findPathThroughMaze_total_witness :
  exists m, mazeHolds m (gridOf (getlines spec_maze_file)) /\
    uniqueStart (gridOf (getlines spec_maze_file)) /\ findPathThroughMaze m <> OutOfFuel.
Proof.
  destruct spec_maze_holds as (m & _ & Hm).
  exists (mkMaze (mazeRows m) (Some 1) (Some 1) (Some 2) (Some 0)).
  exact (conj Hm (conj spec_maze_uniqueStart
    (findPathThroughMaze_total (mkMaze (mazeRows m) (Some 1) (Some 1) (Some 2) (Some 0)) _
       Hm spec_maze_uniqueStart))).
Defined.
