(* ===== verification/MazePath.v ===== *)
(** * MazePath: what the depth-first search finds

    [gmove] (the grid form of [Maze::move], see [MazeGrid]) is proved
    correct here.  A call leaves breadcrumbs ['!'] on the blanks it
    enters: the grid only grows in the order [grows] (a blank becomes a
    breadcrumb, nothing else changes).  When it finds the finish, the
    grid it returns is the original one with the cells of a walk from
    the call's cell to an ['f'] marked ['.'] ([gmark]), every
    breadcrumb cleaned; when it does not, the cells it explored form a
    set closed under the four neighbours that holds no finish and
    whose cells are all [trodden] (a breadcrumb or the start), so no
    walk through open cells reaches a finish and every blank [reach]ed
    from the call's cell is left with a breadcrumb.  On a grid where every
    neighbour of an open cell is in its row or beyond the grid
    ([walled]) no call reads past the end of a row.  The four recursive
    calls of [move] are [tryAll] over [neighbours], in the order of the
    source (down, up, right, left). *)

From Stdlib Require Import ZArith List String Ascii Bool Lia RelationClasses.
From S2P Require Import Prelude Process MazeRow Maze MazeGrid MazeLoad MazeSearch.
Import ListNotations MazeRow Maze.
Open Scope Z_scope.
Open Scope mazesolver_scope.

(** ** Cells, walks and marks *)

(** A cell the search enters: a blank or the start. *)
Definition openc (c : ascii) : bool := (c =? " ")%char || (c =? "s")%char.

Definition cell (g : grid) (p : Z * Z) : option ascii := gcell g (fst p) (snd p).

Definition isOpen (g : grid) (p : Z * Z) : Prop :=
  exists c, cell g p = Some c /\ openc c = true.

(** The cells [move(x, y)] calls, in the order of the source. *)
Definition neighbours (p : Z * Z) : list (Z * Z) :=
  [(fst p, snd p + 1); (fst p, snd p - 1); (fst p + 1, snd p); (fst p - 1, snd p)].

(** A walk from [p] through open cells to a finish; [w] lists its open
    cells, [p] first. *)
Inductive walk (g : grid) : Z * Z -> list (Z * Z) -> Prop :=
| walk_finish p : cell g p = Some "f"%char -> walk g p []
| walk_step p q w : isOpen g p -> In q (neighbours p) -> walk g q w -> walk g p (p :: w).

(** [r] is reached from [p] through open cells, both ends included. *)
Inductive reach (g : grid) : Z * Z -> Z * Z -> Prop :=
| reach_here p : isOpen g p -> reach g p p
| reach_step p q r : isOpen g p -> In q (neighbours p) -> reach g q r -> reach g p r.

(** The cells of [w] marked ['.'] by [changeMazePoint]. *)
Definition gmark (g : grid) (w : list (Z * Z)) : grid :=
  fold_right (fun p g' => gset g' (fst p) (snd p) ".") g w.

(** A breadcrumb on a blank, or nothing. *)
Definition crumbStep (c c' : ascii) : Prop := c' = c \/ (c = " "%char /\ c' = "!"%char).

(** [g'] is [g] with breadcrumbs left on some of its blanks. *)
Definition grows (g g' : grid) : Prop := Forall2 (Forall2 crumbStep) g g'.

Definition noCrumbs (g : grid) : Prop := Forall (Forall (fun c => c <> "!"%char)) g.

(** The search has been at [p]: a breadcrumb, or the start, which
    [changeMazePoint] never overwrites. *)
Definition trodden (g : grid) (p : Z * Z) : Prop :=
  cell g p = Some "!"%char \/ cell g p = Some "s"%char.

(** Reading [(x, y)] is defined: it is left of or above the grid, on no
    line, or a cell of its line. *)
Definition cellDefined (g : grid) (p : Z * Z) : Prop :=
  fst p < 0 \/ snd p < 0 \/ gridRow g (snd p) = None \/ cell g p <> None.

(** Every neighbour of an open cell can be read. *)
Definition walled (g : grid) : Prop :=
  forall p q, isOpen g p -> In q (neighbours p) -> cellDefined g q.

(** [cellDefined] and [walled] decided: the open cells are those
    [positions] lists. *)
Definition cellDefinedb (g : grid) (p : Z * Z) : bool :=
  (fst p <? 0) || (snd p <? 0) ||
  match gridRow g (snd p) with None => true | Some _ => match cell g p with Some _ => true | None => false end end.

Definition walledb (g : grid) : bool :=
  forallb (fun p => forallb (cellDefinedb g) (neighbours p)) (positions " " g 0 ++ positions "s" g 0).

(** The calls of [move] on the neighbours, each on the grid the previous
    one left, up to the first that finds the finish. *)
Fixpoint tryAll (f : grid -> Z -> Z -> run (bool * grid)) (ns : list (Z * Z)) (g : grid) (xx yy : Z)
  : run (bool * grid) :=
  match ns with
  | [] => Running (false, g)
  | n :: ns' =>
      r <-- f g (fst n) (snd n) ;;
      if fst r then Running (true, gset (gclean (snd r)) xx yy ".") else tryAll f ns' (snd r) xx yy
  end.

(** What a failed call leaves: a grown grid, and a set [S] of explored
    cells holding the call's cell when it is open and every new
    breadcrumb, with no finish, closed under the neighbours of open
    cells, and trodden. *)
Definition explored (g g' : grid) (S : Z * Z -> Prop) : Prop :=
  (forall p, S p -> cell g' p <> Some "f"%char) /\
  (forall p, cell g p = Some " "%char -> cell g' p = Some "!"%char -> S p) /\
  (forall p q, S p -> In q (neighbours p) -> cell g' q <> Some "f"%char /\ (isOpen g' q -> S q)) /\
  (forall p, S p -> trodden g' p).

(** The outcome of a call of [gmove] at [p] on [g], a grown [g0]. *)
Definition searchSpec (g0 g : grid) (p : Z * Z) (r : run (bool * grid)) : Prop :=
  match r with
  | Running (true, g') => exists w, walk g0 p w /\ g' = match w with [] => g | _ => gmark g0 w end
  | Running (false, g') =>
      grows g g' /\ cell g' p <> Some "f"%char /\
      exists S, (isOpen g p -> S p) /\ explored g g' S
  | Halted _ => walled g0 -> cellDefined g p -> False
  | OutOfFuel => True
  end.

(** ** The crumb order *)

#[export] Instance crumbStep_PreOrder : PreOrder crumbStep.
Proof.
  split; [intros c; left; reflexivity|].
  intros a b c [->|[-> ->]] [->|[E ->]]; unfold crumbStep; auto; discriminate.
Qed.

Lemma Forall2_refl' {T} (R : T -> T -> Prop) `{!Reflexive R} l : Forall2 R l l.
Proof. induction l; constructor; auto. Qed.

#[export] Instance Forall2_Reflexive {T} (R : T -> T -> Prop) `{!Reflexive R} : Reflexive (Forall2 R).
Proof. intros l. apply Forall2_refl'. exact _. Qed.

Lemma Forall2_trans' {T} (R : T -> T -> Prop) `{!Transitive R} l1 l2 l3 :
  Forall2 R l1 l2 -> Forall2 R l2 l3 -> Forall2 R l1 l3.
Proof.
  intros H; revert l3. induction H; intros l3 H'; inversion H'; subst; constructor; eauto.
Qed.

#[export] Instance grows_PreOrder : PreOrder grows.
Proof.
  split.
  - intros g. apply Forall2_refl'. intros cs. apply Forall2_refl'. exact _.
  - intros g1 g2 g3. apply Forall2_trans'. intros a b c. apply Forall2_trans'. exact _.
Qed.

Lemma Forall2_nth_error {T U} (R : T -> U -> Prop) l l' n :
  Forall2 R l l' ->
  match nth_error l n, nth_error l' n with
  | Some a, Some b => R a b
  | None, None => True
  | _, _ => False
  end.
Proof.
  intros H; revert n. induction H as [|a b l l' Hab H IH]; intros [|n]; cbn; auto. apply IH.
Qed.

Lemma Forall2_update_at {T} (R : T -> T -> Prop) `{!Reflexive R} l n f :
  (forall a, nth_error l n = Some a -> R a (f a)) -> Forall2 R l (update_at l n f).
Proof.
  revert n. induction l as [|a l IH]; intros [|n] Hf; cbn; constructor;
    auto using Forall2_refl'; apply Hf; reflexivity.
Qed.

Lemma Forall2_replace_at (R : ascii -> ascii -> Prop) `{!Reflexive R} cs n c :
  (forall a, nth_error cs n = Some a -> R a c) -> Forall2 R cs (replace_at cs n c).
Proof.
  revert n. induction cs as [|a cs IH]; intros [|n] Hf; cbn; constructor;
    auto using Forall2_refl'; apply Hf; reflexivity.
Qed.

(** A grown grid keeps every cell, or has a breadcrumb on a blank. *)
Lemma grows_cell g g' p :
  grows g g' -> cell g' p = cell g p \/ (cell g p = Some " "%char /\ cell g' p = Some "!"%char).
Proof.
  intros H. unfold cell, gcell. destruct (_ || _); [left; reflexivity|].
  pose proof (Forall2_nth_error _ _ _ (Z.to_nat (snd p)) H) as Hr.
  destruct (nth_error g _) as [cs|], (nth_error g' _) as [cs'|]; try contradiction; [|left; reflexivity].
  pose proof (Forall2_nth_error _ _ _ (Z.to_nat (fst p)) Hr) as Hc.
  destruct (nth_error cs _) as [c|], (nth_error cs' _) as [c'|]; try contradiction; [|left; reflexivity].
  destruct Hc as [->|[-> ->]]; auto.
Qed.

Lemma grows_gridRow g g' yy : grows g g' -> (gridRow g yy = None <-> gridRow g' yy = None).
Proof.
  intros H. unfold gridRow. destruct (0 <=? yy); [|tauto].
  pose proof (Forall2_nth_error _ _ _ (Z.to_nat yy) H) as Hr.
  destruct (nth_error g _), (nth_error g' _); try contradiction; split; congruence.
Qed.

Lemma grows_finish g g' p : grows g g' -> (cell g' p = Some "f"%char <-> cell g p = Some "f"%char).
Proof. intros H. destruct (grows_cell g g' p H) as [->|[-> ->]]; split; congruence. Qed.

Lemma grows_open g g' p : grows g g' -> isOpen g' p -> isOpen g p.
Proof.
  intros H (c & Ec & Hc). destruct (grows_cell g g' p H) as [E|[E1 E2]].
  - exists c. rewrite <- E. auto.
  - rewrite E2 in Ec. injection Ec as <-. discriminate.
Qed.

(** A breadcrumb stays. *)
Lemma grows_crumb g g' p : grows g g' -> cell g p = Some "!"%char -> cell g' p = Some "!"%char.
Proof. intros H E. destruct (grows_cell g g' p H) as [->|[E' _]]; congruence. Qed.

Lemma grows_trodden g g' p : grows g g' -> trodden g p -> trodden g' p.
Proof.
  unfold trodden. intros H Ht. destruct (grows_cell g g' p H) as [->|[E' _]]; [exact Ht|].
  destruct Ht; congruence.
Qed.

Lemma grows_defined g g' p : grows g g' -> cellDefined g p -> cellDefined g' p.
Proof.
  intros H [?|[?|[E|E]]]; unfold cellDefined; auto.
  - do 2 right. left. exact (proj1 (grows_gridRow g g' _ H) E).
  - do 3 right. destruct (grows_cell g g' p H) as [->|[_ ->]]; [exact E|discriminate].
Qed.

Lemma grows_walled g g' : grows g g' -> walled g -> walled g'.
Proof. intros H Hw p q Hp Hq. apply (grows_defined g); [exact H|]. eauto using grows_open. Qed.

(** Leaving a breadcrumb on an open cell grows the grid. *)
Lemma grows_gset_crumb g p :
  isOpen g p -> grows g (gset g (fst p) (snd p) "!").
Proof.
  intros (c & Ec & Hc). unfold openc in Hc.
  destruct (Ascii.eqb_spec c "s") as [->|Hs].
  - rewrite (gset_start g _ _ _ Ec). reflexivity.
  - rewrite orb_false_r in Hc. apply Ascii.eqb_eq in Hc as ->.
    unfold cell, gcell in Ec. destruct ((fst p <? 0) || (snd p <? 0)) eqn:N; [discriminate|].
    apply orb_false_iff in N as [N1 N2]. apply Z.ltb_ge in N1, N2. unfold gset.
    destruct (Z.leb_spec 0 (snd p)); [|lia].
    apply Forall2_update_at; [exact _|]. intros cs Hcs. rewrite Hcs in Ec.
    unfold rowChange. rewrite (nth_error_nth _ _ " "%char Ec).
    assert (Hl : (Z.to_nat (fst p) < List.length cs)%nat) by (apply nth_error_Some; congruence).
    destruct (Z.leb_spec 0 (fst p)), (Z.ltb_spec (fst p) (Z.of_nat (List.length cs))); try lia.
    cbn [andb negb Ascii.eqb]. apply Forall2_replace_at; [exact _|].
    intros a Ea. rewrite Ea in Ec. injection Ec as ->. right. auto.
Qed.

(** The breadcrumb [move] leaves on an open cell. *)
Lemma gset_crumb_trodden g p : isOpen g p -> trodden (gset g (fst p) (snd p) "!") p.
Proof.
  intros (c & Ec & Hc). unfold trodden, cell. rewrite gcell_gset. fold (cell g p). rewrite Ec, !Z.eqb_refl.
  unfold openc in Hc. destruct (Ascii.eqb_spec c "s") as [->|Hs]; [right; reflexivity|left; reflexivity].
Qed.

(** ** Cleaning and marking *)

Lemma Forall_update_at {T} (P : T -> Prop) l n f :
  (forall a, P a -> P (f a)) -> Forall P l -> Forall P (update_at l n f).
Proof.
  intros Hf H; revert n. induction H as [|a l Ha H IH]; intros [|n]; cbn; constructor; auto.
Qed.

Lemma Forall_replace_at (P : ascii -> Prop) cs n c : P c -> Forall P cs -> Forall P (replace_at cs n c).
Proof.
  intros Hc H; revert n. induction H as [|a cs Ha H IH]; intros [|n]; cbn; constructor; auto.
Qed.

Lemma noCrumbs_gset g xx yy c : c <> "!"%char -> noCrumbs g -> noCrumbs (gset g xx yy c).
Proof.
  intros Hc H. unfold gset. destruct (0 <=? yy); [|exact H].
  apply Forall_update_at; [|exact H]. intros cs Hcs. unfold rowChange.
  destruct (_ && _); [apply Forall_replace_at|]; assumption.
Qed.

Lemma noCrumbs_gmark g w : noCrumbs g -> noCrumbs (gmark g w).
Proof. intros H. induction w as [|p w IH]; [exact H|]. apply noCrumbs_gset; [discriminate|exact IH]. Qed.

(** Cleaning a grown grid without breadcrumbs of its own gives it back. *)
Lemma gclean_grows g0 g : noCrumbs g0 -> grows g0 g -> gclean g = g0.
Proof.
  intros H0 H. unfold gclean. induction H as [|cs cs' g0 g Hc H IH]; [reflexivity|].
  inversion H0 as [|? ? Hcs H0']; subst. cbn [map]. f_equal; [|auto].
  clear - Hc Hcs. induction Hc as [|c c' cs cs' Hcc Hc IH]; [reflexivity|].
  inversion Hcs as [|? ? Hn Hcs']; subst. cbn [map]. f_equal; [|auto].
  destruct Hcc as [->|[-> ->]]; [apply unbreadcrumb_id; exact Hn|reflexivity].
Qed.

Lemma gclean_noCrumbs g : noCrumbs g -> gclean g = g.
Proof. intros H. apply gclean_grows; [exact H|reflexivity]. Qed.

(** The open-cell branch of [gmove] is [tryAll] over the neighbours. *)
Lemma gmove_S fuel g xx yy :
  gmove (S fuel) g xx yy =
  if (xx <? 0) || (yy <? 0) then Running (false, g) else
  match nth_error g (Z.to_nat yy) with
  | None => Running (false, g)
  | Some cs =>
      c <-- readChar (nth_error cs (Z.to_nat xx)) ;;
      if (c =? "f")%char then Running (true, g) else
      if openc c then tryAll (gmove fuel) (neighbours (xx, yy)) (gset g xx yy "!") xx yy
      else Running (false, g)
  end.
Proof. reflexivity. Qed.

(** ** The calls on the neighbours *)

(** After the calls on the neighbours [done] from the grid [g1] (the
    grid with the call's breadcrumb): a grown grid, its explored set,
    and every cell of [done] explored or closed. *)
Definition doneInv (g1 g : grid) (S : Z * Z -> Prop) (done : list (Z * Z)) : Prop :=
  grows g1 g /\ explored g1 g S /\
  forall q, In q done -> cell g q <> Some "f"%char /\ (isOpen g q -> S q).

Lemma doneInv_start g1 : doneInv g1 g1 (fun _ => False) [].
Proof.
  split; [reflexivity|]. split; [|intros ? []].
  split; [intros ? []|split; [congruence|split; [intros ? ? []|intros ? []]]].
Qed.

(** One more failed call keeps the invariant, its explored set added. *)
Lemma doneInv_step g1 g g' S S' done n :
  doneInv g1 g S done -> grows g g' -> cell g' n <> Some "f"%char ->
  (isOpen g n -> S' n) -> explored g g' S' ->
  doneInv g1 g' (fun q => S q \/ S' q) (done ++ [n]).
Proof.
  intros (H1 & (Ea & Eb & Ec & Ed) & Hd) Hg Hn Hs (Fa & Fb & Fc & Fd).
  split; [etransitivity; eassumption|]. split; [split; [|split; [|split]]|].
  - intros p [Hp|Hp]; [|auto]. rewrite (grows_finish _ _ _ Hg). auto.
  - intros p E1 E2. destruct (grows_cell g1 g p H1) as [E|[_ E]]; [|auto].
    right. apply Fb; congruence.
  - intros p q [Hp|Hp] Hq.
    + destruct (Ec p q Hp Hq) as [Hf Ho]. rewrite (grows_finish _ _ _ Hg).
      split; [exact Hf|]. intros Ho'. left. eauto using grows_open.
    + destruct (Fc p q Hp Hq) as [Hf Ho]. split; [exact Hf|]. intros Ho'. right. auto.
  - intros p [Hp|Hp]; [exact (grows_trodden _ _ _ Hg (Ed p Hp))|exact (Fd p Hp)].
  - intros q Hq. apply in_app_or in Hq as [Hq|[<-|[]]].
    + destruct (Hd q Hq) as [Hf Ho]. rewrite (grows_finish _ _ _ Hg).
      split; [exact Hf|]. intros Ho'. left. eauto using grows_open.
    + split; [exact Hn|]. intros Ho'. right. eauto using grows_open.
Qed.

Section TryAll.
Context (g0 g1 : grid) (f : grid -> Z -> Z -> run (bool * grid)) (xx yy : Z).
Hypothesis (H01 : grows g0 g1).

Lemma tryAll_spec ns : forall g S done,
  doneInv g1 g S done ->
  (forall n, In n ns -> walled g0 -> cellDefined g0 n) ->
  (forall g' n, In n ns -> grows g0 g' -> searchSpec g0 g' n (f g' (fst n) (snd n))) ->
  match tryAll f ns g xx yy with
  | Running (true, g') =>
      exists n w gi, In n ns /\ walk g0 n w /\ grows g0 gi /\
        g' = gset (gclean (match w with [] => gi | _ => gmark g0 w end)) xx yy "."
  | Running (false, g') => exists S', doneInv g1 g' S' (done ++ ns)
  | Halted _ => walled g0 -> False
  | OutOfFuel => True
  end.
Proof.
  induction ns as [|n ns IH]; intros g S done Hinv Hdef Hf; cbn [tryAll].
  - rewrite app_nil_r. eauto.
  - assert (Hg : grows g0 g) by (etransitivity; [exact H01|exact (proj1 Hinv)]).
    specialize (Hf g n (or_introl eq_refl) Hg) as Hn.
    destruct (f g (fst n) (snd n)) as [[[|] g']|h|]; cbn [bind_run fst snd searchSpec] in *.
    + destruct Hn as (w & Hw & ->). exists n, w, g. auto using in_eq.
    + destruct Hn as (Hgg & Hfin & S' & Hs & Hex).
      pose proof (doneInv_step _ _ _ _ _ _ _ Hinv Hgg Hfin Hs Hex) as Hinv'.
      specialize (IH _ _ _ Hinv' (fun n' H => Hdef n' (in_cons _ _ _ H))
                    (fun g'' n' H => Hf g'' n' (in_cons _ _ _ H))).
      rewrite <- app_assoc in IH. cbn [app] in IH.
      destruct (tryAll f ns g' xx yy) as [[[|] g'']|h|]; auto.
      destruct IH as (n' & w & gi & Hin & IH). exists n', w, gi. auto using in_cons.
    + intros Hw. apply (Hn Hw), (grows_defined g0); [exact Hg|]. apply Hdef; [left; reflexivity|exact Hw].
    + exact I.
Qed.

End TryAll.

(** ** The search *)

Lemma point_eq_dec (p q : Z * Z) : {p = q} + {p <> q}.
Proof. decide equality; apply Z.eq_dec. Defined.

Lemma cell_gset_other g p q c : q <> p -> cell (gset g (fst p) (snd p) c) q = cell g q.
Proof.
  intros Hne. unfold cell. rewrite gcell_gset. destruct (gcell g _ _) as [d|]; [|reflexivity].
  destruct (Z.eqb_spec (fst q) (fst p)), (Z.eqb_spec (snd q) (snd p)); cbn [andb]; try reflexivity.
  destruct p, q; cbn in *; subst; contradiction.
Qed.

(** A call that stops at once without a path. *)
Lemma leaf_spec g0 g p :
  cell g p <> Some "f"%char -> ~ isOpen g p -> searchSpec g0 g p (Running (false, g)).
Proof.
  intros Hf Ho. split; [reflexivity|]. split; [exact Hf|]. exists (fun _ => False).
  split; [exact Ho|]. split; [intros _ []|split; [congruence|split; [intros ? ? []|intros _ []]]].
Qed.

(** Marking the call's cell after a path found from a neighbour. *)
Lemma found_spec g0 p n w gi :
  noCrumbs g0 -> isOpen g0 p -> In n (neighbours p) -> walk g0 n w -> grows g0 gi ->
  walk g0 p (p :: w) /\
  gset (gclean (match w with [] => gi | _ => gmark g0 w end)) (fst p) (snd p) "." = gmark g0 (p :: w).
Proof.
  intros H0 Hp Hn Hw Hgi. split; [econstructor; eassumption|].
  destruct w as [|q w].
  - rewrite (gclean_grows g0 gi H0 Hgi). reflexivity.
  - rewrite gclean_noCrumbs by (apply noCrumbs_gmark; exact H0). reflexivity.
Qed.

(** [explored] after the four calls, with the call's cell added. *)
Lemma explored_after g g' S p :
  isOpen g p -> doneInv (gset g (fst p) (snd p) "!") g' S (neighbours p) ->
  explored g g' (fun q => S q \/ q = p).
Proof.
  intros Hp (H1 & (Ea & Eb & Ec & Ed) & Hd). split; [|split; [|split]].
  - intros q [Hq| ->]; [auto|]. intros E.
    assert (Hgg : grows g g') by (etransitivity; [apply grows_gset_crumb, Hp|exact H1]).
    apply (grows_finish _ _ _ Hgg) in E. destruct Hp as (c & Ec' & Hc).
    rewrite E in Ec'. injection Ec' as <-. discriminate.
  - intros q E1 E2. destruct (point_eq_dec q p) as [->|Hne]; [right; reflexivity|].
    left. apply Eb; [rewrite cell_gset_other by exact Hne; exact E1|exact E2].
  - intros q r [Hq| ->] Hr; [destruct (Ec q r Hq Hr) as [Hf Ho]; split; [exact Hf|]|].
    + intros Ho'. left. auto.
    + destruct (Hd r Hr) as [Hf Ho]. split; [exact Hf|]. intros Ho'. left. auto.
  - intros q [Hq| ->]; [exact (Ed q Hq)|]. exact (grows_trodden _ _ _ H1 (gset_crumb_trodden g p Hp)).
Qed.

Section Search.
Context (g0 : grid).
Hypothesis (H0 : noCrumbs g0).

(** Every call of [gmove] on a grown [g0] meets [searchSpec]. *)
Lemma gmove_spec fuel : forall g p, grows g0 g -> searchSpec g0 g p (gmove fuel g (fst p) (snd p)).
Proof.
  induction fuel as [|fuel IH]; intros g p Hg; [exact I|]. rewrite gmove_S.
  destruct ((fst p <? 0) || (snd p <? 0)) eqn:Hneg.
  { assert (E : cell g p = None) by (unfold cell, gcell; rewrite Hneg; reflexivity).
    apply leaf_spec; [congruence|intros (c & Ec & _); congruence]. }
  apply orb_false_iff in Hneg as [Hx Hy]. apply Z.ltb_ge in Hx, Hy.
  destruct (nth_error g (Z.to_nat (snd p))) as [cs|] eqn:Hr.
  2:{ assert (E : cell g p = None).
      { unfold cell, gcell. destruct (Z.ltb_spec (fst p) 0), (Z.ltb_spec (snd p) 0); try lia.
        cbn [orb]. rewrite Hr. reflexivity. }
      apply leaf_spec; [congruence|intros (c & Ec & _); congruence]. }
  destruct (nth_error cs (Z.to_nat (fst p))) as [c|] eqn:Hc; cbn [readChar bind_run].
  2:{ intros _ [?|[?|[E|E]]]; try lia.
      - unfold gridRow in E. destruct (Z.leb_spec 0 (snd p)); [congruence|lia].
      - apply E. unfold cell, gcell. destruct (Z.ltb_spec (fst p) 0), (Z.ltb_spec (snd p) 0); try lia.
        cbn [orb]. rewrite Hr. exact Hc. }
  assert (Ecell : cell g p = Some c) by exact (gcell_some g _ _ cs c Hx Hy Hr Hc).
  destruct (Ascii.eqb_spec c "f") as [->|Hf].
  { exists []. split; [|reflexivity]. constructor. apply (grows_finish _ _ _ Hg). exact Ecell. }
  destruct (openc c) eqn:Ho.
  2:{ apply leaf_spec; [congruence|]. intros (c' & Ec' & Ho'). congruence. }
  assert (Hp : isOpen g p) by (exists c; auto).
  assert (Hp0 : isOpen g0 p) by exact (grows_open _ _ _ Hg Hp).
  assert (H01 : grows g0 (gset g (fst p) (snd p) "!")) by (etransitivity; [exact Hg|apply grows_gset_crumb, Hp]).
  pose proof (tryAll_spec g0 _ (gmove fuel) (fst p) (snd p) H01 (neighbours (fst p, snd p)) _ _ _
                (doneInv_start _) (fun n Hn Hw => Hw p n Hp0 Hn) (fun g' n _ Hg' => IH g' n Hg')) as T.
  rewrite <- surjective_pairing in T.
  destruct (tryAll _ _ _ _ _) as [[[|] g']|h|]; cbn [searchSpec app] in *.
  - destruct T as (n & w & gi & Hn & Hw & Hgi & ->). exists (p :: w).
    exact (found_spec g0 p n w gi H0 Hp0 Hn Hw Hgi).
  - destruct T as [S T]. split; [etransitivity; [apply grows_gset_crumb, Hp|exact (proj1 T)]|].
    split.
    + apply (explored_after g g' S p Hp T). right. reflexivity.
    + exists (fun q => S q \/ q = p). split; [intros _; right; reflexivity|].
      exact (explored_after g g' S p Hp T).
  - intros Hw _. exact (T Hw).
  - exact I.
Qed.

End Search.

(** ** No walk leaves an explored set *)

Lemma walk_head g p w : walk g p w -> cell g p = Some "f"%char \/ isOpen g p.
Proof. intros []; auto. Qed.

Lemma explored_enter g0 g' S q :
  grows g0 g' -> explored g0 g' S -> cell g0 q = Some "f"%char \/ isOpen g0 q ->
  cell g' q <> Some "f"%char -> (isOpen g' q -> S q) -> S q.
Proof.
  intros Hg (_ & Eb & _) [Hf|(c & Ec & Hc)] Hnf Ho.
  - apply (grows_finish _ _ _ Hg) in Hf. contradiction.
  - destruct (grows_cell _ _ q Hg) as [E|[E1 E2]]; [apply Ho; exists c; rewrite E; auto|auto].
Qed.

Lemma reach_open g p r : reach g p r -> isOpen g p.
Proof. intros []; assumption. Qed.

(** An explored set holds every cell reached from one of its cells. *)
Lemma explored_reach g0 g' S p r :
  grows g0 g' -> explored g0 g' S -> S p -> reach g0 p r -> S r.
Proof.
  intros Hg HS Hs Hr. induction Hr as [p _|p q r _ Hq Hr IH]; [exact Hs|]. apply IH.
  destruct (proj1 (proj2 (proj2 HS)) p q Hs Hq) as [Hnf Ho].
  exact (explored_enter g0 g' S q Hg HS (or_intror (reach_open _ _ _ Hr)) Hnf Ho).
Qed.

(** A trodden cell that was blank holds a breadcrumb. *)
Lemma trodden_blank g g' p :
  grows g g' -> trodden g' p -> cell g p = Some " "%char -> cell g' p = Some "!"%char.
Proof. intros Hg [E|E] E0; [exact E|]. destruct (grows_cell g g' p Hg) as [E'|[_ E']]; congruence. Qed.

(** No walk starts in an explored set. *)
Lemma explored_no_walk g0 g' S p w :
  grows g0 g' -> explored g0 g' S -> walk g0 p w -> S p -> False.
Proof.
  intros Hg HS Hw. induction Hw as [p Hf|p q w Hp Hq Hw IH]; intros Hs.
  - apply (proj1 HS p Hs). apply (grows_finish _ _ _ Hg). exact Hf.
  - destruct (proj1 (proj2 (proj2 HS)) p q Hs Hq) as [Hnf Ho].
    exact (IH (explored_enter g0 g' S q Hg HS (walk_head _ _ _ Hw) Hnf Ho)).
Qed.

Lemma existsb_cons_point q p w :
  existsb (fun r => (fst r =? fst q) && (snd r =? snd q)) (p :: w) =
  ((fst q =? fst p) && (snd q =? snd p)) || existsb (fun r => (fst r =? fst q) && (snd r =? snd q)) w.
Proof. cbn [existsb]. rewrite (Z.eqb_sym (fst p)), (Z.eqb_sym (snd p)). reflexivity. Qed.

(** The cells [gmark] changes: the ones of [w], unless a start. *)
Lemma cell_gmark g w q :
  cell (gmark g w) q =
  match cell g q with
  | Some d => Some (if existsb (fun r => (fst r =? fst q) && (snd r =? snd q)) w && negb (d =? "s")%char
                    then "."%char else d)
  | None => None
  end.
Proof.
  induction w as [|p w IH].
  - cbn [gmark fold_right existsb andb]. destruct (cell g q); reflexivity.
  - unfold gmark; cbn [fold_right]; fold (gmark g w). unfold cell at 1. rewrite gcell_gset.
    fold (cell (gmark g w) q). rewrite IH, existsb_cons_point. destruct (cell g q) as [d|]; [|reflexivity].
    destruct (Ascii.eqb_spec d "s"%char) as [E|Hd]; [subst d; cbn [negb]; rewrite !andb_false_r; reflexivity|].
    destruct (existsb _ w), ((fst q =? fst p) && (snd q =? snd p)); cbn; try reflexivity.
    destruct (Ascii.eqb_spec d "s"%char); [contradiction|reflexivity].
Qed.

Lemma cellDefinedb_sound g p : cellDefinedb g p = true -> cellDefined g p.
Proof.
  unfold cellDefinedb, cellDefined. intros H. apply orb_true_iff in H as [H|H]; [apply orb_true_iff in H as [H|H]|].
  - left. apply Z.ltb_lt. exact H.
  - right. left. apply Z.ltb_lt. exact H.
  - right. right. destruct (gridRow g (snd p)); [right|left; reflexivity]. destruct (cell g p); congruence.
Qed.

Lemma walledb_walled g : walledb g = true -> walled g.
Proof.
  unfold walledb. intros H p q (c & Ec & Hc) Hq. apply cellDefinedb_sound.
  rewrite forallb_forall in H. refine (proj1 (forallb_forall _ _) (H p _) q Hq).
  destruct p as [xx yy]. apply in_or_app. unfold openc in Hc.
  apply orb_true_iff in Hc as [E|E]; apply Ascii.eqb_eq in E; subst c; [left|right]; apply In_positions; exact Ec.
Qed.

(** A cell whose neighbours are neither open nor a finish starts no
    walk unless it is a finish. *)
Lemma walk_blocked g p :
  cell g p <> Some "f"%char ->
  (forall q, In q (neighbours p) -> cell g q <> Some "f"%char /\ ~ isOpen g q) -> forall w, ~ walk g p w.
Proof.
  intros Hp Hq w Hw. inversion Hw as [? Hf|? q ? _ Hin Hw']; subst; [contradiction|].
  destruct (Hq q Hin) as [Hf Ho]. destruct (walk_head _ _ _ Hw'); contradiction.
Qed.

Lemma wall_blocks g q : cell g q = Some "#"%char -> cell g q <> Some "f"%char /\ ~ isOpen g q.
Proof. intros E. rewrite E. split; [discriminate|]. intros (c & Ec & Hc). rewrite E in Ec. injection Ec as <-. discriminate. Qed.

(** ** What a search from the original grid returns *)

Section Outcomes.
Context (g0 : grid).
Hypothesis (H0 : noCrumbs g0).

(** A path found is a walk to a finish whose blanks are marked ['.'],
    every breadcrumb cleaned. *)
Lemma gmove_found fuel p g' :
  gmove fuel g0 (fst p) (snd p) = Running (true, g') -> exists w, walk g0 p w /\ g' = gmark g0 w.
Proof.
  intros E. pose proof (gmove_spec g0 H0 fuel g0 p (reflexivity _)) as S. rewrite E in S.
  destruct S as (w & Hw & ->). exists w. split; [exact Hw|]. destruct w; reflexivity.
Qed.

(** No path found: no walk from the cell reaches a finish, and the grid
    keeps the breadcrumbs of the search. *)
Lemma gmove_not_found fuel p g' :
  gmove fuel g0 (fst p) (snd p) = Running (false, g') -> grows g0 g' /\ forall w, ~ walk g0 p w.
Proof.
  intros E. pose proof (gmove_spec g0 H0 fuel g0 p (reflexivity _)) as S. rewrite E in S.
  destruct S as (Hg & Hnf & S & Hs & Hex). split; [exact Hg|]. intros w Hw.
  destruct (walk_head _ _ _ Hw) as [Hf|Ho].
  - apply Hnf, (grows_finish _ _ _ Hg), Hf.
  - exact (explored_no_walk g0 g' S p w Hg Hex Hw (Hs Ho)).
Qed.

(** No path found: every blank reached from the cell through open
    cells holds a breadcrumb. *)
Lemma gmove_crumbs fuel p g' :
  gmove fuel g0 (fst p) (snd p) = Running (false, g') ->
  forall r, reach g0 p r -> cell g0 r = Some " "%char -> cell g' r = Some "!"%char.
Proof.
  intros E r Hr E0. pose proof (gmove_spec g0 H0 fuel g0 p (reflexivity _)) as S. rewrite E in S.
  destruct S as (Hg & _ & S & Hs & Hex). apply (trodden_blank g0); [exact Hg| |exact E0].
  exact (proj2 (proj2 (proj2 Hex)) r (explored_reach g0 g' S p r Hg Hex (Hs (reach_open _ _ _ Hr)) Hr)).
Qed.

(** On a walled grid the search never reads an uninitialised cell. *)
Lemma gmove_no_undefined fuel p h :
  walled g0 -> cellDefined g0 p -> gmove fuel g0 (fst p) (snd p) <> Halted h.
Proof.
  intros Hw Hd E. pose proof (gmove_spec g0 H0 fuel g0 p (reflexivity _)) as S. rewrite E in S.
  exact (S Hw Hd).
Qed.

End Outcomes.
