(* ===== verification/MazeCheck.v ===== *)
(** * MazeCheck: what [checkMaze] does

    On a maze holding the grid [g], the scan of [checkMaze] counts the
    cells [positions "s" g 0] and [positions "f" g 0] (row by row, left
    to right) and leaves in [startX]/[startY] and [finishX]/[finishY]
    the last of them, or what the members held before when there is
    none.  [ifOutside] finds the first ['#'] of the row ([firstIndex]),
    and reads an uninitialised [char] when the row has none.
    [checkMaze_spec] states that [checkMaze] is [gcheckMaze], the same
    sequence of steps on the grid; its corollaries give the outcome for
    each kind of maze. *)

From Stdlib Require Import ZArith List String Ascii Bool Lia.
From S2P Require Import Prelude Element SortedSpec BinNode BinTree Process MazeRow Maze MazeGrid MazeLoad MazeSearch.
Import ListNotations BinTree MazePoint MazeRow Maze.
Open Scope Z_scope.
Open Scope mazesolver_scope.

(** The position of the first [c] in [cs]. *)
Fixpoint firstIndex (c : ascii) (cs : list ascii) : option nat :=
  match cs with
  | [] => None
  | d :: cs' => if (d =? c)%char then Some O else option_map S (firstIndex c cs')
  end.

(** The last element of a list. *)
Definition lastPos (l : list (Z * Z)) : option (Z * Z) :=
  match rev l with [] => None | p :: _ => Some p end.

(** The coordinates the scan leaves: the last cell listed, or the
    members' previous values. *)
Definition lastX (l : list (Z * Z)) (d : option Z) : option Z :=
  match lastPos l with Some (xx, _) => Some xx | None => d end.

Definition lastY (l : list (Z * Z)) (d : option Z) : option Z :=
  match lastPos l with Some (_, yy) => Some yy | None => d end.

(** The state of the scan after the cells listing the starts [S] and
    the finishes [F]. *)
Definition scanOf (m : Maze) (S F : list (Z * Z)) : Scan :=
  mkScan (Z.of_nat (List.length S)) (Z.of_nat (List.length F))
    (mkMaze (mazeRows m) (lastX S (startX m)) (lastY S (startY m))
            (lastX F (finishX m)) (lastY F (finishY m))).

Definition scanGrid (m : Maze) (g : grid) : Scan := scanOf m (positions "s" g 0) (positions "f" g 0).

(** [ifOutside(c, x, y)] on the grid. *)
Definition gIfOutside (g : grid) (xx yy : Z) : run bool :=
  positionOfHash <--
    match gridRow g yy with
    | None => Running 0
    | Some cs =>
        match firstIndex "#" cs with
        | Some j => Running (Z.of_nat j)
        | None => Halted (undefined "uninitialised char")
        end
    end ;;
  Running (xx <? positionOfHash).

(** [checkMaze(mazeFile)] on the grid. *)
Definition gcheckMaze (m : Maze) (g : grid) (mazeFile : string) : run Maze :=
  let st := scanGrid m g in
  let m1 := scanned st in
  sx <-- readInt (startX m1) ;; sy <-- readInt (startY m1) ;;
  outS <-- gIfOutside g sx sy ;;
  if outS then
    Halted (exit0 [("Error - start declared outside of maze" ++ newline)%string; unableToLoad mazeFile])
  else
  fx <-- readInt (finishX m1) ;; fy <-- readInt (finishY m1) ;;
  outF <-- gIfOutside g fx fy ;;
  if outF then
    Halted (exit0 [("Error - finish declared outside of maze" ++ newline)%string; unableToLoad mazeFile])
  else
  u <-- checkStart (numStart st) ;;
  u' <-- checkFinish (numFinish st) ;;
  Running m1.

(** A maze with a finish and no start. *)
Definition no_start_file : string :=
  ("#####" ++ newline ++ "# f #" ++ newline ++ "#####" ++ newline)%string.

(** ** The first wall of a row *)

Lemma firstIndex_skipn c cs k d :
  nth_error cs k = Some d ->
  firstIndex c (skipn k cs) =
  if (d =? c)%char then Some O else option_map S (firstIndex c (skipn (S k) cs)).
Proof.
  revert k. induction cs as [|e cs IH]; intros [|k]; cbn [nth_error skipn]; try discriminate.
  - intros [= ->]. reflexivity.
  - apply IH.
Qed.

(** The [while] loop of [ifOutside] from column [k]. *)
Lemma whileNotHash_spec r cs fuel k :
  rowHolds r cs -> (List.length cs - k < fuel)%nat ->
  whileNotHash r (Z.of_nat k) fuel =
  match firstIndex "#" (skipn k cs) with
  | Some j => Running (Z.of_nat (k + j))
  | None => Halted (undefined "uninitialised char")
  end.
Proof.
  intros Hr. revert k. induction fuel as [|fuel IH]; intros k Hf; [lia|].
  cbn [whileNotHash]. rewrite (searchMazePoint_nth r cs _ Hr), Nat2Z.id.
  destruct (Z.leb_spec 0 (Z.of_nat k)); [|lia].
  destruct (nth_error cs k) as [d|] eqn:Hd; cbn [readChar bind_run].
  - rewrite (firstIndex_skipn _ _ _ _ Hd). destruct (d =? "#")%char.
    + rewrite Nat.add_0_r. reflexivity.
    + assert (Hk : (k < List.length cs)%nat) by (apply nth_error_Some; congruence).
      replace (Z.of_nat k + 1) with (Z.of_nat (S k)) by lia. rewrite IH by lia.
      destruct (firstIndex "#" (skipn (S k) cs)); cbn [option_map]; [|reflexivity].
      do 2 f_equal. lia.
  - apply nth_error_None in Hd. rewrite skipn_all2 by exact Hd. reflexivity.
Qed.

(** [ifOutside] is [gIfOutside]. *)
Lemma ifOutside_grid m g c xx yy : mazeHolds m g -> ifOutside m c xx yy = gIfOutside g xx yy.
Proof.
  intros Hm. unfold ifOutside, gIfOutside. pose proof (mazeHolds_findConst m g yy Hm) as H.
  destruct (findConst _ _) as [r|], (gridRow g yy) as [cs|]; try contradiction; [|reflexivity].
  destruct H as [Hr _]. rewrite (rowLength_holds r cs Hr), Nat2Z.id.
  change 0 with (Z.of_nat 0). rewrite (whileNotHash_spec r cs _ 0 Hr) by lia.
  reflexivity.
Qed.

(** ** The scan *)

Lemma rowPositions_app c cs1 cs2 lo yy :
  rowPositions c (cs1 ++ cs2) lo yy =
  rowPositions c cs1 lo yy ++ rowPositions c cs2 (lo + Z.of_nat (List.length cs1)) yy.
Proof.
  revert lo. induction cs1 as [|d cs1 IH]; intros lo; cbn [app rowPositions List.length].
  - rewrite Z.add_0_r. reflexivity.
  - rewrite IH, app_assoc.
    replace (lo + Z.of_nat (S (List.length cs1))) with (lo + 1 + Z.of_nat (List.length cs1)) by lia.
    reflexivity.
Qed.

Lemma positions_app c g1 g2 lo :
  positions c (g1 ++ g2) lo = positions c g1 lo ++ positions c g2 (lo + Z.of_nat (List.length g1)).
Proof.
  revert lo. induction g1 as [|cs g1 IH]; intros lo; cbn [app positions List.length].
  - rewrite Z.add_0_r. reflexivity.
  - rewrite IH, app_assoc.
    replace (lo + Z.of_nat (S (List.length g1))) with (lo + 1 + Z.of_nat (List.length g1)) by lia.
    reflexivity.
Qed.

Lemma firstn_S_nth {T} (l : list T) k a : nth_error l k = Some a -> firstn (S k) l = firstn k l ++ [a].
Proof.
  revert k. induction l as [|b l IH]; intros [|k]; cbn; try discriminate.
  - intros [= ->]. reflexivity.
  - intros H. f_equal. apply IH, H.
Qed.

Lemma lastPos_snoc l p : lastPos (l ++ [p]) = Some p.
Proof. unfold lastPos. rewrite rev_app_distr. reflexivity. Qed.

(** One more cell of the scan. *)
Lemma scanOf_cell m S F d xx yy :
  (if (d =? "f")%char then
     let st1 := if (d =? "s")%char then
                  let m1 := scanned (scanOf m S F) in
                  mkScan (numStart (scanOf m S F) + 1) (numFinish (scanOf m S F))
                         (mkMaze (mazeRows m1) (Some xx) (Some yy) (finishX m1) (finishY m1))
                else scanOf m S F in
     let m1 := scanned st1 in
     mkScan (numStart st1) (numFinish st1 + 1)
            (mkMaze (mazeRows m1) (startX m1) (startY m1) (Some xx) (Some yy))
   else if (d =? "s")%char then
     let m1 := scanned (scanOf m S F) in
     mkScan (numStart (scanOf m S F) + 1) (numFinish (scanOf m S F))
            (mkMaze (mazeRows m1) (Some xx) (Some yy) (finishX m1) (finishY m1))
   else scanOf m S F) =
  scanOf m (S ++ (if (d =? "s")%char then [(xx, yy)] else []))
           (F ++ (if (d =? "f")%char then [(xx, yy)] else [])).
Proof.
  unfold scanOf, lastX, lastY.
  destruct (Ascii.eqb_spec d "f") as [Ef|Hf]; destruct (Ascii.eqb_spec d "s") as [Es|Hs];
    try discriminate; cbn [scanned mazeRows startX startY finishX finishY numStart numFinish];
    rewrite ?app_nil_r, ?lastPos_snoc, ?length_app; cbn [List.length];
    f_equal; lia.
Qed.

Lemma scanOf_nil m : scanOf m [] [] = mkScan 0 0 m.
Proof. destruct m; reflexivity. Qed.

Lemma rowPositions_prefix c cs n d yy :
  nth_error cs n = Some d ->
  rowPositions c (firstn (S n) cs) 0 yy =
  rowPositions c (firstn n cs) 0 yy ++ (if (d =? c)%char then [(Z.of_nat n, yy)] else []).
Proof.
  intros Hd. rewrite (firstn_S_nth _ _ _ Hd), rowPositions_app.
  assert (Hn : (n < List.length cs)%nat) by (apply nth_error_Some; congruence).
  rewrite length_firstn, Nat.min_l by lia. cbn [rowPositions]. rewrite app_nil_r. reflexivity.
Qed.

(** The inner loop of the scan goes over row [k]. *)
Lemma scanRow_spec m g k cs :
  mazeHolds m g -> nth_error g k = Some cs ->
  scanRow (scanGrid m (firstn k g)) (Z.of_nat k) = Running (scanGrid m (firstn (S k) g)).
Proof.
  intros Hm Hk. unfold scanRow. cbn [scanned scanGrid scanOf mazeRows].
  pose proof (mazeHolds_findConst m g (Z.of_nat k) Hm) as H. unfold gridRow in H.
  rewrite Nat2Z.id, Hk in H. destruct (Z.leb_spec 0 (Z.of_nat k)); [|lia].
  destruct (findConst _ _) as [r|]; [|contradiction]. destruct H as [Hr _].
  rewrite (rowLength_holds r cs Hr).
  set (Pre := fun c xx => positions c (firstn k g) 0 ++ rowPositions c (firstn (Z.to_nat xx) cs) 0 (Z.of_nat k)).
  edestruct (forLoop_run (fun _ xx => xx <? Z.of_nat (List.length cs)) (scanCell r (Z.of_nat k))
    (fun st xx => 0 <= xx <= Z.of_nat (List.length cs) /\ st = scanOf m (Pre "s"%char xx) (Pre "f"%char xx))
    (Z.of_nat (List.length cs)) (S (Z.to_nat (Z.of_nat (List.length cs)))) (scanGrid m (firstn k g)) 0)
    as (st & j & -> & (Hj & ->) & Hc).
  - split; [lia|]. unfold Pre. cbn [Z.to_nat firstn rowPositions]. rewrite !app_nil_r. reflexivity.
  - intros st xx _ Hc. apply Z.ltb_lt, Hc.
  - intros st xx (Hx & ->) Hc. apply Z.ltb_lt in Hc.
    unfold scanCell. rewrite (searchMazePoint_nth r cs xx Hr). destruct (Z.leb_spec 0 xx); [|lia].
    destruct (nth_error cs (Z.to_nat xx)) as [d|] eqn:Hd; [|apply nth_error_None in Hd; lia].
    cbn [readChar bind_run]. cbv zeta. rewrite scanOf_cell. eexists; split; [reflexivity|].
    split; [lia|]. unfold Pre. replace (Z.to_nat (xx + 1)) with (S (Z.to_nat xx)) by lia.
    rewrite !(rowPositions_prefix _ _ _ d _ Hd), !app_assoc, Z2Nat.id by lia. reflexivity.
  - lia.
  - f_equal. apply Z.ltb_ge in Hc. unfold Pre, scanGrid.
    replace (Z.to_nat j) with (List.length cs) by lia. rewrite firstn_all.
    rewrite (firstn_S_nth _ _ _ Hk), !positions_app. cbn [positions].
    rewrite length_firstn, Nat.min_l, !app_nil_r by (apply Nat.lt_le_incl, nth_error_Some; congruence).
    reflexivity.
Qed.

(** The two loops of [checkMaze] scan the whole grid. *)
Lemma scanMaze_spec m g : mazeHolds m g -> scanMaze m = Running (scanGrid m g).
Proof.
  intros Hm. unfold scanMaze. rewrite (mazeHolds_size m g Hm).
  edestruct (forLoop_run (fun st yy => yy <? size (mazeRows (scanned st))) scanRow
    (fun st yy => 0 <= yy <= Z.of_nat (List.length g) /\ st = scanGrid m (firstn (Z.to_nat yy) g))
    (Z.of_nat (List.length g)) (S (Z.to_nat (Z.of_nat (List.length g)))) (mkScan 0 0 m) 0)
    as (st & j & -> & (Hj & ->) & Hc).
  - split; [lia|]. symmetry. apply scanOf_nil.
  - intros st yy (_ & ->) Hc. cbn [scanGrid scanOf scanned mazeRows] in Hc.
    rewrite (mazeHolds_size m g Hm) in Hc. apply Z.ltb_lt, Hc.
  - intros st yy (Hy & ->) Hc. cbn [scanGrid scanOf scanned mazeRows] in Hc.
    rewrite (mazeHolds_size m g Hm) in Hc. apply Z.ltb_lt in Hc.
    destruct (nth_error g (Z.to_nat yy)) as [cs|] eqn:Hk; [|apply nth_error_None in Hk; lia].
    eexists. split.
    + replace yy with (Z.of_nat (Z.to_nat yy)) at 2 by lia. exact (scanRow_spec m g _ cs Hm Hk).
    + split; [lia|]. replace (Z.to_nat (yy + 1)) with (S (Z.to_nat yy)) by lia. reflexivity.
  - lia.
  - cbn [scanGrid scanOf scanned mazeRows] in Hc. rewrite (mazeHolds_size m g Hm) in Hc.
    apply Z.ltb_ge in Hc. replace (Z.to_nat j) with (List.length g) by lia.
    rewrite firstn_all. reflexivity.
Qed.

(** [checkMaze] on a valid maze is [gcheckMaze]. *)
Lemma checkMaze_grid m g mazeFile :
  mazeHolds m g -> checkMaze m mazeFile = gcheckMaze m g mazeFile.
Proof.
  intros Hm. unfold checkMaze, gcheckMaze. rewrite (scanMaze_spec m g Hm). cbn [bind_run].
  assert (E : forall c xx yy, ifOutside (scanned (scanGrid m g)) c xx yy = gIfOutside g xx yy)
    by (intros; apply ifOutside_grid; exact Hm).
  destruct (readInt (startX (scanned (scanGrid m g)))) as [sx| |]; cbn [bind_run]; try reflexivity.
  destruct (readInt (startY (scanned (scanGrid m g)))) as [sy| |]; cbn [bind_run]; try reflexivity.
  rewrite E. destruct (gIfOutside g sx sy) as [[|]| |]; cbn [bind_run]; try reflexivity.
  destruct (readInt (finishX (scanned (scanGrid m g)))) as [fx| |]; cbn [bind_run]; try reflexivity.
  destruct (readInt (finishY (scanned (scanGrid m g)))) as [fy| |]; cbn [bind_run]; try reflexivity.
  rewrite E. reflexivity.
Qed.

(** ** The outcomes of the checks *)

(** C18: on a valid maze, [checkMaze] is [gcheckMaze]: the scan counts
    and records the starts and finishes of the grid in reading order,
    [ifOutside] compares with the first ['#'] of the row, and the
    messages and exits follow in the order of the source. *)
Theorem checkMaze_spec m g mazeFile :
  mazeHolds m g -> checkMaze m mazeFile = gcheckMaze m g mazeFile.
Proof. apply checkMaze_grid. Qed.

(** The checks pass on a grid with one start and one finish inside
    their rows. *)
Lemma checkMaze_accepts_grid m g mazeFile sx sy fx fy cs cf hs hf :
  mazeHolds m g ->
  positions "s" g 0 = [(sx, sy)] -> positions "f" g 0 = [(fx, fy)] ->
  gridRow g sy = Some cs -> firstIndex "#" cs = Some hs -> Z.of_nat hs <= sx ->
  gridRow g fy = Some cf -> firstIndex "#" cf = Some hf -> Z.of_nat hf <= fx ->
  checkMaze m mazeFile = Running (mkMaze (mazeRows m) (Some sx) (Some sy) (Some fx) (Some fy)).
Proof.
  intros Hm Hs Hf Ecs Ehs Hsx Ecf Ehf Hfx. rewrite (checkMaze_grid m g mazeFile Hm).
  unfold gcheckMaze, scanGrid, scanOf, lastX, lastY. rewrite Hs, Hf. cbn.
  unfold gIfOutside. rewrite Ecs, Ehs. cbn [bind_run]. destruct (Z.ltb_spec sx (Z.of_nat hs)); [lia|].
  rewrite Ecf, Ehf. cbn [bind_run]. destruct (Z.ltb_spec fx (Z.of_nat hf)); [lia|]. reflexivity.
Qed.

(** C21: a valid maze with exactly one start and one finish, each at or
    right of the first ['#'] of its row, passes [checkMaze], which
    records their coordinates in the maze. *)
Theorem checkMaze_accepts m g mazeFile sx sy fx fy cs cf hs hf :
  mazeHolds m g ->
  positions "s" g 0 = [(sx, sy)] -> positions "f" g 0 = [(fx, fy)] ->
  gridRow g sy = Some cs -> firstIndex "#" cs = Some hs -> Z.of_nat hs <= sx ->
  gridRow g fy = Some cf -> firstIndex "#" cf = Some hf -> Z.of_nat hf <= fx ->
  checkMaze m mazeFile = Running (mkMaze (mazeRows m) (Some sx) (Some sy) (Some fx) (Some fy)).
Proof. apply checkMaze_accepts_grid. Qed.

(** C34: on a valid maze without ['s'] whose [startX] was never
    assigned (as after [loadMaze]), [checkMaze] reads the uninitialised
    member: the message "no start found" of [checkStart] is never
    reached. *)
Theorem checkMaze_no_start m g mazeFile :
  mazeHolds m g -> positions "s" g 0 = [] -> startX m = None ->
  checkMaze m mazeFile = Halted (undefined "uninitialised int").
Proof.
  intros Hm Hs Hx. rewrite (checkMaze_grid m g mazeFile Hm).
  unfold gcheckMaze, scanGrid, scanOf, lastX. rewrite Hs. cbn. rewrite Hx. reflexivity.
Qed.

(** ** Concrete instances *)

Lemma loaded_holds name content m :
  loadMaze Maze0 name (Some content) = Running m ->
  mazeHolds m (gridOf (getlines content)) /\ startX m = None.
Proof.
  intros E. pose proof (loadMaze_lines name content) as H. rewrite E in H.
  destruct H as (_ & Hm & t & ->). auto.
Qed.

Lemma checkMaze_spec_witness :
  exists m, mazeHolds m (gridOf (getlines spec_maze_file)) /\
    checkMaze m "maze.txt" = gcheckMaze m (gridOf (getlines spec_maze_file)) "maze.txt".
Proof.
  destruct (loadMaze Maze0 "maze.txt" (Some spec_maze_file)) as [m|h|] eqn:E; try discriminate.
  destruct (loaded_holds _ _ _ E) as [Hm _]. exists m.
  exact (conj Hm (checkMaze_spec m _ "maze.txt" Hm)).
Defined.

Lemma checkMaze_accepts_witness :
  exists m, mazeHolds m (gridOf (getlines spec_maze_file)) /\
    checkMaze m "maze.txt" = Running (mkMaze (mazeRows m) (Some 1) (Some 1) (Some 2) (Some 0)).
Proof.
  destruct (loadMaze Maze0 "maze.txt" (Some spec_maze_file)) as [m|h|] eqn:E; try discriminate.
  destruct (loaded_holds _ _ _ E) as [Hm _]. exists m. split; [exact Hm|].
  apply (checkMaze_accepts m _ "maze.txt" 1 1 2 0 ["#"; "s"; " "; " "; "#"]%char
           ["#"; "#"; "f"; "#"; "#"]%char 0 0 Hm); reflexivity || (cbn; lia).
Defined.

Lemma checkMaze_no_start_witness :
  exists m, mazeHolds m (gridOf (getlines no_start_file)) /\
    positions "s" (gridOf (getlines no_start_file)) 0 = [] /\ startX m = None /\
    checkMaze m "maze.txt" = Halted (undefined "uninitialised int").
Proof.
  destruct (loadMaze Maze0 "maze.txt" (Some no_start_file)) as [m|h|] eqn:E; try discriminate.
  destruct (loaded_holds _ _ _ E) as [Hm Hx]. exists m.
  assert (Hs : positions "s" (gridOf (getlines no_start_file)) 0 = []) by reflexivity.
  exact (conj Hm (conj Hs (conj Hx (checkMaze_no_start m _ "maze.txt" Hm Hs Hx)))).
Defined.
