(* ===== verification/MazeSolve.v ===== *)
(** * MazeSolve: what the program computes

    The search of [findPathThroughMaze] on a maze holding a walled grid
    with a single start ends without undefined behaviour, and either
    marks with ['.'] the blanks of a walk from the start to a finish or,
    when no such walk exists, leaves its breadcrumbs.  [main] on a file
    of valid lines with one start and one finish inside their rows
    prints the grid so marked: loading ([MazeLoad]), checking
    ([MazeCheck]), the search ([MazeSearch], [MazePath]) and printing
    composed as [main] composes them.  Two theorems show where [move]
    departs from the spec: a failed search leaves a breadcrumb on every
    blank it can reach ([move_no_path_breadcrumbs]), and a call past
    the end of a line reads an uninitialised [char]
    ([move_past_row_end]). *)

From Stdlib Require Import ZArith List String Ascii Bool Lia.
From S2P Require Import Prelude Process MazeRow Maze MazeGrid MazeLoad MazeSearch MazePath MazeCheck.
Import ListNotations MazeRow Maze.
Open Scope Z_scope.
Open Scope mazesolver_scope.

(** The outcome of the search from [(sx, sy)] on the grid [g]: a walk
    found and marked, or none and the breadcrumbs left. *)
Definition solved (g : grid) (sx sy : Z) (b : bool) (g' : grid) : Prop :=
  if b then exists w, walk g (sx, sy) w /\ g' = gmark g w
  else grows g g' /\ forall w, ~ walk g (sx, sy) w.

(** A maze whose start is walled in, away from its finish. *)
Definition boxed_file : string :=
  ("#####" ++ newline ++ "#s#f#" ++ newline ++ "#####" ++ newline)%string.

(** A maze whose start is walled in with two blanks, away from its
    finish. *)
Definition crumbs_file : string :=
  ("#####" ++ newline ++ "#s  #" ++ newline ++ "#####" ++ newline ++ "#f  #" ++ newline ++
   "#####" ++ newline)%string.

(** A maze whose start row has no wall on its right. *)
Definition open_row_file : string :=
  ("#####" ++ newline ++ "#s  " ++ newline ++ "#####" ++ newline ++ "#f###" ++ newline)%string.

(** The maze [main] loads from a file, and the maze [checkMaze] returns
    for it with these coordinates. *)
Definition loadedMaze (content : string) : Maze :=
  match loadMaze Maze0 "maze.txt" (Some content) with Running m => m | _ => Maze0 end.

Definition checkedMaze (content : string) (sx sy fx fy : Z) : Maze :=
  mkMaze (mazeRows (loadedMaze content)) (Some sx) (Some sy) (Some fx) (Some fy).

(** ** The search on a maze *)

Lemma validLine_noCrumbs lines : forallb validLine lines = true -> noCrumbs (gridOf lines).
Proof.
  intros H. pose proof (proj1 (forallb_forall validLine lines) H) as H'. clear H. rename H' into H.
  apply Forall_forall. intros cs Hcs.
  apply in_map_iff in Hcs as (l & <- & Hl). specialize (H l Hl). unfold validLine in H.
  apply Forall_forall. intros c Hc E. subst c. pose proof (proj1 (forallb_forall _ _) H "!"%char Hc). discriminate.
Qed.

(** A result of [move] is the result of [gmove] on the grid. *)
Lemma move_grid fuel m g xx yy b m' :
  mazeHolds m g -> move fuel m xx yy = Running (b, m') ->
  exists g', gmove fuel g xx yy = Running (b, g') /\ mazeHolds m' g' /\ exists t, m' = withRows m t.
Proof.
  intros Hm E. pose proof (move_gmove fuel m g xx yy Hm) as R. rewrite E in R.
  destruct (gmove fuel g xx yy) as [[b' g']|h|]; try contradiction.
  destruct R as (Eb & Hm' & Ht). cbn [fst snd] in Eb, Hm', Ht. subst b'. eauto.
Qed.

Lemma move_found fuel m g xx yy m' :
  mazeHolds m g -> noCrumbs g -> move fuel m xx yy = Running (true, m') ->
  exists w, walk g (xx, yy) w /\ mazeHolds m' (gmark g w) /\ exists t, m' = withRows m t.
Proof.
  intros Hm H0 E. destruct (move_grid fuel m g xx yy true m' Hm E) as (g' & E' & Hm' & Ht).
  destruct (gmove_found g H0 fuel (xx, yy) g' E') as (w & Hw & ->). eauto.
Qed.

Lemma move_not_found fuel m g xx yy m' :
  mazeHolds m g -> noCrumbs g -> move fuel m xx yy = Running (false, m') ->
  (forall w, ~ walk g (xx, yy) w) /\ exists g', grows g g' /\ mazeHolds m' g'.
Proof.
  intros Hm H0 E. destruct (move_grid fuel m g xx yy false m' Hm E) as (g' & E' & Hm' & _).
  destruct (gmove_not_found g H0 fuel (xx, yy) g' E') as [Hg Hn]. eauto.
Qed.

(** No path found: the blanks reached from [(x, y)] all hold a
    breadcrumb. *)
Lemma move_crumbs fuel m g xx yy m' :
  mazeHolds m g -> noCrumbs g -> move fuel m xx yy = Running (false, m') ->
  exists g', mazeHolds m' g' /\
    forall r, reach g (xx, yy) r -> cell g r = Some " "%char -> cell g' r = Some "!"%char.
Proof.
  intros Hm H0 E. destruct (move_grid fuel m g xx yy false m' Hm E) as (g' & E' & Hm' & _).
  exists g'. split; [exact Hm'|]. exact (gmove_crumbs g H0 fuel (xx, yy) g' E').
Qed.

(** A call at a column at or past the end of its line reads the
    uninitialised [char] of [searchMazePoint]. *)
Lemma gmove_past_end fuel g xx yy cs :
  gridRow g yy = Some cs -> Z.of_nat (List.length cs) <= xx ->
  gmove (S fuel) g xx yy = Halted (undefined "uninitialised char").
Proof.
  unfold gridRow. intros Er Hx. destruct (Z.leb_spec 0 yy); [|discriminate].
  rewrite gmove_S. destruct (Z.ltb_spec xx 0), (Z.ltb_spec yy 0); try lia. cbn [orb].
  rewrite Er. destruct (nth_error cs (Z.to_nat xx)) eqn:Ec; [|reflexivity].
  assert (Hl : (Z.to_nat xx < List.length cs)%nat) by (apply nth_error_Some; congruence). lia.
Qed.

Lemma move_past_end fuel m g xx yy cs :
  mazeHolds m g -> gridRow g yy = Some cs -> Z.of_nat (List.length cs) <= xx -> fuel <> O ->
  move fuel m xx yy = Halted (undefined "uninitialised char").
Proof.
  intros Hm Er Hx Hf. destruct fuel as [|fuel]; [contradiction|].
  pose proof (move_gmove (S fuel) m g xx yy Hm) as R. rewrite (gmove_past_end fuel g xx yy cs Er Hx) in R.
  destruct (move (S fuel) m xx yy); cbn [runRel] in R; [contradiction|congruence|contradiction].
Qed.

(** [gmove] from the start with the fuel of [findPathThroughMaze]
    returns, and meets [solved]. *)
Lemma gmove_start_solved m g sx sy :
  mazeHolds m g -> noCrumbs g -> walled g -> uniqueStart g -> cell g (sx, sy) = Some "s"%char ->
  exists b g', gmove (moveFuel m) g sx sy = Running (b, g') /\ solved g sx sy b g'.
Proof.
  intros Hm H0 Hw Hu Hs.
  assert (Hn : gmove (moveFuel m) g sx sy <> OutOfFuel).
  { apply (gmove_searchOk (moveFuel m) g sx sy Hu).
    pose proof (need_le g sx sy). pose proof (spaces_cellCount m g Hm). unfold moveFuel. lia. }
  assert (Hd : cellDefined g (sx, sy)) by (do 3 right; rewrite Hs; discriminate).
  destruct (gmove (moveFuel m) g sx sy) as [[[|] g']|h|] eqn:E.
  - exists true, g'. split; [reflexivity|]. exact (gmove_found g H0 _ (sx, sy) g' E).
  - exists false, g'. split; [reflexivity|]. exact (gmove_not_found g H0 _ (sx, sy) g' E).
  - destruct (gmove_no_undefined g H0 (moveFuel m) (sx, sy) h Hw Hd E).
  - contradiction.
Qed.

Lemma findPathThroughMaze_solved m g sx sy :
  mazeHolds m g -> noCrumbs g -> walled g -> uniqueStart g -> cell g (sx, sy) = Some "s"%char ->
  startX m = Some sx -> startY m = Some sy ->
  exists b m' g', findPathThroughMaze m = Running (b, m') /\ mazeHolds m' g' /\
                  solved g sx sy b g' /\ exists t, m' = withRows m t.
Proof.
  intros Hm H0 Hw Hu Hs Hx Hy. unfold findPathThroughMaze. rewrite Hx, Hy. cbn [readInt bind_run].
  destruct (gmove_start_solved m g sx sy Hm H0 Hw Hu Hs) as (b & g' & E & Hsol).
  pose proof (move_gmove (moveFuel m) m g sx sy Hm) as R. rewrite E in R.
  destruct (move (moveFuel m) m sx sy) as [[b' m']|h|]; try contradiction.
  destruct R as (Eb & Hm' & Ht). cbn [fst snd] in Eb, Hm', Ht. subst b'.
  exists b, m', g'. auto.
Qed.

(** ** The program *)

(** The lines [main] prints after the search. *)
Lemma main_solved file fs content sx sy fx fy cs cf hs hf :
  fs file = Some content -> forallb validLine (getlines content) = true ->
  let g := gridOf (getlines content) in
  positions "s" g 0 = [(sx, sy)] -> positions "f" g 0 = [(fx, fy)] ->
  gridRow g sy = Some cs -> firstIndex "#" cs = Some hs -> Z.of_nat hs <= sx ->
  gridRow g fy = Some cf -> firstIndex "#" cf = Some hf -> Z.of_nat hf <= fx ->
  walled g ->
  forall prog, exists b g', main [prog; file] fs = Running (printed g') /\ solved g sx sy b g'.
Proof.
  intros Hfs Hv g Hs Hf Ecs Ehs Hsx Ecf Ehf Hfx Hw prog. unfold main. rewrite Hfs.
  pose proof (loadMaze_lines file content) as L.
  destruct (loadMaze Maze0 file (Some content)) as [m1|h|]; [|destruct L as [L _]; congruence|contradiction].
  destruct L as (_ & Hm1 & t & Et). cbn [bind_run]. fold g in Hm1.
  rewrite (checkMaze_accepts_grid m1 g file sx sy fx fy cs cf hs hf Hm1 Hs Hf Ecs Ehs Hsx Ecf Ehf Hfx).
  cbn [bind_run]. set (m2 := mkMaze _ _ _ _ _).
  assert (Hm2 : mazeHolds m2 g) by exact Hm1.
  assert (Hu : uniqueStart g) by (apply uniqueStart_positions; rewrite Hs; cbn; lia).
  assert (Hst : cell g (sx, sy) = Some "s"%char) by (apply In_positions; rewrite Hs; left; reflexivity).
  destruct (findPathThroughMaze_solved m2 g sx sy Hm2 (validLine_noCrumbs _ Hv) Hw Hu Hst eq_refl eq_refl)
    as (b & m' & g' & -> & Hm' & Hsol & _).
  cbn [bind_run snd]. exists b, g'. split; [|exact Hsol]. rewrite (printMaze_grid m' g' Hm'). reflexivity.
Qed.

(** ** What the search guarantees *)

(** C8: a path [move] reports is real: on a valid maze loaded from
    valid characters, when [move(x, y)] returns [true] there is a walk
    from [(x, y)] through blanks and starts to a finish, and the maze
    holds the loaded grid with exactly the blanks of that walk marked
    ['.'], every breadcrumb cleaned. *)
Theorem move_sound fuel m g xx yy m' :
  mazeHolds m g -> noCrumbs g -> move fuel m xx yy = Running (true, m') ->
  exists w, walk g (xx, yy) w /\ mazeHolds m' (gmark g w).
Proof. intros Hm H0 E. destruct (move_found fuel m g xx yy m' Hm H0 E) as (w & ? & ? & _). eauto. Qed.

(** C9: [move] never misses a path: when [move(x, y)] returns [false],
    whatever the depth it was given, no walk from [(x, y)] through
    blanks and starts reaches a finish, and the maze holds the grid
    with breadcrumbs left on some blanks. *)
Theorem move_complete fuel m g xx yy m' :
  mazeHolds m g -> noCrumbs g -> move fuel m xx yy = Running (false, m') ->
  (forall w, ~ walk g (xx, yy) w) /\ exists g', grows g g' /\ mazeHolds m' g'.
Proof. apply move_not_found. Qed.

(** C10: the search finds every path: on a valid maze holding a walled
    grid of valid characters with a single start, from which a walk
    reaches a finish, [findPathThroughMaze] returns [true] and marks
    the blanks of such a walk. *)
Theorem findPathThroughMaze_finds m g sx sy w :
  mazeHolds m g -> noCrumbs g -> walled g -> uniqueStart g -> cell g (sx, sy) = Some "s"%char ->
  startX m = Some sx -> startY m = Some sy -> walk g (sx, sy) w ->
  exists m' w', findPathThroughMaze m = Running (true, m') /\ walk g (sx, sy) w' /\
                mazeHolds m' (gmark g w').
Proof.
  intros Hm H0 Hw Hu Hs Hx Hy Hwalk.
  destruct (findPathThroughMaze_solved m g sx sy Hm H0 Hw Hu Hs Hx Hy) as ([|] & m' & g' & E & Hm' & Hsol & _).
  - destruct Hsol as (w' & Hw' & ->). eauto.
  - destruct (proj2 Hsol w Hwalk).
Qed.

(** C11: without a path the search still returns, without undefined
    behaviour, on a walled grid with a single start: [false], and the
    maze keeps the breadcrumbs ['!'] of the search. *)
Theorem findPathThroughMaze_no_path m g sx sy :
  mazeHolds m g -> noCrumbs g -> walled g -> uniqueStart g -> cell g (sx, sy) = Some "s"%char ->
  startX m = Some sx -> startY m = Some sy -> (forall w, ~ walk g (sx, sy) w) ->
  exists m' g', findPathThroughMaze m = Running (false, m') /\ grows g g' /\ mazeHolds m' g'.
Proof.
  intros Hm H0 Hw Hu Hs Hx Hy Hno.
  destruct (findPathThroughMaze_solved m g sx sy Hm H0 Hw Hu Hs Hx Hy) as ([|] & m' & g' & E & Hm' & Hsol & _).
  - destruct Hsol as (w & Hw' & _). destruct (Hno w Hw').
  - exists m', g'. split; [exact E|]. split; [exact (proj1 Hsol)|exact Hm'].
Qed.

(** C36: when [move(x, y)] returns [false] no [cleanUpMaze] runs:
    every blank reached from [(x, y)] through blanks and starts holds
    the breadcrumb ['!'] in the maze returned, whatever the depth
    [move] was given, where the spec leaves every cell off the path
    unchanged. *)
Theorem move_no_path_breadcrumbs fuel m g xx yy m' :
  mazeHolds m g -> noCrumbs g -> move fuel m xx yy = Running (false, m') ->
  exists g', mazeHolds m' g' /\
    forall r, reach g (xx, yy) r -> cell g r = Some " "%char -> cell g' r = Some "!"%char.
Proof. apply move_crumbs. Qed.

(** C35: [move(x, y)] at a column at or past the end of the line [y]
    of the maze (the right neighbour of the last cell of a row without
    a right wall, which [ifOutside] accepts) reaches undefined
    behaviour: [searchMazePoint] returns its uninitialised [char]. *)
Theorem move_past_row_end fuel m g xx yy cs :
  mazeHolds m g -> gridRow g yy = Some cs -> Z.of_nat (List.length cs) <= xx -> fuel <> O ->
  move fuel m xx yy = Halted (undefined "uninitialised char").
Proof. apply move_past_end. Qed.

(** C6: the program solves the maze: [main] on a file of valid lines
    forming a walled grid, with one start and one finish each at or
    right of the first ['#'] of its row, prints the grid with the
    blanks of a walk from the start to the finish marked ['.'] when
    there is one, and otherwise, when no walk exists, the grid with
    breadcrumbs. *)
Theorem main_solves file fs content sx sy fx fy cs cf hs hf :
  fs file = Some content -> forallb validLine (getlines content) = true ->
  let g := gridOf (getlines content) in
  positions "s" g 0 = [(sx, sy)] -> positions "f" g 0 = [(fx, fy)] ->
  gridRow g sy = Some cs -> firstIndex "#" cs = Some hs -> Z.of_nat hs <= sx ->
  gridRow g fy = Some cf -> firstIndex "#" cf = Some hf -> Z.of_nat hf <= fx ->
  walled g ->
  forall prog, exists b g', main [prog; file] fs = Running (printed g') /\ solved g sx sy b g'.
Proof. apply main_solved. Qed.

(** ** Concrete instances *)

Lemma loadedMaze_holds content :
  loadMaze Maze0 "maze.txt" (Some content) = Running (loadedMaze content) ->
  mazeHolds (loadedMaze content) (gridOf (getlines content)).
Proof. intros E. exact (proj1 (loaded_holds _ _ _ E)). Qed.

Lemma checkedMaze_holds content sx sy fx fy :
  loadMaze Maze0 "maze.txt" (Some content) = Running (loadedMaze content) ->
  mazeHolds (checkedMaze content sx sy fx fy) (gridOf (getlines content)).
Proof. intros E. exact (loadedMaze_holds content E). Qed.

Lemma spec_walk : walk (gridOf (getlines spec_maze_file)) (1, 1) [(1, 1); (2, 1)].
Proof.
  apply (walk_step _ _ (2, 1)); [exists "s"%char; split; reflexivity|right; right; left; reflexivity|].
  apply (walk_step _ _ (2, 0)); [exists " "%char; split; reflexivity|right; left; reflexivity|].
  constructor. reflexivity.
Qed.

Lemma boxed_no_walk : forall w, ~ walk (gridOf (getlines boxed_file)) (1, 1) w.
Proof.
  apply walk_blocked; [discriminate|]. intros q Hq.
  destruct Hq as [<-|[<-|[<-|[<-|[]]]]]; apply wall_blocks; reflexivity.
Qed.

Lemma move_sound_witness :
  exists m', move (moveFuel (loadedMaze spec_maze_file)) (loadedMaze spec_maze_file) 1 1 = Running (true, m') /\
    exists w, walk (gridOf (getlines spec_maze_file)) (1, 1) w /\ mazeHolds m' (gmark (gridOf (getlines spec_maze_file)) w).
Proof.
  assert (E : loadMaze Maze0 "maze.txt" (Some spec_maze_file) = Running (loadedMaze spec_maze_file))
    by (vm_compute; reflexivity).
  destruct (move (moveFuel (loadedMaze spec_maze_file)) (loadedMaze spec_maze_file) 1 1) as [[[|] m']|h|] eqn:Er;
    [|vm_compute in Er; discriminate Er..].
  exists m'. split; [reflexivity|].
  exact (move_sound _ _ _ 1 1 _ (loadedMaze_holds _ E) (validLine_noCrumbs (getlines spec_maze_file) eq_refl) Er).
Defined.

Lemma move_complete_witness :
  exists m', move (moveFuel (loadedMaze boxed_file)) (loadedMaze boxed_file) 1 1 = Running (false, m') /\
    (forall w, ~ walk (gridOf (getlines boxed_file)) (1, 1) w).
Proof.
  assert (E : loadMaze Maze0 "maze.txt" (Some boxed_file) = Running (loadedMaze boxed_file))
    by (vm_compute; reflexivity).
  destruct (move (moveFuel (loadedMaze boxed_file)) (loadedMaze boxed_file) 1 1) as [[[|] m']|h|] eqn:Er;
    [vm_compute in Er; discriminate Er| |vm_compute in Er; discriminate Er..].
  exists m'. split; [reflexivity|].
  exact (proj1 (move_complete _ _ _ 1 1 _ (loadedMaze_holds _ E) (validLine_noCrumbs (getlines boxed_file) eq_refl) Er)).
Defined.

Lemma findPathThroughMaze_finds_witness :
  exists m' w', findPathThroughMaze (checkedMaze spec_maze_file 1 1 2 0) = Running (true, m') /\
    walk (gridOf (getlines spec_maze_file)) (1, 1) w' /\ mazeHolds m' (gmark (gridOf (getlines spec_maze_file)) w').
Proof.
  assert (E : loadMaze Maze0 "maze.txt" (Some spec_maze_file) = Running (loadedMaze spec_maze_file))
    by (vm_compute; reflexivity).
  apply (findPathThroughMaze_finds _ _ 1 1 _ (checkedMaze_holds _ 1 1 2 0 E) (validLine_noCrumbs (getlines spec_maze_file) eq_refl)
           (walledb_walled (gridOf (getlines spec_maze_file)) eq_refl) (uniqueStart_positions (gridOf (getlines spec_maze_file)) ltac:(vm_compute; lia)) eq_refl eq_refl eq_refl
           spec_walk).
Defined.

Lemma findPathThroughMaze_no_path_witness :
  exists m' g', findPathThroughMaze (checkedMaze boxed_file 1 1 3 1) = Running (false, m') /\
    grows (gridOf (getlines boxed_file)) g' /\ mazeHolds m' g'.
Proof.
  assert (E : loadMaze Maze0 "maze.txt" (Some boxed_file) = Running (loadedMaze boxed_file))
    by (vm_compute; reflexivity).
  apply (findPathThroughMaze_no_path _ _ 1 1 (checkedMaze_holds _ 1 1 3 1 E) (validLine_noCrumbs (getlines boxed_file) eq_refl)
           (walledb_walled (gridOf (getlines boxed_file)) eq_refl) (uniqueStart_positions (gridOf (getlines boxed_file)) ltac:(vm_compute; lia)) eq_refl eq_refl eq_refl
           boxed_no_walk).
Defined.

Lemma main_solves_witness :
  exists b g', main ["mazesolver"; "maze.txt"]%string spec_fs = Running (printed g') /\
    solved (gridOf (getlines spec_maze_file)) 1 1 b g'.
Proof.
  apply (main_solves "maze.txt"%string spec_fs spec_maze_file 1 1 2 0 ["#"; "s"; " "; " "; "#"]%char
           ["#"; "#"; "f"; "#"; "#"]%char 0 0); reflexivity || (cbn; lia) || (apply walledb_walled; reflexivity).
Defined.

Lemma move_no_path_breadcrumbs_witness :
  exists m', move (moveFuel (loadedMaze crumbs_file)) (loadedMaze crumbs_file) 1 1 = Running (false, m') /\
    exists g', mazeHolds m' g' /\
      forall r, reach (gridOf (getlines crumbs_file)) (1, 1) r ->
        cell (gridOf (getlines crumbs_file)) r = Some " "%char -> cell g' r = Some "!"%char.
Proof.
  assert (E : loadMaze Maze0 "maze.txt" (Some crumbs_file) = Running (loadedMaze crumbs_file))
    by (vm_compute; reflexivity).
  destruct (move (moveFuel (loadedMaze crumbs_file)) (loadedMaze crumbs_file) 1 1) as [[[|] m']|h|] eqn:Er;
    [vm_compute in Er; discriminate Er| |vm_compute in Er; discriminate Er..].
  exists m'. split; [reflexivity|].
  exact (move_no_path_breadcrumbs _ _ _ 1 1 _ (loadedMaze_holds _ E)
           (validLine_noCrumbs (getlines crumbs_file) eq_refl) Er).
Defined.

Lemma move_past_row_end_witness :
  gridRow (gridOf (getlines open_row_file)) 1 = Some ["#"; "s"; " "; " "]%char /\
  move (moveFuel (loadedMaze open_row_file)) (loadedMaze open_row_file) 4 1 =
    Halted (undefined "uninitialised char").
Proof.
  assert (E : loadMaze Maze0 "maze.txt" (Some open_row_file) = Running (loadedMaze open_row_file))
    by (vm_compute; reflexivity).
  split; [reflexivity|].
  apply (move_past_row_end _ _ _ 4 1 ["#"; "s"; " "; " "]%char (loadedMaze_holds _ E) eq_refl).
  - cbn. lia.
  - unfold moveFuel. lia.
Defined.
