(* ===== verification/MazeBorder.v ===== *)
(** * MazeBorder: the mazes the spec describes

    Spec section 6 asks for a rectangular grid of [#], blank, [s], [f]
    with exactly one start and one finish strictly inside the outer
    boundary.  [bordered] decides the shape: every line as long as the
    first, the first and last lines and the first and last column all
    ['#'].  On such a grid every open cell is inside, so its neighbours
    are cells of the grid ([bordered_walled]) and the first ['#'] of
    every line is at column [0], so [ifOutside] accepts the start and
    the finish.  [main] then solves every maze the spec allows. *)

From Stdlib Require Import ZArith List String Ascii Bool Lia.
From S2P Require Import Prelude Process MazeRow Maze MazeGrid MazeLoad MazeSearch MazePath MazeCheck MazeSolve.
Import ListNotations MazeRow Maze.
Open Scope Z_scope.
Open Scope mazesolver_scope.

(** [f i a] holds of every element [a] of [l], [i] counting from the
    index given. *)
Fixpoint allIdx {T} (f : nat -> T -> bool) (i : nat) (l : list T) : bool :=
  match l with
  | [] => true
  | a :: l' => f i a && allIdx f (S i) l'
  end.

(** The shape spec section 6 requires, boundary all ['#']. *)
Definition bordered (g : grid) : bool :=
  let h := List.length g in
  let w := List.length (hd [] g) in
  allIdx (fun k cs =>
    Nat.eqb (List.length cs) w &&
    allIdx (fun j c => implb (Nat.eqb k 0 || Nat.eqb k (h - 1) || Nat.eqb j 0 || Nat.eqb j (w - 1))
                             (c =? "#")%char) 0 cs) 0 g.

(** A maze of the spec's shape: start and finish inside, a path
    between them. *)
Definition bordered_file : string :=
  ("#####" ++ newline ++ "#s f#" ++ newline ++ "#####" ++ newline)%string.

(** ** The shape *)

Lemma allIdx_spec {T} (f : nat -> T -> bool) l : forall i,
  allIdx f i l = true <-> forall k a, nth_error l k = Some a -> f (i + k)%nat a = true.
Proof.
  induction l as [|b l IH]; intros i; cbn [allIdx].
  - split; [intros _ [|k] a; discriminate|reflexivity].
  - rewrite andb_true_iff, IH. split.
    + intros [Hb Hl] [|k] a E; cbn in E; [injection E as <-; rewrite Nat.add_0_r; exact Hb|].
      rewrite <- Nat.add_succ_comm. exact (Hl k a E).
    + intros H. split; [rewrite <- (Nat.add_0_r i); exact (H O b eq_refl)|].
      intros k a E. rewrite Nat.add_succ_comm. exact (H (S k) a E).
Qed.

Section Bordered.
Context (g : grid).
Hypothesis (Hb : bordered g = true).

Let h := List.length g.
Let w := List.length (hd [] g).

Lemma bordered_row k cs :
  nth_error g k = Some cs ->
  List.length cs = w /\
  forall j c, nth_error cs j = Some c -> (k = 0 \/ k = h - 1 \/ j = 0 \/ j = w - 1)%nat -> c = "#"%char.
Proof.
  intros E. unfold bordered in Hb. fold h w in Hb.
  pose proof (proj1 (allIdx_spec _ g 0) Hb k cs E) as H. cbn [Nat.add] in H.
  apply andb_true_iff in H as [Hl Hc]. split; [apply Nat.eqb_eq; exact Hl|].
  intros j c Ej Hj. pose proof (proj1 (allIdx_spec _ cs 0) Hc j c Ej) as Hc'. cbn [Nat.add] in Hc'.
  assert (Ht : (Nat.eqb k 0 || Nat.eqb k (h - 1) || Nat.eqb j 0 || Nat.eqb j (w - 1))%bool = true).
  { destruct Hj as [ ->|[ ->|[ ->| ->]]]; rewrite Nat.eqb_refl, ?orb_true_r; reflexivity. }
  rewrite Ht in Hc'. apply Ascii.eqb_eq. exact Hc'.
Qed.

Lemma cell_nth p c :
  cell g p = Some c ->
  exists cs, 0 <= fst p /\ 0 <= snd p /\ nth_error g (Z.to_nat (snd p)) = Some cs /\
             nth_error cs (Z.to_nat (fst p)) = Some c.
Proof.
  unfold cell, gcell. destruct (Z.ltb_spec (fst p) 0), (Z.ltb_spec (snd p) 0); cbn [orb]; try discriminate.
  destruct (nth_error g _) as [cs|]; [|discriminate]. intros E. exists cs. auto.
Qed.

(** An open cell is strictly inside the boundary. *)
Lemma bordered_inside p :
  isOpen g p ->
  exists j k, p = (Z.of_nat j, Z.of_nat k) /\ (1 <= j /\ j + 2 <= w)%nat /\ (1 <= k /\ k + 2 <= h)%nat.
Proof.
  intros (c & Ec & Ho). destruct (cell_nth p c Ec) as (cs & Hx & Hy & Er & Ec').
  destruct (bordered_row _ _ Er) as [Hl Hw].
  assert (Hk : (Z.to_nat (snd p) < h)%nat) by (apply nth_error_Some; congruence).
  assert (Hj : (Z.to_nat (fst p) < w)%nat) by (rewrite <- Hl; apply nth_error_Some; congruence).
  assert (Hnot : ~ (Z.to_nat (snd p) = 0 \/ Z.to_nat (snd p) = h - 1 \/
                    Z.to_nat (fst p) = 0 \/ Z.to_nat (fst p) = w - 1)%nat).
  { intros H. rewrite (Hw _ _ Ec' H) in Ho. discriminate. }
  exists (Z.to_nat (fst p)), (Z.to_nat (snd p)).
  split; [destruct p; cbn in *; f_equal; lia|]. lia.
Qed.

(** Every cell of the rectangle can be read. *)
Lemma bordered_defined j k :
  (j < w)%nat -> (k < h)%nat -> cellDefined g (Z.of_nat j, Z.of_nat k).
Proof.
  intros Hj Hk. do 3 right. unfold cell, gcell. cbn [fst snd].
  destruct (Z.ltb_spec (Z.of_nat j) 0), (Z.ltb_spec (Z.of_nat k) 0); try lia. cbn [orb].
  rewrite !Nat2Z.id. destruct (nth_error g k) as [cs|] eqn:E; [|apply nth_error_None in E; lia].
  destruct (bordered_row _ _ E) as [Hl _]. destruct (nth_error cs j) eqn:Ej; [discriminate|].
  apply nth_error_None in Ej. lia.
Qed.

Lemma bordered_walled_aux : walled g.
Proof.
  intros p q Hp Hq. destruct (bordered_inside p Hp) as (j & k & -> & Hj & Hk).
  cbn [neighbours fst snd In] in Hq. destruct Hq as [ <-|[ <-|[ <-|[ <-|[]]]]].
  - replace (Z.of_nat k + 1) with (Z.of_nat (S k)) by lia. apply bordered_defined; lia.
  - replace (Z.of_nat k - 1) with (Z.of_nat (k - 1)) by lia. apply bordered_defined; lia.
  - replace (Z.of_nat j + 1) with (Z.of_nat (S j)) by lia. apply bordered_defined; lia.
  - replace (Z.of_nat j - 1) with (Z.of_nat (j - 1)) by lia. apply bordered_defined; lia.
Qed.

(** The first ['#'] of a line holding [c] at column [x] is at column [0]. *)
Lemma bordered_firstIndex p c :
  cell g p = Some c -> exists cs, gridRow g (snd p) = Some cs /\ firstIndex "#" cs = Some O /\ 0 <= fst p.
Proof.
  intros Ec. destruct (cell_nth p c Ec) as (cs & Hx & Hy & Er & Ec').
  exists cs. split; [unfold gridRow; destruct (Z.leb_spec 0 (snd p)); [exact Er|lia]|].
  split; [|exact Hx]. destruct (bordered_row _ _ Er) as [_ Hw].
  destruct cs as [|d cs]; [destruct (Z.to_nat (fst p)); discriminate|].
  rewrite (Hw O d eq_refl ltac:(tauto)). reflexivity.
Qed.

End Bordered.

(** ** The program on a bordered maze *)

Lemma main_bordered file fs content sx sy fx fy :
  fs file = Some content -> forallb validLine (getlines content) = true ->
  let g := gridOf (getlines content) in
  bordered g = true -> positions "s" g 0 = [(sx, sy)] -> positions "f" g 0 = [(fx, fy)] ->
  forall prog, exists b g', main [prog; file] fs = Running (printed g') /\ solved g sx sy b g'.
Proof.
  intros Hfs Hv g Hb Hs Hf.
  assert (Cs : cell g (sx, sy) = Some "s"%char) by (apply In_positions; rewrite Hs; left; reflexivity).
  assert (Cf : cell g (fx, fy) = Some "f"%char) by (apply In_positions; rewrite Hf; left; reflexivity).
  destruct (bordered_firstIndex g Hb _ _ Cs) as (cs & Ecs & Ehs & Hsx).
  destruct (bordered_firstIndex g Hb _ _ Cf) as (cf & Ecf & Ehf & Hfx).
  exact (main_solved file fs content sx sy fx fy cs cf O O Hfs Hv Hs Hf Ecs Ehs Hsx Ecf Ehf Hfx
           (bordered_walled_aux g Hb)).
Qed.

(** C7: [main] solves every maze spec section 6 allows: on a file of
    valid lines forming a rectangle whose boundary is all ['#'], with
    exactly one start and one finish, it never reaches undefined
    behaviour and prints the grid with the blanks of a walk from the
    start to the finish marked ['.'] or, when there is no such walk,
    the grid with breadcrumbs. *)
Theorem main_solves_bordered file fs content sx sy fx fy :
  fs file = Some content -> forallb validLine (getlines content) = true ->
  let g := gridOf (getlines content) in
  bordered g = true -> positions "s" g 0 = [(sx, sy)] -> positions "f" g 0 = [(fx, fy)] ->
  forall prog, exists b g', main [prog; file] fs = Running (printed g') /\ solved g sx sy b g'.
Proof. apply main_bordered. Qed.

(** ** Concrete instances *)

Lemma main_solves_bordered_witness :
  exists b g', main ["mazesolver"; "maze.txt"]%string (fun _ => Some bordered_file) = Running (printed g') /\
    solved (gridOf (getlines bordered_file)) 1 1 b g'.
Proof.
  exact (main_solves_bordered "maze.txt"%string (fun _ => Some bordered_file) bordered_file 1 1 3 1
           eq_refl eq_refl eq_refl eq_refl eq_refl "mazesolver"%string).
Defined.
