(* ===== verification/MazeRun.v ===== *)
(** * MazeRun: whole runs of the program

    [main] evaluated on concrete maze files: the scenario of spec
    section 8, and the runs where the program departs from what spec
    section 6 describes (a single start and finish strictly inside the
    boundary, the path marked, every other cell unchanged). *)

From Stdlib Require Import ZArith List String Ascii.
From S2P Require Import Prelude Process MazeRow Maze MazeLoad.
Import ListNotations.
Open Scope string_scope.

(** A file system holding one file, whatever its name. *)
Definition oneFile (content : string) (name : string) : option string := Some content.

(** The output [printMaze] writes for these lines. *)
Definition outputOf (lines : list string) : list string := map (fun l => l ++ newline) lines.

(** spec scenario: the three-row maze ["##f##"], ["#s  #"],
    ["#####"] is printed with the single path from [s] to [f] marked,
    every other cell as it was. *)
Theorem spec_maze_run :
  main ["mazesolver"; "maze.txt"] spec_fs = Running (outputOf ["##f##"; "#s. #"; "#####"]).
Proof. vm_compute. reflexivity. Qed.

(** A maze with no path from the start to the finish: the search
    leaves its breadcrumbs ['!'] in the printed maze, since
    [cleanUpMaze] only runs when a path is found. *)
Theorem no_path_breadcrumbs :
  main ["mazesolver"; "maze.txt"] (oneFile (fileOf ["#####"; "#s  #"; "#####"; "#f  #"; "#####"])) =
  Running (outputOf ["#####"; "#s!!#"; "#####"; "#f  #"; "#####"]).
Proof. vm_compute. reflexivity. Qed.

(** A maze without a start: [checkMaze] passes the uninitialised
    [startX] to [ifOutside] before [checkStart] can report "no start
    found", and the behaviour is undefined. *)
Theorem no_start_undefined :
  main ["mazesolver"; "maze.txt"] (oneFile (fileOf ["#####"; "# f #"; "#####"])) =
  Halted (undefined "uninitialised int").
Proof. vm_compute. reflexivity. Qed.

(** A row open on the right: [ifOutside] only looks left of the start,
    so the maze is accepted, and the search steps past the end of the
    row, where [searchMazePoint] returns its uninitialised [char]. *)
Theorem open_row_undefined :
  main ["mazesolver"; "maze.txt"] (oneFile (fileOf ["#####"; "#s  "; "#####"; "#f###"])) =
  Halted (undefined "uninitialised char").
Proof. vm_compute. reflexivity. Qed.

(** the start is never breadcrumbed ([changeMazePoint] leaves an
    ['s'] unchanged), so the search re-enters it: here it goes down into
    the dead end below [s], comes back through [s] and finds [f] above
    it, and the dead-end cell is printed as part of the path. *)
Theorem start_reentered_detour :
  main ["mazesolver"; "maze.txt"] (oneFile (fileOf ["#####"; "#f###"; "#s###"; "# ###"; "#####"])) =
  Running (outputOf ["#####"; "#f###"; "#s###"; "#.###"; "#####"]).
Proof. vm_compute. reflexivity. Qed.

(** A start left of the first wall of its row is reported. *)
Theorem start_outside_reported :
  main ["mazesolver"; "maze.txt"] (oneFile (fileOf ["#####"; "s f #"; "#####"])) =
  Halted (exit0 ["Error - start declared outside of maze" ++ newline;
                 "Unable to load maze maze.txt" ++ newline]).
Proof. vm_compute. reflexivity. Qed.

(** Two starts are reported once the scan is over. *)
Theorem multiple_starts_reported :
  main ["mazesolver"; "maze.txt"] (oneFile (fileOf ["####"; "#sf#"; "#s #"; "####"])) =
  Halted (exit0 ["Error - multiple start found in maze" ++ newline]).
Proof. vm_compute. reflexivity. Qed.
